(** * ONE1intellect article view: a shallow embedding of the block renderer,
      the heading extractor, the navigator and the content client.

    Sources embedded here:
    - [src/components/ArticleView.tsx]: [Mermaid], [renderRichText],
      [getMediaUrl], [NotionBlockRenderer], the [headings] scan,
      [loadPageData], the scroll spy and [scrollToHeading];
    - [src/services/notionService.ts]: [getPageBlocks].

    JavaScript values are modelled as follows.  A string is a [string] of
    bytes (UTF-8); every separator and prefix the code looks for is ASCII,
    so byte-wise search agrees with search on UTF-16 code units.  A value
    that may be [undefined] or [null] is an [option].  A call that may throw
    (or an awaited promise that may reject) returns a [JsResult]. *)

From Stdlib Require Import String Ascii List ZArith Bool Arith Lia.
Import ListNotations.
Open Scope string_scope.
Open Scope list_scope.

Set Implicit Arguments.

(* ===================================================================== *)
(** ** JavaScript primitives used by the sources                          *)
(* ===================================================================== *)

(** The outcome of evaluating an expression: a value, or a thrown error.
    For an [async] function, [Throws] is the rejection of its promise. *)
Inductive JsResult (A : Type) : Type :=
| Returns (a : A)
| Throws (e : string).

Arguments Returns {A} a.
Arguments Throws {A} e.

Definition bind {A B : Type} (m : JsResult A) (k : A -> JsResult B) : JsResult B :=
  match m with
  | Returns a => k a
  | Throws e => Throws e
  end.

Notation "x <- m ;; k" := (bind m (fun x => k))
  (at level 61, m at next level, right associativity).

(** [try { body } catch { handler }] *)
Definition try_catch {A : Type} (body : JsResult A) (handler : string -> JsResult A) : JsResult A :=
  match body with
  | Returns a => Returns a
  | Throws e => handler e
  end.

(** The outcome is a throw. *)
Definition throws {A : Type} (r : JsResult A) : bool :=
  match r with
  | Returns _ => false
  | Throws _ => true
  end.

(** [xs.map(f)] where [f] may throw: the first throw aborts the map. *)
Definition mapM {A B : Type} (f : A -> JsResult B) : list A -> JsResult (list B) :=
  fix go (l : list A) : JsResult (list B) :=
    match l with
    | [] => Returns []
    | a :: l' => b <- f a ;; bs <- go l' ;; Returns (b :: bs)
    end.

(** [xs.forEach(f)] where [f] updates a store [S] and may throw. *)
Definition forEach {A S : Type} (f : A -> S -> JsResult S) : list A -> S -> JsResult S :=
  fix go (l : list A) (s : S) : JsResult S :=
    match l with
    | [] => Returns s
    | a :: l' => s' <- f a s ;; go l' s'
    end.

(** [xs.map((x, i) => f(i, x))] *)
Fixpoint mapi_from {A B : Type} (f : nat -> A -> B) (i : nat) (l : list A) : list B :=
  match l with
  | [] => []
  | a :: l' => f i a :: mapi_from f (S i) l'
  end.

Definition mapi {A B : Type} (f : nat -> A -> B) (l : list A) : list B :=
  mapi_from f 0 l.

(** Truthiness of a string: only the empty string is falsy. *)
Definition truthy (s : string) : bool :=
  match s with
  | EmptyString => false
  | String _ _ => true
  end.

(** Truthiness of a possibly-undefined string. *)
Definition truthy_opt (o : option string) : bool :=
  match o with
  | None => false
  | Some s => truthy s
  end.

(** [o === s] for a possibly-undefined string [o]. *)
Definition opt_is (o : option string) (s : string) : bool :=
  match o with
  | Some x => String.eqb x s
  | None => false
  end.

(** [s.startsWith(p)] *)
Definition startsWith (s p : string) : bool := String.prefix p s.

(** [s.includes(sub)] *)
Fixpoint includes (s sub : string) : bool :=
  match s with
  | EmptyString => String.prefix sub EmptyString
  | String _ s' => String.prefix sub s || includes s' sub
  end.

(** [s.split(sep)] for a one-character separator. *)
Fixpoint split (sep : ascii) (s : string) : list string :=
  match s with
  | EmptyString => [EmptyString]
  | String c s' =>
      if Ascii.eqb c sep then EmptyString :: split sep s'
      else match split sep s' with
           | [] => [String c EmptyString]
           | seg :: rest => String c seg :: rest
           end
  end.

(** [xs.join(sep)] *)
Definition join (sep : string) (xs : list string) : string := String.concat sep xs.

(** A JavaScript number as far as the sources need it: [NaN] or an integer.
    ([parseInt] yields a double; the integer model is exact below 2^53.) *)
Inductive JsNumber : Type :=
| NaN
| Num (z : Z).

Definition bytes (l : list nat) : string :=
  fold_right (fun n s => String (ascii_of_nat n) s) EmptyString l.

(** The white space and line terminators that [parseInt] skips, in UTF-8. *)
Definition js_whitespace : list string :=
  [ bytes [9]; bytes [10]; bytes [11]; bytes [12]; bytes [13]; bytes [32];
    bytes [194; 160]; bytes [225; 154; 128];
    bytes [226; 128; 128]; bytes [226; 128; 129]; bytes [226; 128; 130];
    bytes [226; 128; 131]; bytes [226; 128; 132]; bytes [226; 128; 133];
    bytes [226; 128; 134]; bytes [226; 128; 135]; bytes [226; 128; 136];
    bytes [226; 128; 137]; bytes [226; 128; 138];
    bytes [226; 128; 168]; bytes [226; 128; 169]; bytes [226; 128; 175];
    bytes [226; 129; 159]; bytes [227; 128; 128]; bytes [239; 187; 191] ].

Definition drop_prefix (p s : string) : option string :=
  if String.prefix p s
  then Some (String.substring (String.length p) (String.length s - String.length p) s)
  else None.

Definition strip_one_ws (s : string) : option string :=
  fold_right (fun w acc => match drop_prefix w s with
                           | Some r => Some r
                           | None => acc
                           end) None js_whitespace.

(** Leading white space is at most [length s] bytes long. *)
Fixpoint skip_ws (fuel : nat) (s : string) : string :=
  match fuel with
  | O => s
  | S fuel' => match strip_one_ws s with
               | Some r => skip_ws fuel' r
               | None => s
               end
  end.

Definition digit_value (c : ascii) : option Z :=
  let n := Z.of_nat (nat_of_ascii c) in
  if (48 <=? n)%Z && (n <=? 57)%Z then Some (n - 48)%Z
  else if (97 <=? n)%Z && (n <=? 122)%Z then Some (n - 87)%Z
  else if (65 <=? n)%Z && (n <=? 90)%Z then Some (n - 55)%Z
  else None.

(** The value of the longest prefix of digits below [radix]; [None] if that
    prefix is empty. *)
Fixpoint parse_digits (radix : Z) (s : string) (acc : option Z) : option Z :=
  match s with
  | EmptyString => acc
  | String c s' =>
      match digit_value c with
      | Some d =>
          if (d <? radix)%Z
          then parse_digits radix s'
                 (Some (match acc with
                        | None => d
                        | Some a => a * radix + d
                        end)%Z)
          else acc
      | None => acc
      end
  end.

(** [parseInt(s)] with no radix argument. *)
Definition parseInt (s : string) : JsNumber :=
  let s1 := skip_ws (String.length s) s in
  let '(sign, s2) :=
    match s1 with
    | String "-" r => ((-1)%Z, r)
    | String "+" r => (1%Z, r)
    | _ => (1%Z, s1)
    end in
  let '(radix, s3) :=
    match s2 with
    | String "0" (String "x" r) => (16%Z, r)
    | String "0" (String "X" r) => (16%Z, r)
    | _ => (10%Z, s2)
    end in
  match parse_digits radix s3 None with
  | Some v => Num (sign * v)
  | None => NaN
  end.

(** [parseInt(xs[i])]: an index out of range reads [undefined], and
    [parseInt(undefined)] parses the text "undefined", which has no digits. *)
Definition parseInt_at (xs : list string) (i : nat) : JsNumber :=
  match nth_error xs i with
  | Some s => parseInt s
  | None => NaN
  end.

(* ===================================================================== *)
(** ** View fragments (React elements)                                    *)
(* ===================================================================== *)

(** The event handlers the block renderer attaches to an image: [onLoad]
    removes the loading classes of the parent, [onError] logs a warning and
    hides the parent. *)
Inductive Handler : Type :=
| RemovePulseOnLoad
| WarnAndHideOnError (imageUrl : string).

Definition Style : Type := list (string * string).

Inductive AttrVal : Type :=
| AStr (s : string)
| AIdx (i : nat)
| AStyle (st : Style)
| AHandler (h : Handler)
| ARef.

Definition Attrs : Type := list (string * AttrVal).

(** A rendered fragment.  [NNull] is a slot that renders nothing ([null],
    [undefined] or [false] in JSX); [NFrag] is an array child; [NKeyed] is a
    keyed component instance, expanded to what it renders; [NMermaid] is an
    instance of the [Mermaid] component, which owns state of its own;
    [NIcon] is an icon component of the icon library; [NRawHtml] is markup
    injected through [innerHTML]. *)
#[local] Unset Elimination Schemes.

Inductive Node : Type :=
| NNull
| NText (s : string)
| NElem (tag : string) (attrs : Attrs) (children : list Node)
| NFrag (items : list Node)
| NKeyed (key : string) (child : Node)
| NMermaid (chart : string)
| NIcon (name : string) (className : string)
| NRawHtml (html : string).

#[local] Set Elimination Schemes.

Definition className (c : string) : string * AttrVal := ("className", AStr c).

(** The text a fragment shows, left to right. *)
Fixpoint node_text (n : Node) : string :=
  match n with
  | NText s => s
  | NElem _ _ cs => String.concat "" (map node_text cs)
  | NFrag items => String.concat "" (map node_text items)
  | NKeyed _ child => node_text child
  | NNull | NMermaid _ | NIcon _ _ | NRawHtml _ => ""
  end.

Fixpoint style_get (prop : string) (st : Style) : option string :=
  match st with
  | [] => None
  | (k, v) :: st' => if String.eqb k prop then Some v else style_get prop st'
  end.

Fixpoint attr_get (name : string) (attrs : Attrs) : option AttrVal :=
  match attrs with
  | [] => None
  | (k, v) :: attrs' => if String.eqb k name then Some v else attr_get name attrs'
  end.

(** The value of an attribute of the root element of a fragment. *)
Definition node_attr (name : string) (n : Node) : option AttrVal :=
  match n with
  | NElem _ attrs _ => attr_get name attrs
  | _ => None
  end.

(** A JSX child that is an array or [null]. *)
Definition child_of (o : option (list Node)) : Node :=
  match o with
  | None => NNull
  | Some l => NFrag l
  end.

(** A JSX child that is a string or [undefined]. *)
Definition text_of (o : option string) : Node :=
  match o with
  | None => NNull
  | Some s => NText s
  end.

(* ===================================================================== *)
(** ** Rich text  (ArticleView.tsx, lines 44-73)                          *)
(* ===================================================================== *)

Record Annotations : Type := {
  bold : bool;
  italic : bool;
  strikethrough : bool;
  underline : bool;
  code : bool;
  color : string
}.

Record TextContent : Type := { content : string }.

(** One rich-text span of kind text, as the data model of the
    specification has it: annotations, text content and an optional
    hyperlink target.  (Spans of other kinds, which carry no [text] object,
    are outside that data model.) *)
Record RichText : Type := {
  annotations : Annotations;
  text : TextContent;
  plain_text : string;
  href : option string
}.

Definition code_className : string :=
  "bg-black/5 dark:bg-white/10 px-1.5 py-0.5 rounded text-[0.9em] font-mono text-pink-500 dark:text-pink-400".

Definition link_className : string :=
  "text-blue-500 hover:text-blue-600 underline underline-offset-4 decoration-current/30 hover:decoration-current transition-colors".

(** The [style] object built for one span. *)
Definition span_style (a : Annotations) : Style :=
  [ ("fontWeight", if bold a then "700" else "inherit");
    ("fontStyle", if italic a then "italic" else "inherit");
    ("textDecoration",
       if underline a then "underline"
       else if strikethrough a then "line-through" else "none");
    ("color", if negb (String.eqb (color a) "default") then color a else "inherit") ].

(** The callback of [richText.map]. *)
Definition renderSpan (i : nat) (t : RichText) : Node :=
  let a := annotations t in
  let style := span_style a in
  let content := content (text t) in
  let element := NElem "span" [("key", AIdx i); ("style", AStyle style)] [NText content] in
  let element :=
    if code a
    then NElem "code" [("key", AIdx i); className code_className] [NText content]
    else element in
  match href t with
  | Some h =>
      if truthy h
      then NElem "a" [ ("key", AIdx i); ("href", AStr h); ("target", AStr "_blank");
                       ("rel", AStr "noopener noreferrer"); className link_className;
                       ("style", AStyle style) ]
                 [element]
      else element
  | None => element
  end.

Definition renderRichText (richText : option (list RichText)) : option (list Node) :=
  match richText with
  | None => None
  | Some spans => Some (mapi renderSpan spans)
  end.

(** *** The fragments the specification names, for comparison *)

(** An inline monospace fragment. *)
Definition code_fragment (i : nat) (content : string) : Node :=
  NElem "code" [("key", AIdx i); className code_className] [NText content].

(** A plain styled fragment. *)
Definition styled_fragment (i : nat) (style : Style) (content : string) : Node :=
  NElem "span" [("key", AIdx i); ("style", AStyle style)] [NText content].

(** A link to [target] around [inner] that opens in a new browsing context. *)
Definition link_fragment (i : nat) (target : string) (style : Style) (inner : Node) : Node :=
  NElem "a" [ ("key", AIdx i); ("href", AStr target); ("target", AStr "_blank");
              ("rel", AStr "noopener noreferrer"); className link_className;
              ("style", AStyle style) ]
        [inner].

(** The inline styles that the elements of a fragment carry, outermost
    first. *)
Fixpoint node_styles (n : Node) : list Style :=
  match n with
  | NElem _ attrs cs =>
      match attr_get "style" attrs with
      | Some (AStyle st) => [st]
      | _ => []
      end ++ flat_map node_styles cs
  | NFrag items => flat_map node_styles items
  | NKeyed _ child => node_styles child
  | NNull | NText _ | NMermaid _ | NIcon _ _ | NRawHtml _ => []
  end.

(** Some element of the fragment is styled with text decoration [d]. *)
Definition applies_decoration (n : Node) (d : string) : bool :=
  existsb (fun st => opt_is (style_get "textDecoration" st) d) (node_styles n).

(* ===================================================================== *)
(** ** Blocks  (notionService.ts, lines 8-12; ArticleView.tsx, 75-251)    *)
(* ===================================================================== *)

Record MediaRef : Type := { url : string }.

Record Icon : Type := { emoji : option string }.

(** The kind-specific payload [block[block.type]].  Every field is one the
    renderer reads; a field the payload does not carry is [None]
    ([checked] absent reads as [false]). *)
Module Data.
Record t : Type := mk {
  rich_text : option (list RichText);
  checked : bool;
  language : option string;
  type : option string;
  external : option MediaRef;
  file : option MediaRef;
  caption : option (list RichText);
  color : option string;
  icon : option Icon
}.
End Data.

#[local] Unset Elimination Schemes.

(** [interface NotionBlock { id: string; type: string; [key: string]: any }].
    [data] is the value stored under the key named by [type]; [children] is
    the optional array of nested blocks. *)
Inductive NotionBlock : Type :=
  mkBlock {
    id : string;
    type : string;
    data : option Data.t;
    children : option (list NotionBlock)
  }.

#[local] Set Elimination Schemes.

(** Induction on a block tree: a property holds of every block when it holds
    of a block as soon as it holds of each of its children. *)
Section NotionBlock_induction.
Variable P : NotionBlock -> Prop.
Hypothesis P_leaf : forall i t d, P (mkBlock i t d None).
Hypothesis P_node : forall i t d cs, Forall P cs -> P (mkBlock i t d (Some cs)).

Fixpoint NotionBlock_tree_ind (b : NotionBlock) : P b :=
  match b with
  | mkBlock i t d None => P_leaf i t d
  | mkBlock i t d (Some cs) =>
      P_node i t d
        ((fix all (l : list NotionBlock) : Forall P l :=
            match l with
            | [] => Forall_nil P
            | c :: l' => Forall_cons c (NotionBlock_tree_ind c) (all l')
            end) cs)
  end.
End NotionBlock_induction.

(** [getMediaUrl] *)
Definition getMediaUrl (data : option Data.t) : JsResult string :=
  match data with
  | None => Returns ""
  | Some d =>
      if opt_is (Data.type d) "external" then
        match Data.external d with
        | Some m => Returns (url m)
        | None => Throws "TypeError: data.external is undefined"
        end
      else if opt_is (Data.type d) "file" then
        match Data.file d with
        | Some m => Returns (url m)
        | None => Throws "TypeError: data.file is undefined"
        end
      else Returns ""
  end.

(** [data.rich_text.map((t) => t.plain_text).join('')] *)
Definition plain_text_of (rich_text : option (list RichText)) : JsResult string :=
  match rich_text with
  | Some spans => Returns (join "" (map plain_text spans))
  | None => Throws "TypeError: rich_text is undefined"
  end.

(** The light bulb emoji, in UTF-8. *)
Definition bulb : string := bytes [240; 159; 146; 161].

(** [a || b] on strings *)
Definition or_else (o : option string) (dflt : string) : string :=
  match o with
  | Some s => if truthy s then s else dflt
  | None => dflt
  end.

(** [data.color?.split('_')[0] || 'blue'] *)
Definition callout_bgColor (d : Data.t) : string :=
  or_else (match Data.color d with
           | Some c => nth_error (split "_" c) 0
           | None => None
           end) "blue".

(** [data.caption?.[0]?.plain_text || "Document"] *)
Definition media_title (d : Data.t) : string :=
  or_else (match Data.caption d with
           | Some (t :: _) => Some (plain_text t)
           | _ => None
           end) "Document".

(** The labeled monospace block of a [code] block that is not a diagram. *)
Definition source_code_block (language : option string) (code : string) : Node :=
  NElem "div" [className "relative group my-8"]
    [ NElem "div"
        [className "absolute top-0 right-0 px-4 py-1.5 text-[10px] font-bold font-mono text-subtle/60 uppercase tracking-widest bg-black/5 dark:bg-white/5 rounded-bl-xl border-l border-b border-black/5 dark:border-white/5"]
        [text_of language];
      NElem "pre"
        [className "bg-black/[0.03] dark:bg-white/[0.03] p-8 rounded-3xl overflow-x-auto text-[0.9em] font-mono border border-black/5 dark:border-white/5 shadow-inner leading-relaxed"]
        [NElem "code" [] [NText code]] ].

Definition image_figure (imageUrl : string) (d : Data.t) : Node :=
  NElem "figure" [className "my-10"]
    [ NElem "div"
        [className "relative rounded-2xl overflow-hidden border border-black/5 dark:border-white/10 bg-black/5 dark:bg-white/5"]
        [ NElem "img"
            [ ("src", AStr imageUrl); ("alt", AStr "Notion Visual Content");
              className "w-full h-full object-contain"; ("loading", AStr "lazy");
              ("onLoad", AHandler RemovePulseOnLoad);
              ("onError", AHandler (WarnAndHideOnError imageUrl)) ]
            [] ];
      match Data.caption d with
      | Some (_ :: _) =>
          NElem "figcaption"
            [className "text-center text-xs text-subtle mt-4 font-medium italic px-6 opacity-60"]
            [child_of (renderRichText (Data.caption d))]
      | _ => NNull
      end ].

Definition media_link (mediaUrl : string) (d : Data.t) : Node :=
  NElem "a"
    [ ("href", AStr mediaUrl); ("target", AStr "_blank"); ("rel", AStr "noopener noreferrer");
      className "flex items-center gap-3 p-4 bg-black/[0.02] dark:bg-white/[0.02] rounded-xl my-4 border border-black/5 dark:border-white/10 transition-colors" ]
    [ NElem "div"
        [className "w-8 h-8 rounded-lg bg-paper dark:bg-white/5 flex items-center justify-center border border-black/5 dark:border-white/10"]
        [NIcon "File" "w-4 h-4 text-ink/70"];
      NElem "div" [className "flex-1 min-w-0"]
        [ NElem "div"
            [className "text-[11px] font-bold text-ink truncate uppercase tracking-wider"]
            [NText (media_title d)] ];
      NIcon "ExternalLink" "w-3.5 h-3.5 text-subtle/30" ].

Definition to_do_row (d : Data.t) : Node :=
  NElem "div" [className "flex items-start gap-3 mb-2"]
    [ NElem "div"
        [className ("mt-1.5 w-5 h-5 rounded border flex items-center justify-center shrink-0 "
                    ++ (if Data.checked d then "bg-blue-500 border-blue-500" else "border-subtle/30"))]
        [if Data.checked d then NIcon "CheckSquare" "w-3 h-3 text-white" else NNull];
      NElem "div"
        [className ("text-lg transition-opacity "
                    ++ (if Data.checked d then "opacity-50 line-through" else "opacity-100"))]
        [child_of (renderRichText (Data.rich_text d))] ].

Definition callout_box (d : Data.t) (nested : Node) : Node :=
  let bgColor := callout_bgColor d in
  NElem "div"
    [className ("flex flex-col gap-6 p-8 rounded-3xl my-10 border transition-all hover:shadow-lg "
                ++ (if String.eqb bgColor "blue" then "bg-blue-500/[0.03] border-blue-500/10"
                    else if String.eqb bgColor "red" then "bg-red-500/[0.03] border-red-500/10"
                    else "bg-ink/[0.03] border-ink/10"))]
    [ NElem "div" [className "flex items-start gap-5"]
        [ NElem "div" [className "text-3xl pt-1 shrink-0"]
            [NText (or_else (match Data.icon d with
                             | Some ic => emoji ic
                             | None => None
                             end) bulb)];
          NElem "div" [className "text-xl leading-relaxed text-ink/80 flex-1"]
            [child_of (renderRichText (Data.rich_text d))] ];
      NElem "div" [className "pl-14"] [nested] ].

(** [NotionBlockRenderer]: the recursive block renderer.  A child component
    that throws while rendering aborts the render of its parent. *)
Fixpoint NotionBlockRenderer (block : NotionBlock) : JsResult Node :=
  match block with
  | mkBlock block_id type data children =>
  match data with
  | None => Returns NNull
  | Some data =>
      let keyed_children (cs : list NotionBlock) : JsResult (list Node) :=
        mapM (fun child => n <- NotionBlockRenderer child ;;
                           Returns (NKeyed (id child) n)) cs in
      let renderChildren : JsResult Node :=
        match children with
        | None | Some [] => Returns NNull
        | Some cs =>
            ns <- keyed_children cs ;;
            Returns (NElem "div" [className "nested-blocks space-y-2 mt-4"] [NFrag ns])
        end in
      let rich := child_of (renderRichText (Data.rich_text data)) in
      if String.eqb type "paragraph" then
        nested <- renderChildren ;;
        Returns (NElem "div" [className "mb-4"]
                   [ NElem "p" [className "text-lg leading-relaxed text-ink/85"] [rich];
                     nested ])
      else if String.eqb type "heading_1" then
        Returns (NElem "h1"
                   [ ("id", AStr block_id);
                     className "text-3xl font-bold mt-12 mb-6 text-ink border-b border-black/10 dark:border-white/10 pb-3 tracking-tight scroll-mt-28" ]
                   [rich])
      else if String.eqb type "heading_2" then
        Returns (NElem "h2"
                   [ ("id", AStr block_id);
                     className "text-2xl font-bold mt-10 mb-4 text-ink tracking-tight scroll-mt-28" ]
                   [rich])
      else if String.eqb type "heading_3" then
        Returns (NElem "h3"
                   [ ("id", AStr block_id);
                     className "text-xl font-bold mt-8 mb-3 text-ink tracking-tight scroll-mt-28" ]
                   [rich])
      else if String.eqb type "bulleted_list_item" then
        nested <- renderChildren ;;
        Returns (NElem "div" [className "mb-2"]
                   [ NElem "li" [className "ml-6 text-lg text-ink/85 list-disc marker:text-subtle/50"]
                       [rich];
                     NElem "div" [className "ml-6"] [nested] ])
      else if String.eqb type "numbered_list_item" then
        nested <- renderChildren ;;
        Returns (NElem "div" [className "mb-2"]
                   [ NElem "li"
                       [className "ml-6 text-lg text-ink/85 list-decimal marker:text-subtle/50 font-medium"]
                       [rich];
                     NElem "div" [className "ml-6"] [nested] ])
      else if String.eqb type "to_do" then
        Returns (to_do_row data)
      else if String.eqb type "toggle" then
        nested <- renderChildren ;;
        Returns (NElem "details"
                   [className "group mb-5 bg-black/[0.01] dark:bg-white/[0.01] rounded-xl p-4 border border-black/5 dark:border-white/5 overflow-hidden"]
                   [ NElem "summary"
                       [className "text-base font-bold cursor-pointer list-none flex items-center gap-2 select-none"]
                       [ NIcon "ChevronRight" "w-4 h-4 text-subtle/50 group-open:rotate-90 transition-transform";
                         rich ];
                     NElem "div"
                       [className "mt-4 ml-6 border-l border-black/5 dark:border-white/5 pl-5"]
                       [nested] ])
      else if String.eqb type "column_list" then
        cols <- match children with
                | None => Returns NNull
                | Some cs =>
                    ns <- mapM (fun col =>
                                  n <- NotionBlockRenderer col ;;
                                  Returns (NElem "div" [("key", AStr (id col)); className "flex-1 min-w-0"] [n]))
                               cs ;;
                    Returns (NFrag ns)
                end ;;
        Returns (NElem "div" [className "flex flex-col md:flex-row gap-8 my-10 items-stretch"] [cols])
      else if String.eqb type "column" then
        inner <- match children with
                 | None => Returns NNull
                 | Some cs => ns <- keyed_children cs ;; Returns (NFrag ns)
                 end ;;
        Returns (NElem "div" [className "space-y-4"] [inner])
      else if String.eqb type "code" then
        if opt_is (Data.language data) "mermaid" then
          code <- plain_text_of (Data.rich_text data) ;;
          Returns (NMermaid code)
        else
          code <- plain_text_of (Data.rich_text data) ;;
          Returns (source_code_block (Data.language data) code)
      else if String.eqb type "image" then
        imageUrl <- getMediaUrl (Some data) ;;
        if negb (truthy imageUrl) then Returns NNull
        else Returns (image_figure imageUrl data)
      else if String.eqb type "file" || String.eqb type "video" || String.eqb type "pdf" then
        mediaUrl <- getMediaUrl (Some data) ;;
        if negb (truthy mediaUrl) then Returns NNull
        else Returns (media_link mediaUrl data)
      else if String.eqb type "quote" then
        nested <- renderChildren ;;
        Returns (NElem "div" [className "my-10 relative pl-8 border-l-4 border-ink/10"]
                   [ NElem "blockquote"
                       [className "text-2xl font-serif italic text-ink/70 leading-relaxed"]
                       [rich];
                     NElem "div" [className "mt-4"] [nested] ])
      else if String.eqb type "divider" then
        Returns (NElem "hr" [className "my-16 border-t-2 border-black/[0.03] dark:border-white/[0.03]"] [])
      else if String.eqb type "callout" then
        nested <- renderChildren ;;
        Returns (callout_box data nested)
      else if String.eqb type "synced_block" then
        nested <- renderChildren ;;
        Returns (NElem "div" [className "synced-content my-4"] [nested])
      else Returns NNull
  end
  end.

(* ===================================================================== *)
(** ** The diagram component  (ArticleView.tsx, lines 13-42)              *)
(* ===================================================================== *)

Record MermaidConfig : Type := {
  startOnLoad : bool;
  theme : string;
  securityLevel : string;
  fontFamily : option string
}.

(** The diagram library: both entry points may throw. *)
Record MermaidLib : Type := {
  initialize : MermaidConfig -> JsResult unit;
  render : string -> string -> JsResult string
}.

(** What the component reads from the browser: whether the document root
    carries the class [dark], and the text that
    [Math.random().toString(36).substr(2, 9)] yields for the n-th diagram
    instance of the page. *)
Record Browser : Type := {
  dark : bool;
  random : nat -> string
}.

(** The state of one instance: the [error] state variable and the markup
    injected in the container the [ref] points to. *)
Record MermaidState : Type := {
  error : option string;
  innerHTML : string
}.

Definition Mermaid_initial : MermaidState := {| error := None; innerHTML := "" |}.

Definition Mermaid_error_className : string :=
  "p-4 bg-red-500/10 text-red-500 rounded-lg text-xs font-mono".

Definition Mermaid_container_className : string :=
  "flex justify-center my-6 overflow-x-auto bg-white/50 dark:bg-white/5 rounded-xl p-6 backdrop-blur-md border border-black/5 dark:border-white/5".

(** The inline notice with text [msg]. *)
Definition diagram_notice (msg : string) : Node :=
  NElem "div" [className Mermaid_error_className] [NText msg].

(** What the component returns for a state. *)
Definition Mermaid (st : MermaidState) : Node :=
  if truthy_opt (error st)
  then NElem "div" [className Mermaid_error_className] [text_of (error st)]
  else NElem "div" [("ref", ARef); className Mermaid_container_className]
         (if truthy (innerHTML st) then [NRawHtml (innerHTML st)] else []).

(** [ref.current] is the container, which is mounted exactly when the
    component did not return the error notice. *)
Definition ref_current (st : MermaidState) : bool := negb (truthy_opt (error st)).

(** The body of the [try] block up to the awaited [mermaid.render]. *)
Definition compile (lib : MermaidLib) (dark : bool) (rnd chart : string) : JsResult string :=
  _ <- initialize lib {| startOnLoad := false;
                         theme := if dark then "dark" else "neutral";
                         securityLevel := "loose";
                         fontFamily := Some "Inter, sans-serif" |} ;;
  let id := ("mermaid-" ++ rnd)%string in
  svg <- render lib id chart ;;
  Returns svg.

(** [renderChart], run by the effect on mount and when [chart] changes. *)
Definition renderChart (lib : MermaidLib) (dark : bool) (rnd chart : string)
    (st : MermaidState) : MermaidState :=
  if ref_current st then
    match compile lib dark rnd chart with
    | Returns svg =>
        {| error := None;
           innerHTML := if ref_current st then svg else innerHTML st |}
    | Throws _ =>
        {| error := Some "Diagram preview unavailable"; innerHTML := innerHTML st |}
    end
  else st.

(** The instance once its first effect has settled. *)
Definition Mermaid_mounted (lib : MermaidLib) (dark : bool) (rnd chart : string) : Node :=
  Mermaid (renderChart lib dark rnd chart Mermaid_initial).

(** A map that threads a counter through the elements, left to right. *)
Definition mapS {A B : Type} (f : A -> nat -> B * nat) : list A -> nat -> list B * nat :=
  fix go (l : list A) (k : nat) : list B * nat :=
    match l with
    | [] => ([], k)
    | a :: l' =>
        let '(b, k1) := f a k in
        let '(bs, k2) := go l' k1 in
        (b :: bs, k2)
    end.

(** What a rendered tree shows once every diagram instance in it has
    settled; [k] counts the diagram instances met so far, in tree order. *)
Fixpoint display (lib : MermaidLib) (w : Browser) (n : Node) (k : nat) : Node * nat :=
  match n with
  | NElem tag attrs cs =>
      let '(cs', k') := mapS (display lib w) cs k in (NElem tag attrs cs', k')
  | NFrag items =>
      let '(items', k') := mapS (display lib w) items k in (NFrag items', k')
  | NKeyed key child =>
      let '(child', k') := display lib w child k in (NKeyed key child', k')
  | NMermaid chart => (Mermaid_mounted lib (dark w) (random w k) chart, S k)
  | NNull | NText _ | NIcon _ _ | NRawHtml _ => (n, k)
  end.

Definition display_all (lib : MermaidLib) (w : Browser) : list Node -> nat -> list Node * nat :=
  mapS (display lib w).

(** [blocks.map(block => <NotionBlockRenderer key={block.id} block={block} />)] *)
Definition render_blocks (blocks : list NotionBlock) : JsResult (list Node) :=
  mapM (fun block => n <- NotionBlockRenderer block ;; Returns (NKeyed (id block) n)) blocks.

(* ===================================================================== *)
(** ** The heading extractor  (ArticleView.tsx, lines 259-279)            *)
(* ===================================================================== *)

Module Heading.
Record t : Type := mk {
  id : string;
  text : string;
  level : JsNumber
}.
End Heading.

(** The body of the [forEach] callback of [scan]; [extracted] is the array
    the callback pushes to. *)
Fixpoint scan_item (item : NotionBlock) (extracted : list Heading.t)
    : JsResult (list Heading.t) :=
  match item with
  | mkBlock item_id item_type item_data item_children =>
      extracted1 <-
        (if startsWith item_type "heading_" then
           match item_data with
           | None => Throws "TypeError: item[item.type] is undefined"
           | Some d =>
               text <- plain_text_of (Data.rich_text d) ;;
               if truthy text
               then Returns (extracted ++
                      [ {| Heading.id := item_id;
                           Heading.text := text;
                           Heading.level := parseInt_at (split "_" item_type) 1 |} ])
               else Returns extracted
           end
         else Returns extracted) ;;
      match item_children with
      | Some cs => forEach scan_item cs extracted1
      | None => Returns extracted1
      end
  end.

Definition scan (items : list NotionBlock) (extracted : list Heading.t)
    : JsResult (list Heading.t) :=
  forEach scan_item items extracted.

(** The memoised [headings] value. *)
Definition headings (blocks : list NotionBlock) : JsResult (list Heading.t) :=
  scan blocks [].

(** *** The output the specification describes, for comparison

    The blocks of a tree in depth-first pre-order: a node first, then its
    children in their given order. *)
Fixpoint preorder (b : NotionBlock) : list NotionBlock :=
  b :: match children b with
       | Some cs => flat_map preorder cs
       | None => []
       end.

Definition preorder_all (blocks : list NotionBlock) : list NotionBlock :=
  flat_map preorder blocks.

(** A heading block is one whose kind starts with [heading_]. *)
Definition is_heading (b : NotionBlock) : bool := startsWith (type b) "heading_".

(** The rich-text spans of a block, when its payload carries them. *)
Definition spans_of (b : NotionBlock) : option (list RichText) :=
  match data b with
  | Some d => Data.rich_text d
  | None => None
  end.

(** The concatenation of the plain text of a block's spans. *)
Definition heading_text (b : NotionBlock) : string :=
  match spans_of b with
  | Some spans => join "" (map plain_text spans)
  | None => ""
  end.

(** The heading entry of a heading block: its identifier, its text and the
    number that follows [heading_] in its kind. *)
Definition heading_entry (b : NotionBlock) : Heading.t :=
  {| Heading.id := id b;
     Heading.text := heading_text b;
     Heading.level := parseInt_at (split "_" (type b)) 1 |}.

(** The first statement of the callback of [scan]: the push of the item's
    own entry. *)
Definition own_heading (item : NotionBlock) (extracted : list Heading.t)
    : JsResult (list Heading.t) :=
  if startsWith (type item) "heading_" then
    match data item with
    | None => Throws "TypeError: item[item.type] is undefined"
    | Some d =>
        text <- plain_text_of (Data.rich_text d) ;;
        if truthy text
        then Returns (extracted ++
               [ {| Heading.id := id item;
                    Heading.text := text;
                    Heading.level := parseInt_at (split "_" (type item)) 1 |} ])
        else Returns extracted
    end
  else Returns extracted.

(** One entry for every heading block, in pre-order. *)
Definition all_heading_entries (blocks : list NotionBlock) : list Heading.t :=
  map heading_entry (filter is_heading (preorder_all blocks)).

(** One entry for every heading block whose text is not empty, in pre-order. *)
Definition titled_heading (b : NotionBlock) : bool :=
  is_heading b && truthy (heading_text b).

Definition titled_heading_entries (blocks : list NotionBlock) : list Heading.t :=
  map heading_entry (filter titled_heading (preorder_all blocks)).

(** Every heading block of the tree carries a payload with rich text. *)
Definition headings_have_text (blocks : list NotionBlock) : Prop :=
  Forall (fun b => is_heading b = true -> spans_of b <> None) (preorder_all blocks).

(** A scan over the blocks [visited] (in visiting order) that started from
    [extracted] ended as the specification describes: it returned the
    entries of the titled headings appended to [extracted], or it threw and
    some heading block among [visited] carries no rich text. *)
Definition scan_agrees (visited : list NotionBlock) (extracted : list Heading.t)
    (outcome : JsResult (list Heading.t)) : Prop :=
  match outcome with
  | Returns r => r = extracted ++ map heading_entry (filter titled_heading visited)
  | Throws _ => ~ Forall (fun b => is_heading b = true -> spans_of b <> None) visited
  end.

(* ===================================================================== *)
(** ** The content client  (notionService.ts)                             *)
(* ===================================================================== *)

Definition NOTION_VERSION : string := "2022-06-28".

(** [import.meta.env] *)
Record Env : Type := { VITE_NOTION_API_KEY : option string }.

Record Request : Type := {
  req_url : string;
  req_method : string;
  req_headers : list (string * string)
}.

(** A response whose body, once parsed, is a [B]: [json] throws when the
    body does not parse and yields [None] when it parses to [null]. *)
Record Response (B : Type) : Type := {
  ok : bool;
  json : JsResult (option B)
}.

Record BlocksBody : Type := { results : list NotionBlock }.

(** [!apiKey || apiKey.includes('PLACEHOLDER')] *)
Definition key_unusable (apiKey : option string) : bool :=
  match apiKey with
  | None => true
  | Some k => negb (truthy k) || includes k "PLACEHOLDER"
  end.

Definition auth_headers (apiKey : option string) : list (string * string) :=
  [ ("Authorization", ("Bearer " ++ match apiKey with Some k => k | None => "undefined" end)%string);
    ("Notion-Version", NOTION_VERSION) ].

(** The request [getPageBlocks] sends. *)
Definition blocks_request (env : Env) (blockId : string) : Request :=
  {| req_url := ("/api/notion/blocks/" ++ blockId ++ "/children?page_size=100")%string;
     req_method := "GET";
     req_headers := auth_headers (VITE_NOTION_API_KEY env) |}.

(** [getPageBlocks]; [fetch] is the network. *)
Definition getPageBlocks (env : Env) (fetch : Request -> JsResult (Response BlocksBody))
    (blockId : string) : JsResult (list NotionBlock) :=
  let apiKey := VITE_NOTION_API_KEY env in
  if key_unusable apiKey then Returns []
  else
    try_catch
      (response <- fetch {| req_url := ("/api/notion/blocks/" ++ blockId ++ "/children?page_size=100")%string;
                            req_method := "GET";
                            req_headers := auth_headers apiKey |} ;;
       if negb (ok response) then Returns []
       else
         data <- json response ;;
         match data with
         | Some body => Returns (results body)
         | None => Throws "TypeError: data is null"
         end)
      (fun _ => Returns []).

(** [interface NotionPage], with the two fields the page header reads. *)
Module Page.
Record t : Type := mk {
  id : string;
  url : string;
  cover : option Data.t;
  icon : option Data.t
}.
End Page.

(** Modelled from the spec: [getPageDetails], the page-metadata fetch that
    ArticleView.tsx imports from the content client and calls in
    [loadPageData], has no definition in notionService.ts.  The
    specification (section 6) gives its contract: it returns an empty or
    default result rather than raising on failure, and it does its own
    authentication and versioning against the relay endpoint.  The model
    follows [getPageBlocks] for the failure modes; the default result is the
    absent page ([null], the initial [pageDetails]).  The request path is left
    to [details_path]. *)
Definition details_request (env : Env) (details_path : string -> string)
    (pageId : string) : Request :=
  {| req_url := details_path pageId;
     req_method := "GET";
     req_headers := auth_headers (VITE_NOTION_API_KEY env) |}.

Definition getPageDetails (env : Env) (details_path : string -> string)
    (fetch : Request -> JsResult (Response Page.t))
    (pageId : string) : JsResult (option Page.t) :=
  let apiKey := VITE_NOTION_API_KEY env in
  if key_unusable apiKey then Returns None
  else
    try_catch
      (response <- fetch {| req_url := details_path pageId;
                            req_method := "GET";
                            req_headers := auth_headers apiKey |} ;;
       if negb (ok response) then Returns None
       else
         data <- json response ;;
         Returns data)
      (fun _ => Returns None).

(* ===================================================================== *)
(** ** The page orchestrator  (ArticleView.tsx, lines 253-328, 432-456)   *)
(* ===================================================================== *)

(** The four state variables of [ArticleView]. *)
Record ViewState : Type := {
  blocks : list NotionBlock;
  pageDetails : option Page.t;
  loading : bool;
  activeSection : string
}.

Definition initial_view : ViewState :=
  {| blocks := []; pageDetails := None; loading := true; activeSection := "" |}.

Definition setBlocks (v : list NotionBlock) (st : ViewState) : ViewState :=
  {| blocks := v; pageDetails := pageDetails st;
     loading := loading st; activeSection := activeSection st |}.

Definition setPageDetails (v : option Page.t) (st : ViewState) : ViewState :=
  {| blocks := blocks st; pageDetails := v;
     loading := loading st; activeSection := activeSection st |}.

Definition setLoading (v : bool) (st : ViewState) : ViewState :=
  {| blocks := blocks st; pageDetails := pageDetails st;
     loading := v; activeSection := activeSection st |}.

Definition setActiveSection (v : string) (st : ViewState) : ViewState :=
  {| blocks := blocks st; pageDetails := pageDetails st;
     loading := loading st; activeSection := v |}.

(** *** The content body *)

(** One of the six placeholder rows; [width] is the text of the random
    percentage. *)
Definition skeleton_row (width : nat -> string) (i : nat) : Node :=
  NElem "div" [("key", AIdx i); className "space-y-3"]
    [ NElem "div" [ className "h-8 bg-black/5 dark:bg-white/5 rounded-2xl animate-pulse";
                    ("style", AStyle [("width", width i)]) ] [];
      NElem "div" [className "h-4 bg-black/[0.03] dark:bg-white/[0.03] rounded-full animate-pulse w-full"] [];
      NElem "div" [className "h-4 bg-black/[0.02] dark:bg-white/[0.02] rounded-full animate-pulse w-[90%]"] [] ].

Definition skeleton (width : nat -> string) : Node :=
  NElem "div" [className "space-y-10 py-10"]
    [NFrag (map (skeleton_row width) (seq 0 6))].

Definition entry_unavailable : Node :=
  NElem "div" [className "py-32 text-center border-2 border-dashed border-black/5 rounded-[3rem] opacity-40"]
    [ NIcon "File" "w-16 h-16 mx-auto mb-6 text-subtle/20";
      NElem "p" [className "font-sans font-black text-xs uppercase tracking-widest"]
        [NText "Entry Data Unavailable"] ].

Definition content_wrapper (inner : Node) : Node :=
  NElem "div"
    [className "prose prose-2xl prose-neutral dark:prose-invert max-w-none font-serif selection:bg-blue-500/20"]
    [inner].

(** The content area of the page for a state. *)
Definition content_body (width : nat -> string) (st : ViewState) : JsResult Node :=
  inner <-
    (if loading st then Returns (skeleton width)
     else
       root <- (if Nat.ltb 0 (List.length (blocks st))
                then ns <- render_blocks (blocks st) ;; Returns (NFrag ns)
                else Returns entry_unavailable) ;;
       Returns (NElem "div" [className "content-root"] [root])) ;;
  Returns (content_wrapper inner).

(** *** Loading *)

(** A promise: still pending, or settled with its outcome. *)
Inductive Promise (A : Type) : Type :=
| Pending
| Settled (r : JsResult A).

Arguments Pending {A}.
Arguments Settled {A} r.

(** [Promise.all] of two promises: fulfilled once both are, rejected as soon
    as one is. *)
Definition Promise_all {A B : Type} (p : Promise A) (q : Promise B) : Promise (A * B) :=
  match p, q with
  | Settled (Throws e), _ => Settled (Throws e)
  | _, Settled (Throws e) => Settled (Throws e)
  | Settled (Returns a), Settled (Returns b) => Settled (Returns (a, b))
  | _, _ => Pending
  end.

(** One run of [loadPageData]: the two requests it issued and whether the
    code after the [await] has run. *)
Record Load : Type := {
  load_id : string;
  blocksData : Promise (list NotionBlock);
  detailsData : Promise (option Page.t);
  resumed : bool
}.

(** The component: its state, every run of [loadPageData] started so far,
    and every state it has gone through, oldest first. *)
Record Orchestrator : Type := {
  view : ViewState;
  loads : list Load;
  frames : list ViewState
}.

Definition Orchestrator_initial : Orchestrator :=
  {| view := initial_view; loads := []; frames := [initial_view] |}.

(** The state updates of [loadPageData] that follow the [await], each giving
    a new state: the rest of the [try] block when [Promise.all] fulfils, the
    [catch] block (which only logs) when it rejects, then
    [setLoading(false)]. *)
Definition after_await (outcome : JsResult (list NotionBlock * option Page.t))
    (st : ViewState) : list ViewState :=
  match outcome with
  | Returns (blocksData, detailsData) =>
      let s1 := setBlocks blocksData st in
      let s2 := setPageDetails detailsData s1 in
      let s3 := setLoading false s2 in
      [s1; s2; s3]
  | Throws _ =>
      [setLoading false st]
  end.

(** [loadPageData], given what the awaited [Promise.all] settles to: the
    states the component goes through, in order. *)
Definition loadPageData (awaited : JsResult (list NotionBlock * option Page.t))
    (st : ViewState) : list ViewState :=
  let s0 := setLoading true st in
  s0 :: after_await awaited s0.

Fixpoint replace_nth {A : Type} (k : nat) (x : A) (l : list A) {struct l} : list A :=
  match l with
  | [] => []
  | a :: l' =>
      match k with
      | O => x :: l'
      | S k' => a :: replace_nth k' x l'
      end
  end.

(** A request of run [k] has settled: resume the run if [Promise.all] has
    just settled. *)
Definition deliver (k : nat) (l : Load) (o : Orchestrator) : Orchestrator :=
  if resumed l then
    {| view := view o; loads := replace_nth k l (loads o); frames := frames o |}
  else
    match Promise_all (blocksData l) (detailsData l) with
    | Pending =>
        {| view := view o; loads := replace_nth k l (loads o); frames := frames o |}
    | Settled outcome =>
        let states := after_await outcome (view o) in
        {| view := last states (view o);
           loads := replace_nth k
                      {| load_id := load_id l; blocksData := blocksData l;
                         detailsData := detailsData l; resumed := true |}
                      (loads o);
           frames := frames o ++ states |}
    end.

Inductive Event : Type :=
| ChangeId (article_id : string)
| BlocksSettle (k : nat) (r : JsResult (list NotionBlock))
| DetailsSettle (k : nat) (r : JsResult (option Page.t)).

(** [ChangeId] is the effect on [article.id]: [setLoading(true)], then both
    requests are issued, then the run waits. *)
Definition step (ev : Event) (o : Orchestrator) : Orchestrator :=
  match ev with
  | ChangeId article_id =>
      let st := setLoading true (view o) in
      {| view := st;
         loads := loads o ++ [ {| load_id := article_id; blocksData := Pending;
                                  detailsData := Pending; resumed := false |} ];
         frames := frames o ++ [st] |}
  | BlocksSettle k r =>
      match nth_error (loads o) k with
      | Some l =>
          match blocksData l with
          | Pending =>
              deliver k {| load_id := load_id l; blocksData := Settled r;
                           detailsData := detailsData l; resumed := resumed l |} o
          | Settled _ => o
          end
      | None => o
      end
  | DetailsSettle k r =>
      match nth_error (loads o) k with
      | Some l =>
          match detailsData l with
          | Pending =>
              deliver k {| load_id := load_id l; blocksData := blocksData l;
                           detailsData := Settled r; resumed := resumed l |} o
          | Settled _ => o
          end
      | None => o
      end
  end.

Definition run (evs : list Event) (o : Orchestrator) : Orchestrator :=
  fold_left (fun acc ev => step ev acc) evs o.

(** *** The navigator *)

Record IntersectionObserverEntry : Type := {
  isIntersecting : bool;
  target_id : string
}.

(** The callback of the [IntersectionObserver]. *)
Definition observer_callback (entries : list IntersectionObserverEntry) (st : ViewState)
    : ViewState :=
  fold_left (fun acc entry =>
               if isIntersecting entry then setActiveSection (target_id entry) acc else acc)
            entries st.

(** The document as [scrollToHeading] reads it: the top of the bounding
    rectangle of the element with a given id, if there is one, and the
    vertical scroll offset of the window (in whole pixels). *)
Record Document : Type := {
  getElementById : string -> option Z;
  pageYOffset : Z
}.

(** [scrollToHeading]: the new state and the position scrolled to, if any. *)
Definition scrollToHeading (doc : Document) (heading_id : string) (st : ViewState)
    : ViewState * option Z :=
  match getElementById doc heading_id with
  | Some top =>
      let offset := 120%Z in
      let elementPosition := (top + pageYOffset doc)%Z in
      (setActiveSection heading_id st, Some (elementPosition - offset)%Z)
  | None => (st, None)
  end.

Inductive NavEvent : Type :=
| Observed (entries : list IntersectionObserverEntry)
| Clicked (doc : Document) (heading_id : string).

Definition nav_step (ev : NavEvent) (st : ViewState) : ViewState :=
  match ev with
  | Observed entries => observer_callback entries st
  | Clicked doc heading_id => fst (scrollToHeading doc heading_id st)
  end.

(** The anchor identifiers an event can make active. *)
Definition named_by (ev : NavEvent) : list string :=
  match ev with
  | Observed entries => map target_id (filter isIntersecting entries)
  | Clicked _ heading_id => [heading_id]
  end.

(** The states the navigator can reach from a state. *)
Inductive nav_reachable (st0 : ViewState) : ViewState -> Prop :=
| nav_start : nav_reachable st0 st0
| nav_next : forall st ev, nav_reachable st0 st -> nav_reachable st0 (nav_step ev st).

(** The entry of the table of contents for a heading is shown as active. *)
Definition is_active (st : ViewState) (h : Heading.t) : bool :=
  String.eqb (activeSection st) (Heading.id h).

(** The part of the class of a button of the table of contents that depends
    on the state. *)
Definition toc_button_className (st : ViewState) (h : Heading.t) : string :=
  if is_active st h then "bg-ink text-paper" else "text-subtle/50 hover:text-ink".

(* ===================================================================== *)
(** ** The simpler variant of the component  (src/unnamed/part_000)       *)
(* ===================================================================== *)

(** The repository holds a second, simpler copy of the component.  The
    specification takes the richer one above as the design; the three places
    where the simpler copy behaves differently are embedded here
    for comparison. *)
Module Legacy.

(** part_000, lines 45-67 *)
Definition span_style (a : Annotations) : Style :=
  [ ("fontWeight", if bold a then "bold" else "normal");
    ("fontStyle", if italic a then "italic" else "normal");
    ("textDecoration", if underline a then "underline" else "none") ]
  ++ (if negb (String.eqb (color a) "default") then [("color", color a)] else []).

Definition renderSpan (i : nat) (t : RichText) : Node :=
  let a := annotations t in
  let style := span_style a in
  if code a then
    NElem "code"
      [("key", AIdx i); className "bg-black/5 dark:bg-white/10 px-1.5 py-0.5 rounded text-sm font-mono"]
      [NText (content (text t))]
  else if truthy_opt (href t) then
    NElem "a" [ ("key", AIdx i); ("href", AStr (match href t with Some h => h | None => "" end));
                ("target", AStr "_blank"); ("rel", AStr "noopener noreferrer");
                className "text-blue-500 hover:underline"; ("style", AStyle style) ]
          [NText (content (text t))]
  else NElem "span" [("key", AIdx i); ("style", AStyle style)] [NText (content (text t))].

Definition renderRichText (richText : option (list RichText)) : option (list Node) :=
  match richText with
  | None => None
  | Some spans => Some (mapi renderSpan spans)
  end.

(** part_000, lines 159-163: the top-level blocks only, and no test on the
    text. *)
Definition headings (blocks : list NotionBlock) : JsResult (list Heading.t) :=
  mapM (fun b =>
          match data b with
          | None => Throws "TypeError: b[b.type] is undefined"
          | Some d =>
              text <- plain_text_of (Data.rich_text d) ;;
              Returns {| Heading.id := id b;
                         Heading.text := text;
                         Heading.level := parseInt_at (split "_" (type b)) 1 |}
          end)
       (filter (fun b => startsWith (type b) "heading_") blocks).

(** part_000, lines 19-36 *)
Definition compile (lib : MermaidLib) (dark : bool) (rnd chart : string) : JsResult string :=
  _ <- initialize lib {| startOnLoad := false;
                         theme := if dark then "dark" else "default";
                         securityLevel := "loose";
                         fontFamily := None |} ;;
  let id := ("mermaid-" ++ rnd)%string in
  svg <- render lib id chart ;;
  Returns svg.

Definition renderChart (lib : MermaidLib) (dark : bool) (rnd chart : string)
    (st : MermaidState) : MermaidState :=
  if ref_current st then
    match compile lib dark rnd chart with
    | Returns svg =>
        {| error := None;
           innerHTML := if ref_current st then svg else innerHTML st |}
    | Throws _ =>
        {| error := Some "Failed to render diagram"; innerHTML := innerHTML st |}
    end
  else st.

End Legacy.

(* ===================================================================== *)
(** ** Sample documents                                                   *)
(* ===================================================================== *)

Definition no_annotations : Annotations :=
  {| bold := false; italic := false; strikethrough := false; underline := false;
     code := false; color := "default" |}.

(** A span of unstyled text. *)
Definition plain (s : string) : RichText :=
  {| annotations := no_annotations; text := {| content := s |};
     plain_text := s; href := None |}.

(** A payload that carries rich text and nothing else. *)
Definition payload (spans : list RichText) : Data.t :=
  Data.mk (Some spans) false None None None None None None None.

Definition text_block (block_id kind : string) (spans : list RichText)
    (nested : option (list NotionBlock)) : NotionBlock :=
  mkBlock block_id kind (Some (payload spans)) nested.

(** A page whose second heading has no text. *)
Definition untitled_page : list NotionBlock :=
  [ text_block "h1" "heading_1" [plain "Intro"] None;
    text_block "h2" "heading_2" [] None ].

(** A heading under a toggle under a column, between two top-level
    headings; the toggle also holds a heading without text that has a
    heading of its own as a child. *)
Definition nested_page : list NotionBlock :=
  [ text_block "h1" "heading_1" [plain "Intro"] None;
    text_block "p1" "paragraph" [plain "hello"] None;
    mkBlock "cl" "column_list" (Some (Data.mk None false None None None None None None None))
      (Some [ mkBlock "c1" "column" (Some (Data.mk None false None None None None None None None))
                (Some [ text_block "tg" "toggle" [plain "more"]
                          (Some [ text_block "h3" "heading_3" [plain "De"; plain "ep"] None;
                                  text_block "h0" "heading_2" []
                                    (Some [text_block "h4" "heading_2" [plain "Inner"] None]) ]) ]) ]);
    text_block "h2" "heading_2" [plain "Details"] None ].

(** An underlined, struck-through span of inline code, without a link. *)
Definition struck_underlined_code : RichText :=
  {| annotations := {| bold := false; italic := false; strikethrough := true;
                       underline := true; code := true; color := "default" |};
     text := {| content := "x" |}; plain_text := "x"; href := None |}.

(** A bold span of inline code that links somewhere. *)
Definition bold_code_link : RichText :=
  {| annotations := {| bold := true; italic := false; strikethrough := false;
                       underline := false; code := true; color := "default" |};
     text := {| content := "npm i" |}; plain_text := "npm i";
     href := Some "https://example.org/" |}.

(** An underlined, struck-through span of ordinary text. *)
Definition struck_underlined : RichText :=
  {| annotations := {| bold := false; italic := false; strikethrough := true;
                       underline := true; code := false; color := "default" |};
     text := {| content := "y" |}; plain_text := "y"; href := None |}.

(** A diagram block, a source-code block and a paragraph. *)
Definition code_payload (lang : string) (source : list RichText) : Data.t :=
  Data.mk (Some source) false (Some lang) None None None None None None.

Definition diagram_block : NotionBlock :=
  mkBlock "d1" "code" (Some (code_payload "mermaid" [plain "graph TD; "; plain "A-->"])) None.

Definition listing_block : NotionBlock :=
  mkBlock "c1" "code" (Some (code_payload "typescript" [plain "let x = 1;"])) None.

Definition diagram_page : list NotionBlock :=
  [ text_block "p1" "paragraph" [plain "before"] None;
    diagram_block;
    text_block "p2" "paragraph" [plain "after"] None ].

(** A diagram library whose compiler rejects every description. *)
Definition rejecting_mermaid : MermaidLib :=
  {| initialize := fun _ => Returns tt;
     render := fun _ _ => Throws "Parse error on line 1" |}.

Definition light_browser : Browser :=
  {| dark := false; random := fun _ => "k3x9q0z1a" |}.

(** A document in which only the anchor [h2] is mounted, 640 pixels below
    the top of the viewport, with the window scrolled by 300 pixels. *)
Definition sample_document : Document :=
  {| getElementById := fun i => if String.eqb i "h2" then Some 640%Z else None;
     pageYOffset := 300%Z |}.

(** Two anchors enter the band in one callback, then the reader clicks. *)
Definition sample_navigation : list NavEvent :=
  [ Observed [ {| isIntersecting := true; target_id := "h1" |};
               {| isIntersecting := false; target_id := "h2" |};
               {| isIntersecting := true; target_id := "h3" |} ];
    Clicked sample_document "h2";
    Clicked sample_document "gone" ].

(** An environment whose key is the placeholder of the sample [.env] file,
    and a network that is down. *)
Definition placeholder_env : Env :=
  {| VITE_NOTION_API_KEY := Some "YOUR_PLACEHOLDER_KEY" |}.

Definition keyed_env : Env :=
  {| VITE_NOTION_API_KEY := Some "secret_abc" |}.

Definition network_down {B : Type} (_ : Request) : JsResult (Response B) :=
  Throws "TypeError: Failed to fetch".

Definition forbidden {B : Type} (_ : Request) : JsResult (Response B) :=
  Returns {| ok := false; json := Returns None |}.

Definition garbled {B : Type} (_ : Request) : JsResult (Response B) :=
  Returns {| ok := true; json := Throws "SyntaxError: Unexpected token <" |}.

(* ===================================================================== *)
(** ** The labeled monospace block, in the words of the specification     *)
(* ===================================================================== *)

(** A fragment is a labeled monospace block for [tag] and [code] when it is
    one element holding, in this order, a label whose text is the language
    tag (nothing when there is none) and a [pre] element in a monospace font
    whose single [code] element shows exactly [code]. *)
Definition labeled_monospace_block (tag : option string) (code : string) (n : Node) : Prop :=
  exists root_attrs label_attrs label pre_attrs pre_class,
    n = NElem "div" root_attrs
          [ NElem "div" label_attrs [label];
            NElem "pre" pre_attrs [NElem "code" [] [NText code]] ]
    /\ node_text label = match tag with Some t => t | None => "" end
    /\ attr_get "className" pre_attrs = Some (AStr pre_class)
    /\ includes pre_class "font-mono" = true.

(** The diagram instances of a fragment, by their descriptions. *)
Fixpoint node_diagrams (n : Node) : list string :=
  match n with
  | NMermaid chart => [chart]
  | NElem _ _ cs => flat_map node_diagrams cs
  | NFrag items => flat_map node_diagrams items
  | NKeyed _ child => node_diagrams child
  | NNull | NText _ | NIcon _ _ | NRawHtml _ => []
  end.

(* ===================================================================== *)
(** ** Notions used to state further properties                           *)
(* ===================================================================== *)

(** [k] is one of [kinds]. *)
Definition kind_in (k : string) (kinds : list string) : bool :=
  existsb (String.eqb k) kinds.

(** The kinds whose case of the renderer renders the children. *)
Definition nesting_kinds : list string :=
  [ "paragraph"; "bulleted_list_item"; "numbered_list_item"; "toggle";
    "column_list"; "column"; "quote"; "callout"; "synced_block" ].

(** The kinds whose case of the renderer never looks at the children. *)
Definition flat_kinds : list string :=
  [ "heading_1"; "heading_2"; "heading_3"; "to_do"; "code"; "image"; "file";
    "video"; "pdf"; "divider" ].

(** The kinds whose element carries the block identifier as its [id]. *)
Definition anchor_kinds : list string := ["heading_1"; "heading_2"; "heading_3"].

(** The media kinds. *)
Definition media_kinds : list string := ["image"; "file"; "video"; "pdf"].

(** The [id] attributes of the elements of a fragment, in document order:
    what [document.getElementById] can find in it. *)
Fixpoint node_anchors (n : Node) : list string :=
  match n with
  | NElem _ attrs cs =>
      match attr_get "id" attrs with
      | Some (AStr i) => [i]
      | _ => []
      end ++ flat_map node_anchors cs
  | NFrag items => flat_map node_anchors items
  | NKeyed _ child => node_anchors child
  | NNull | NText _ | NMermaid _ | NIcon _ _ | NRawHtml _ => []
  end.

(** The blocks of a tree that the renderer reaches, in rendering order: a
    block without payload is skipped with all below it, and only the nesting
    kinds pass on to their children. *)
Fixpoint rendered_blocks (b : NotionBlock) : list NotionBlock :=
  match data b with
  | None => []
  | Some _ =>
      b :: if kind_in (type b) nesting_kinds
           then match children b with
                | Some cs => flat_map rendered_blocks cs
                | None => []
                end
           else []
  end.

(** The identifiers that end up as anchors when a block is rendered. *)
Definition anchors_of (b : NotionBlock) : list string :=
  map id (filter (fun x => kind_in (type x) anchor_kinds) (rendered_blocks b)).

(** A media payload that says [external] or [file] carries the matching
    reference. *)
Definition media_resolvable (d : Data.t) : bool :=
  if opt_is (Data.type d) "external"
  then match Data.external d with Some _ => true | None => false end
  else if opt_is (Data.type d) "file"
  then match Data.file d with Some _ => true | None => false end
  else true.

(** A block the renderer can render without a [TypeError]: a code block
    carries its rich text, and the payload of a media block is resolvable. *)
Definition well_shaped (b : NotionBlock) : bool :=
  match data b with
  | None => true
  | Some d =>
      (negb (String.eqb (type b) "code")
       || match Data.rich_text d with Some _ => true | None => false end)
      && (negb (kind_in (type b) media_kinds) || media_resolvable d)
  end.


(** Every block the renderer reaches is well shaped. *)
Definition all_well_shaped (b : NotionBlock) : bool :=
  forallb well_shaped (rendered_blocks b).

(** The attribute [name] of an element is the text [v]. *)
Definition attr_is (name v : string) (attrs : Attrs) : bool :=
  match attr_get name attrs with
  | Some (AStr s) => String.eqb s v
  | _ => false
  end.

(** Every link element of the fragment opens in a new browsing context and
    hides the opener. *)
Fixpoint links_safe (n : Node) : bool :=
  match n with
  | NElem tag attrs cs =>
      (if String.eqb tag "a"
       then attr_is "target" "_blank" attrs && attr_is "rel" "noopener noreferrer" attrs
       else true)
      && forallb links_safe cs
  | NFrag items => forallb links_safe items
  | NKeyed _ child => links_safe child
  | NNull | NText _ | NMermaid _ | NIcon _ _ | NRawHtml _ => true
  end.

(** The document that [scrollToHeading] sees when the content area holds
    the rendered [page]: [others] are the identifiers of the elements
    elsewhere in the document (the host page, the markup injected by the
    diagrams), and [top] gives the top of the bounding rectangle of an
    identified element.  [document.getElementById] finds no element by the
    empty identifier. *)
Definition document_of (others : list string) (page : list Node) (top : string -> Z)
    (scrolled : Z) : Document :=
  {| getElementById :=
       fun i => if truthy i
                   && (existsb (String.eqb i) others
                       || existsb (String.eqb i) (flat_map node_anchors page))
                then Some (top i) else None;
     pageYOffset := scrolled |}.

(** A page whose only heading has the empty identifier. *)
Definition unnamed_heading_page : list NotionBlock :=
  [ text_block "" "heading_1" [plain "Intro"] None ].

(** A paragraph with a link in it and an attached file. *)
Definition linked_page : list NotionBlock :=
  [ text_block "p1" "paragraph" [plain "see "; bold_code_link] None;
    mkBlock "f1" "file"
      (Some (Data.mk None false None (Some "external")
               (Some {| url := "https://example.org/a.pdf" |}) None None None None))
      None ].

(** An image block whose payload says it is hosted but carries no hosted
    file. *)
Definition broken_image : NotionBlock :=
  mkBlock "i1" "image"
    (Some (Data.mk None false None (Some "file") None None None None None)) None.

(** One run of the effect of a diagram instance: the library and the theme
    at that time, the random identifier drawn, and the description. *)
Record EffectRun : Type := {
  run_lib : MermaidLib;
  run_dark : bool;
  run_rnd : string;
  run_chart : string
}.

Definition run_outcome (r : EffectRun) : JsResult string :=
  compile (run_lib r) (run_dark r) (run_rnd r) (run_chart r).

(** The state of an instance after its effect has run for the first render
    and then once for each change of the description. *)
Definition Mermaid_lifetime (runs : list EffectRun) : MermaidState :=
  fold_left (fun st r => renderChart (run_lib r) (run_dark r) (run_rnd r) (run_chart r) st)
            runs Mermaid_initial.

Definition svg_of (r : EffectRun) : string :=
  match run_outcome r with
  | Returns svg => svg
  | Throws _ => ""
  end.

(** A library that compiles every description to the same picture. *)
Definition drawing_mermaid : MermaidLib :=
  {| initialize := fun _ => Returns tt;
     render := fun i _ => Returns ("<svg id=" ++ i ++ "/>")%string |}.

(** One diagram instance whose effect runs may overlap: the [error] state
    variable, and the runs of the effect that are suspended at the [await],
    oldest first. *)
Record Instance : Type := {
  notice : option string;
  waiting : list EffectRun
}.

Definition Instance_initial : Instance := {| notice := None; waiting := [] |}.

(** [Starts r]: the effect runs, on mount and after a change of the
    description.  [Settles k]: the render that the [k]-th suspended run
    awaits settles. *)
Inductive EffectEvent : Type :=
| Starts (r : EffectRun)
| Settles (k : nat).

(** What the awaited [mermaid.render] of a run settles to. *)
Definition awaited (r : EffectRun) : JsResult string :=
  render (run_lib r) ("mermaid-" ++ run_rnd r)%string (run_chart r).

Fixpoint resume_nth (k : nat) (runs : list EffectRun) {struct runs} : list EffectRun :=
  match runs with
  | [] => []
  | r :: runs' =>
      match k with
      | O => runs'
      | S k' => r :: resume_nth k' runs'
      end
  end.

(** A run that starts tests [ref.current], which is the container unless the
    component returned the notice, calls [mermaid.initialize] and suspends at
    the [await]; when the render settles the run goes on: [setError(null)]
    if it fulfilled, the [catch] block if it rejected. *)
Definition effect_step (ev : EffectEvent) (s : Instance) : Instance :=
  match ev with
  | Starts r =>
      if negb (truthy_opt (notice s)) then
        match initialize (run_lib r)
                {| startOnLoad := false;
                   theme := if run_dark r then "dark" else "neutral";
                   securityLevel := "loose";
                   fontFamily := Some "Inter, sans-serif" |} with
        | Returns _ => {| notice := notice s; waiting := waiting s ++ [r] |}
        | Throws _ =>
            {| notice := Some "Diagram preview unavailable"; waiting := waiting s |}
        end
      else s
  | Settles k =>
      match nth_error (waiting s) k with
      | Some r =>
          {| notice := match awaited r with
                       | Returns _ => None
                       | Throws _ => Some "Diagram preview unavailable"
                       end;
             waiting := resume_nth k (waiting s) |}
      | None => s
      end
  end.

Definition effect_run (evs : list EffectEvent) (s : Instance) : Instance :=
  fold_left (fun acc ev => effect_step ev acc) evs s.

(** The events of runs none of which starts before the one before it has
    settled. *)
Definition one_at_a_time (runs : list EffectRun) : list EffectEvent :=
  flat_map (fun r => [Starts r; Settles 0]) runs.

(** A description that compiles is changed, before its render has settled,
    to one that does not; the second render settles first. *)
Definition overtaken_run : list EffectEvent :=
  [ Starts {| run_lib := drawing_mermaid; run_dark := false; run_rnd := "a";
              run_chart := "graph TD" |};
    Starts {| run_lib := rejecting_mermaid; run_dark := false; run_rnd := "b";
              run_chart := "graph" |};
    Settles 1 ].

(** Every heading block of the tree carries rich text, as a test. *)
Definition headings_have_textb (blocks : list NotionBlock) : bool :=
  forallb (fun b => negb (is_heading b)
                    || match spans_of b with Some _ => true | None => false end)
          (preorder_all blocks).

(** A block without nested blocks. *)
Definition childless (b : NotionBlock) : bool :=
  match children b with
  | None | Some [] => true
  | Some (_ :: _) => false
  end.

(** A description that compiles, is then changed to one that does not, and
    is changed back. *)
Definition drawn_rejected_redrawn : list EffectRun :=
  [ {| run_lib := drawing_mermaid; run_dark := false; run_rnd := "a"; run_chart := "graph TD" |};
    {| run_lib := rejecting_mermaid; run_dark := false; run_rnd := "b"; run_chart := "graph" |};
    {| run_lib := drawing_mermaid; run_dark := false; run_rnd := "c"; run_chart := "graph TD" |} ].

Definition drawn_twice : list EffectRun :=
  [ {| run_lib := drawing_mermaid; run_dark := false; run_rnd := "a"; run_chart := "graph TD" |};
    {| run_lib := drawing_mermaid; run_dark := true; run_rnd := "c"; run_chart := "graph LR" |} ].

(** The page of the scenario of the specification: two headings around a
    paragraph, nothing nested. *)
Definition flat_page : list NotionBlock :=
  [ text_block "h1" "heading_1" [plain "Intro"] None;
    text_block "p" "paragraph" [plain "hello"] None;
    text_block "h2" "heading_2" [plain "Details"] None ].

(** The block-tree fetch ends in one of its failure modes: unusable key,
    thrown request, response that is not OK, body that does not parse or
    parses to [null]. *)
Definition blocks_fetch_fails (env : Env) (fetch : Request -> JsResult (Response BlocksBody))
    (blockId : string) : bool :=
  key_unusable (VITE_NOTION_API_KEY env)
  || match fetch (blocks_request env blockId) with
     | Throws _ => true
     | Returns response =>
         negb (ok response)
         || match json response with
            | Returns (Some _) => false
            | Returns None | Throws _ => true
            end
     end.

(* ===================================================================== *)
(** ** The rest of the content client  (notionService.ts)                 *)
(* ===================================================================== *)

(** A JSON value, as far as the request bodies need it. *)
#[local] Unset Elimination Schemes.

Inductive Json : Type :=
| JNull
| JString (s : string)
| JNumber (z : Z)
| JArray (items : list Json)
| JObject (fields : list (string * Json)).

#[local] Set Elimination Schemes.

(** A request with a body; [post_body] is the value handed to
    [JSON.stringify]. *)
Record PostRequest : Type := {
  post_url : string;
  post_method : string;
  post_headers : list (string * string);
  post_body : Json
}.

(** The parsed body of a database query: an object whose [results] may be
    absent. *)
Record QueryBody : Type := { q_results : option (list Page.t) }.

(** The response to a database query: [q_text] and [q_json] read the body;
    [q_json] throws when the body does not parse and yields [None] when it
    parses to [null]. *)
Record QueryResponse : Type := {
  q_ok : bool;
  q_text : JsResult string;
  q_json : JsResult (option QueryBody)
}.

(** A template literal prints an [undefined] value as that word. *)
Definition template_of (o : option string) : string :=
  match o with
  | Some s => s
  | None => "undefined"
  end.

Definition query_headers (apiKey : option string) : list (string * string) :=
  [ ("Authorization", ("Bearer " ++ template_of apiKey)%string);
    ("Content-Type", "application/json");
    ("Notion-Version", NOTION_VERSION) ].

(** The request of [searchNotionDatabase]; [dbId] is
    [import.meta.env.VITE_NOTION_DB_ID]. *)
Definition search_request (env : Env) (dbId : option string) (query : string) : PostRequest :=
  {| post_url := ("/api/notion/databases/" ++ template_of dbId ++ "/query")%string;
     post_method := "POST";
     post_headers := query_headers (VITE_NOTION_API_KEY env);
     post_body :=
       JObject [ ("filter",
                  JObject [ ("or",
                             JArray [ JObject [ ("property", JString "Name");
                                                ("title", JObject [("contains", JString query)]) ] ]) ]);
                 ("page_size", JNumber 50) ] |}.

(** [searchNotionDatabase]; the result is [None] when the function returns
    [undefined], the [results] of a body that has none. *)
Definition searchNotionDatabase (env : Env) (dbId : option string)
    (fetch : PostRequest -> JsResult QueryResponse) (query : string)
    : JsResult (option (list Page.t)) :=
  let apiKey := VITE_NOTION_API_KEY env in
  if key_unusable apiKey then Returns (Some [])
  else
    try_catch
      (response <- fetch (search_request env dbId query) ;;
       if negb (q_ok response) then
         _ <- q_text response ;;
         Returns (Some [])
       else
         data <- q_json response ;;
         match data with
         | Some body => Returns (q_results body)
         | None => Throws "TypeError: data is null"
         end)
      (fun _ => Returns (Some [])).

(** The request of [getDatabaseStats]. *)
Definition stats_request (env : Env) (dbId : option string) : PostRequest :=
  {| post_url := ("/api/notion/databases/" ++ template_of dbId ++ "/query")%string;
     post_method := "POST";
     post_headers := query_headers (VITE_NOTION_API_KEY env);
     post_body := JObject [("page_size", JNumber 100)] |}.

(** [getDatabaseStats]: the [count] of the object it returns. *)
Definition getDatabaseStats (env : Env) (dbId : option string)
    (fetch : PostRequest -> JsResult QueryResponse) : JsResult nat :=
  let apiKey := VITE_NOTION_API_KEY env in
  if key_unusable apiKey then Returns 0
  else
    try_catch
      (response <- fetch (stats_request env dbId) ;;
       if negb (q_ok response) then Returns 0
       else
         data <- q_json response ;;
         match data with
         | Some body =>
             match q_results body with
             | Some results => Returns (List.length results)
             | None => Throws "TypeError: data.results is undefined"
             end
         | None => Throws "TypeError: data is null"
         end)
      (fun _ => Returns 0).

(** Two line feeds. *)
Definition blank_line : string := bytes [10; 10].

(** The block fetch and the text export on bodies as they arrive: the
    parsed body is an object whose [results] may be absent, and
    [getPageBlocks] hands on whatever [data.results] is. *)
Module Untyped.

Record BlocksBody : Type := { results : option (list NotionBlock) }.

(** [getPageBlocks]; the result is [None] when the function returns
    [undefined], the [results] of a body that has none. *)
Definition getPageBlocks (env : Env) (fetch : Request -> JsResult (Response BlocksBody))
    (blockId : string) : JsResult (option (list NotionBlock)) :=
  let apiKey := VITE_NOTION_API_KEY env in
  if key_unusable apiKey then Returns (Some [])
  else
    try_catch
      (response <- fetch {| req_url := ("/api/notion/blocks/" ++ blockId ++ "/children?page_size=100")%string;
                            req_method := "GET";
                            req_headers := auth_headers apiKey |} ;;
       if negb (ok response) then Returns (Some [])
       else
         data <- json response ;;
         match data with
         | Some body => Returns (results body)
         | None => Throws "TypeError: data is null"
         end)
      (fun _ => Returns (Some [])).

(** [getPageContent]: [blocks.map] is called outside any [try]. *)
Definition getPageContent (env : Env) (fetch : Request -> JsResult (Response BlocksBody))
    (pageId : string) : JsResult string :=
  blocks <- getPageBlocks env fetch pageId ;;
  match blocks with
  | Some fetched =>
      Returns (join blank_line
                 (map (fun block =>
                         match data block with
                         | Some d =>
                             match Data.rich_text d with
                             | Some spans => join "" (map plain_text spans)
                             | None => ""
                             end
                         | None => ""
                         end) fetched))
  | None => Throws "TypeError: blocks is undefined"
  end.

(** The body the block fetch obtains: none without a usable key, when the
    request is rejected, when the answer is not OK and when the body does not
    parse or parses to [null]. *)
Definition fetched_body (env : Env) (fetch : Request -> JsResult (Response BlocksBody))
    (blockId : string) : option BlocksBody :=
  if key_unusable (VITE_NOTION_API_KEY env) then None
  else match fetch (blocks_request env blockId) with
       | Throws _ => None
       | Returns response =>
           if ok response
           then match json response with
                | Returns (Some body) => Some body
                | Returns None | Throws _ => None
                end
           else None
       end.

End Untyped.

(** A response whose body has the declared type, as it arrives. *)
Definition as_it_arrives (r : Response BlocksBody) : Response Untyped.BlocksBody :=
  {| ok := ok r;
     json := body <- json r ;;
             Returns (option_map (fun b => {| Untyped.results := Some (results b) |}) body) |}.

(** A body that arrives without [results]. *)
Definition without_results (_ : Request) : JsResult (Response Untyped.BlocksBody) :=
  Returns {| ok := true; json := Returns (Some {| Untyped.results := None |}) |}.

(** The body a database query obtains: none without a usable key, when the
    request is rejected, when the answer is not OK and when the body does not
    parse or parses to [null]. *)
Definition query_body (env : Env) (request : PostRequest)
    (fetch : PostRequest -> JsResult QueryResponse) : option QueryBody :=
  if key_unusable (VITE_NOTION_API_KEY env) then None
  else match fetch request with
       | Throws _ => None
       | Returns response =>
           if q_ok response
           then match q_json response with
                | Returns (Some body) => Some body
                | Returns None | Throws _ => None
                end
           else None
       end.

(* ===================================================================== *)
(** ** The development proxy  (vite.config.ts, lines 11-21)               *)
(* ===================================================================== *)

(** [path.replace(/^\/api\/notion/, '')] *)
Definition proxy_rewrite (path : string) : string :=
  match drop_prefix "/api/notion" path with
  | Some rest => rest
  | None => path
  end.

Definition proxy_target : string := "https://api.notion.com/v1".

(* ===================================================================== *)
(** ** The relay endpoint  (api/notion.ts)                                *)
(* ===================================================================== *)

(** [s] is white space only. *)
Definition blank (s : string) : bool :=
  negb (truthy (skip_ws (String.length s) s)).

(** [s.trimEnd()] *)
Fixpoint trimEnd (s : string) : string :=
  match s with
  | EmptyString => EmptyString
  | String c s' => if blank s then EmptyString else String c (trimEnd s')
  end.

(** [s.trim()] *)
Definition trim (s : string) : string := trimEnd (skip_ws (String.length s) s).

(** The incoming request: the [path] query parameter, the method and the
    parsed body. *)
Record VercelRequest : Type := {
  query_path : string;
  http_method : option string;
  http_body : option Json
}.

(** The request forwarded upstream; [up_body] is the value handed to
    [JSON.stringify], absent for a [GET] and when the incoming request has
    no body. *)
Record UpstreamRequest : Type := {
  up_url : string;
  up_method : option string;
  up_headers : list (string * string);
  up_body : option Json
}.

Record UpstreamResponse : Type := {
  up_status : nat;
  up_json : JsResult Json
}.

(** What the handler answers: [res.status(code).json(data)]. *)
Record VercelResponse : Type := {
  status_code : nat;
  json_body : Json
}.

Definition upstream_request (apiKey : string) (req : VercelRequest) : UpstreamRequest :=
  {| up_url := ("https://api.notion.com/v1/" ++ query_path req)%string;
     up_method := http_method req;
     up_headers := [ ("Authorization", ("Bearer " ++ trim apiKey)%string);
                     ("Notion-Version", "2022-06-28");
                     ("Content-Type", "application/json") ];
     up_body := if opt_is (http_method req) "GET" then None else http_body req |}.

(** [handler]; [apiKey] is [process.env.VITE_NOTION_API_KEY] and [fetch] the
    upstream service. *)
Definition handler (apiKey : option string)
    (fetch : UpstreamRequest -> JsResult UpstreamResponse) (req : VercelRequest)
    : VercelResponse :=
  match apiKey with
  | Some key =>
      if truthy key then
        match (response <- fetch (upstream_request key req) ;;
               data <- up_json response ;;
               Returns {| status_code := up_status response; json_body := data |}) with
        | Returns answer => answer
        | Throws message =>
            {| status_code := 500; json_body := JObject [("error", JString message)] |}
        end
      else {| status_code := 500;
              json_body := JObject [("error", JString "Missing Notion API Key in environment")] |}
  | None => {| status_code := 500;
               json_body := JObject [("error", JString "Missing Notion API Key in environment")] |}
  end.

(* ===================================================================== *)
(** ** Invariants of the renderer, the extractor and the orchestrator    *)
(* ===================================================================== *)

(** Rendering [c] gives a fragment whose anchors are those of [c]. *)
Definition anchors_known (c : NotionBlock) : Prop :=
  forall n, NotionBlockRenderer c = Returns n -> node_anchors n = anchors_of c.

(** Rendering [c] throws exactly when a block it reaches is ill shaped. *)
Definition throws_known (c : NotionBlock) : Prop :=
  throws (NotionBlockRenderer c) = negb (all_well_shaped c).

(** Every link of the fragment that [c] renders to is safe. *)
Definition links_known (c : NotionBlock) : Prop :=
  forall n, NotionBlockRenderer c = Returns n -> links_safe n = true.

(** A heading block carries rich text. *)
Definition has_text (b : NotionBlock) : Prop := is_heading b = true -> spans_of b <> None.

(** A run of [loadPageData] that has just sent its two requests. *)
Definition fresh_load (article_id : string) : Load :=
  {| load_id := article_id; blocksData := Pending; detailsData := Pending; resumed := false |}.

(* ===================================================================== *)
(** ** Loads that do not overlap                                          *)
(* ===================================================================== *)

(** An event that is neither a change of the content identifier nor a
    rejected request. *)
Definition quiet (ev : Event) : bool :=
  match ev with
  | ChangeId _ => false
  | BlocksSettle _ (Throws _) | DetailsSettle _ (Throws _) => false
  | BlocksSettle _ (Returns _) | DetailsSettle _ (Returns _) => true
  end.

(** What the two requests of a run have been fulfilled with, once both
    have. *)
Definition both_fulfilled (l : Load) : option (list NotionBlock * option Page.t) :=
  match blocksData l, detailsData l with
  | Settled (Returns b), Settled (Returns d) => Some (b, d)
  | _, _ => None
  end.

(** One of the two requests of the run has rejected. *)
Definition rejected (l : Load) : bool :=
  match blocksData l, detailsData l with
  | Settled (Throws _), _ | _, Settled (Throws _) => true
  | _, _ => false
  end.

(** The claim as it is stated, for every change of the identifier: as long
    as a run has not gone past its [await], the loading flag is set. *)
Definition flag_waits_for_every_load (o : Orchestrator) : bool :=
  forallb (fun l => resumed l || loading (view o)) (loads o).

Definition old_details : option Page.t := Some (Page.mk "old" "https://example.org/old" None None).

(** The identifier changes twice in a row, and the requests of the first
    load are answered while those of the second are still pending. *)
Definition overlapped_loads : list Event :=
  [ ChangeId "old"; ChangeId "new";
    BlocksSettle 0 (Returns flat_page); DetailsSettle 0 (Returns old_details) ].

(** The state of the orchestrator while the run started last is alone: the
    earlier runs have all gone past their [await], and the view and the
    frames are those of the run's start until both of its requests are
    fulfilled. *)
Definition lone_load (o : Orchestrator) (article_id : string) (o' : Orchestrator) : Prop :=
  exists earlier l,
    loads o' = earlier ++ [l]
    /\ List.length earlier = List.length (loads o)
    /\ forallb resumed earlier = true
    /\ load_id l = article_id
    /\ rejected l = false
    /\ match both_fulfilled l with
       | Some (b, d) =>
           resumed l = true
           /\ view o' = {| blocks := b; pageDetails := d; loading := false;
                           activeSection := activeSection (view o) |}
           /\ frames o' = frames o ++ loadPageData (Returns (b, d)) (view o)
       | None =>
           resumed l = false
           /\ view o' = setLoading true (view o)
           /\ frames o' = frames o ++ [setLoading true (view o)]
       end.

(** The first page loaded and shown, with no load waiting. *)
Definition old_page_shown : Orchestrator :=
  run [ ChangeId "old";
        BlocksSettle 0 (Returns flat_page); DetailsSettle 0 (Returns old_details) ]
      Orchestrator_initial.

(* ===================================================================== *)
(** * Properties                                                          *)
(* ===================================================================== *)

(** ** The error monad *)

Lemma mapM_cons {A B : Type} (f : A -> JsResult B) (a : A) (l : list A) :
  mapM f (a :: l) = (b <- f a ;; bs <- mapM f l ;; Returns (b :: bs)).
Proof. reflexivity. Qed.

Lemma mapM_app {A B : Type} (f : A -> JsResult B) (l1 l2 : list A) :
  mapM f (l1 ++ l2) = (r1 <- mapM f l1 ;; r2 <- mapM f l2 ;; Returns (r1 ++ r2)).
Proof.
  induction l1 as [| a l1 IH]; simpl.
  - destruct (mapM f l2); reflexivity.
  - destruct (f a) as [b | e]; simpl; [| reflexivity].
    rewrite IH. destruct (mapM f l1) as [r1 | e]; simpl; [| reflexivity].
    destruct (mapM f l2); reflexivity.
Qed.

Lemma mapi_from_length {A B : Type} (f : nat -> A -> B) (l : list A) :
  forall i, List.length (mapi_from f i l) = List.length l.
Proof.
  induction l as [| a l IH]; intros i; simpl; [reflexivity | now rewrite IH].
Qed.

Lemma mapi_from_nth {A B : Type} (f : nat -> A -> B) (l : list A) :
  forall i j a, nth_error l j = Some a -> nth_error (mapi_from f i l) j = Some (f (i + j) a).
Proof.
  induction l as [| x l IH]; intros i j a H.
  - destruct j; discriminate.
  - destruct j as [| j]; simpl in *.
    + injection H as ->. now rewrite Nat.add_0_r.
    + rewrite (IH (S i) j a H). f_equal. f_equal. lia.
Qed.

(** ** The heading extractor *)

Lemma scan_item_unfold (b : NotionBlock) (extracted : list Heading.t) :
  scan_item b extracted =
  (extracted1 <- own_heading b extracted ;;
   match children b with
   | Some cs => scan cs extracted1
   | None => Returns extracted1
   end).
Proof. destruct b; reflexivity. Qed.

Lemma scan_cons (b : NotionBlock) (rest : list NotionBlock) (extracted : list Heading.t) :
  scan (b :: rest) extracted = (e <- scan_item b extracted ;; scan rest e).
Proof. reflexivity. Qed.

Lemma own_heading_agrees (b : NotionBlock) (extracted : list Heading.t) :
  scan_agrees [b] extracted (own_heading b extracted).
Proof.
  destruct b as [i t d ch].
  unfold own_heading, scan_agrees, titled_heading, heading_entry, heading_text,
    is_heading, spans_of, plain_text_of; simpl.
  destruct (startsWith t "heading_") eqn:Hh; simpl.
  - destruct d as [d |]; simpl.
    + destruct d as [rt ? ? ? ? ? ? ? ?]; simpl.
      destruct rt as [spans |]; simpl.
      * destruct (truthy (join "" (map plain_text spans))); simpl;
          [reflexivity | now rewrite app_nil_r].
      * intros HF. inversion HF as [| ? ? Hb _]; subst. simpl in Hb. now apply Hb.
    + intros HF. inversion HF as [| ? ? Hb _]; subst. simpl in Hb. now apply Hb.
  - now rewrite app_nil_r.
Qed.

(** Running one scan after another visits the blocks of the first, then
    those of the second. *)
Lemma scan_agrees_bind (l1 l2 : list NotionBlock) (extracted : list Heading.t)
    (m : JsResult (list Heading.t)) (k : list Heading.t -> JsResult (list Heading.t)) :
  scan_agrees l1 extracted m ->
  (forall e1, scan_agrees l2 e1 (k e1)) ->
  scan_agrees (l1 ++ l2) extracted (bind m k).
Proof.
  intros H1 H2. destruct m as [e1 | err]; simpl in *.
  - specialize (H2 e1). destruct (k e1) as [r | err]; simpl in *.
    + subst. now rewrite filter_app, map_app, app_assoc.
    + intros HF. apply Forall_app in HF. now apply H2.
  - intros HF. apply Forall_app in HF. now apply H1.
Qed.

Lemma scan_agrees_children (cs : list NotionBlock) :
  Forall (fun c => forall e, scan_agrees (preorder c) e (scan_item c e)) cs ->
  forall e, scan_agrees (flat_map preorder cs) e (scan cs e).
Proof.
  induction 1 as [| c cs Hc _ IH]; intros e.
  - simpl. now rewrite app_nil_r.
  - rewrite scan_cons. simpl flat_map. apply scan_agrees_bind; auto.
Qed.

Lemma scan_item_agrees (b : NotionBlock) :
  forall e, scan_agrees (preorder b) e (scan_item b e).
Proof.
  induction b as [i t d | i t d cs IH] using NotionBlock_tree_ind; intros e;
    rewrite scan_item_unfold.
  - change (preorder (mkBlock i t d None)) with ([mkBlock i t d None] ++ []).
    apply scan_agrees_bind; [apply own_heading_agrees |].
    intros e1. simpl. now rewrite app_nil_r.
  - change (preorder (mkBlock i t d (Some cs)))
      with ([mkBlock i t d (Some cs)] ++ flat_map preorder cs).
    apply scan_agrees_bind; [apply own_heading_agrees |].
    intros e1. simpl children. now apply scan_agrees_children.
Qed.

Lemma headings_agree (blocks : list NotionBlock) :
  scan_agrees (preorder_all blocks) [] (headings blocks).
Proof.
  unfold headings, preorder_all. apply scan_agrees_children.
  apply Forall_forall. intros c _. apply scan_item_agrees.
Qed.

(** *** C1 as stated fails: a heading block without text gets no entry. *)
Lemma headings_skip_untitled_heading :
  headings untitled_page <> Returns (all_heading_entries untitled_page).
Proof. vm_compute. discriminate. Qed.

(** *** C1, amended.  For every block tree whose heading blocks carry their
    rich text, the heading extractor returns exactly one entry (anchor
    identifier = block identifier, display text = concatenation of the plain
    text of the block's spans, level = the number after [heading_], which is
    1, 2, 3 for the three heading kinds) for every heading block whose text is
    not empty, however deep the block is nested, and the entries are in
    depth-first pre-order: a node before its children, children in their
    given order.  A heading block whose text is empty gets no entry. *)
Theorem headings_titled_preorder (blocks : list NotionBlock) :
  headings_have_text blocks ->
  headings blocks = Returns (titled_heading_entries blocks)
  /\ (forall i d cs, Heading.level (heading_entry (mkBlock i "heading_1" d cs)) = Num 1)
  /\ (forall i d cs, Heading.level (heading_entry (mkBlock i "heading_2" d cs)) = Num 2)
  /\ (forall i d cs, Heading.level (heading_entry (mkBlock i "heading_3" d cs)) = Num 3).
Proof.
  intros Hwf. split; [| repeat split; reflexivity].
  pose proof (headings_agree blocks) as H. unfold scan_agrees in H.
  destruct (headings blocks) as [r | err].
  - rewrite H. reflexivity.
  - contradiction.
Qed.

(** The nested sample page: every heading block carries rich text, and the
    extractor lists its four titled headings in pre-order. *)
Lemma headings_titled_preorder_witness :
  headings_have_text nested_page
  /\ headings nested_page =
     Returns [ Heading.mk "h1" "Intro" (Num 1); Heading.mk "h3" "Deep" (Num 3);
               Heading.mk "h4" "Inner" (Num 2); Heading.mk "h2" "Details" (Num 2) ].
Proof.
  assert (Hwf : headings_have_text nested_page).
  { unfold headings_have_text. simpl.
    repeat (apply Forall_cons;
            [vm_compute; intros Hh; first [discriminate Hh | intros Hs; discriminate Hs] |]).
    apply Forall_nil. }
  split; [exact Hwf |].
  exact (proj1 (@headings_titled_preorder nested_page Hwf)).
Defined.

(** The entries that come back are those of the titled headings, whether or
    not every heading block carries rich text. *)
Lemma headings_Returns (blocks : list NotionBlock) (hs : list Heading.t) :
  headings blocks = Returns hs -> hs = titled_heading_entries blocks.
Proof.
  intros H. pose proof (headings_agree blocks) as Ha. rewrite H in Ha. exact Ha.
Qed.

Lemma truthy_nonempty (s : string) : truthy s = true <-> s <> "".
Proof.
  destruct s; simpl; split; intros H; try discriminate; try reflexivity.
  now contradiction H.
Qed.

(** *** C9.  Every heading entry the extractor emits has non-empty display
    text; a heading block whose concatenated plain text is empty adds no
    entry, and its children are scanned all the same. *)
Theorem headings_never_untitled :
  (forall blocks hs, headings blocks = Returns hs ->
     Forall (fun h => Heading.text h <> "") hs)
  /\ (forall item extracted,
        is_heading item = true -> spans_of item <> None -> heading_text item = "" ->
        scan_item item extracted =
        match children item with
        | Some cs => scan cs extracted
        | None => Returns extracted
        end).
Proof.
  split.
  - intros blocks hs H. apply headings_Returns in H. subst hs.
    unfold titled_heading_entries. apply Forall_map, Forall_forall.
    intros b Hb. apply filter_In in Hb. destruct Hb as [_ Hb].
    unfold titled_heading in Hb. apply andb_true_iff in Hb.
    simpl. now apply truthy_nonempty.
  - intros [i t d ch] extracted Hh Hs Ht. rewrite scan_item_unfold.
    unfold own_heading, is_heading, spans_of, heading_text, spans_of in *; simpl in *.
    rewrite Hh. destruct d as [d |]; [| now contradiction Hs].
    destruct (Data.rich_text d) as [spans |]; [| now contradiction Hs].
    simpl. rewrite Ht. reflexivity.
Qed.

(** On the nested sample page no entry is untitled, and the untitled
    heading [h0] contributes only the entry of its child. *)
Lemma headings_never_untitled_witness :
  headings nested_page =
    Returns [ Heading.mk "h1" "Intro" (Num 1); Heading.mk "h3" "Deep" (Num 3);
              Heading.mk "h4" "Inner" (Num 2); Heading.mk "h2" "Details" (Num 2) ]
  /\ Forall (fun h => Heading.text h <> "")
       [ Heading.mk "h1" "Intro" (Num 1); Heading.mk "h3" "Deep" (Num 3);
         Heading.mk "h4" "Inner" (Num 2); Heading.mk "h2" "Details" (Num 2) ]
  /\ scan_item (text_block "h0" "heading_2" []
                  (Some [text_block "h4" "heading_2" [plain "Inner"] None])) [] =
     Returns [Heading.mk "h4" "Inner" (Num 2)].
Proof.
  assert (H : headings nested_page =
    Returns [ Heading.mk "h1" "Intro" (Num 1); Heading.mk "h3" "Deep" (Num 3);
              Heading.mk "h4" "Inner" (Num 2); Heading.mk "h2" "Details" (Num 2) ])
    by reflexivity.
  split; [exact H |]. split.
  - exact (proj1 headings_never_untitled nested_page _ H).
  - rewrite (proj2 headings_never_untitled
               (text_block "h0" "heading_2" []
                  (Some [text_block "h4" "heading_2" [plain "Inner"] None])) []);
      [reflexivity | reflexivity | discriminate | reflexivity].
Defined.

(** ** Rich text *)

Lemma renderSpan_cases (i : nat) (t : RichText) :
  let inner := if code (annotations t)
               then code_fragment i (content (text t))
               else styled_fragment i (span_style (annotations t)) (content (text t)) in
  renderSpan i t =
  match href t with
  | Some h => if truthy h
              then link_fragment i h (span_style (annotations t)) inner
              else inner
  | None => inner
  end.
Proof.
  unfold renderSpan, code_fragment, styled_fragment, link_fragment.
  destruct (code (annotations t)); reflexivity.
Qed.

Lemma renderSpan_text (i : nat) (t : RichText) :
  node_text (renderSpan i t) = content (text t).
Proof.
  rewrite renderSpan_cases.
  assert (Hs : forall s : string, (s ++ "")%string = s)
    by (induction s as [| c s IH]; simpl; [| rewrite IH]; reflexivity).
  destruct (href t) as [h |]; [destruct (truthy h) |];
    destruct (code (annotations t)); simpl; rewrite ?Hs; reflexivity.
Qed.

Lemma mapi_from_text (spans : list RichText) :
  forall i, map node_text (mapi_from renderSpan i spans)
            = map (fun t => content (text t)) spans.
Proof.
  induction spans as [| t spans IH]; intros i; simpl; [reflexivity |].
  now rewrite renderSpan_text, IH.
Qed.

(** *** C2.  The rich-text formatter yields exactly one fragment per span,
    in the order of the spans (the fragment at position [i] is the one built
    from the span at position [i], link wrapper included, and shows that
    span's text); an absent sequence yields no output and no error. *)
Theorem renderRichText_one_fragment_per_span :
  renderRichText None = None
  /\ forall spans : list RichText,
       exists frags,
         renderRichText (Some spans) = Some frags
         /\ List.length frags = List.length spans
         /\ (forall i t, nth_error spans i = Some t ->
                         nth_error frags i = Some (renderSpan i t))
         /\ map node_text frags = map (fun t => content (text t)) spans.
Proof.
  split; [reflexivity |]. intros spans. exists (mapi renderSpan spans).
  unfold mapi. repeat split.
  - apply mapi_from_length.
  - intros i t H. now apply (mapi_from_nth renderSpan spans 0 i).
  - apply mapi_from_text.
Qed.

(** *** C3.  A span with the code annotation and a hyperlink target is
    rendered as a link to that target, opening in a new browsing context,
    around a monospace fragment with the span's text: neither wrapping
    suppresses the other. *)
Theorem code_and_link_combine (i : nat) (t : RichText) (target : string) :
  code (annotations t) = true ->
  href t = Some target ->
  truthy target = true ->
  renderSpan i t =
    link_fragment i target (span_style (annotations t))
      (code_fragment i (content (text t)))
  /\ node_attr "href" (renderSpan i t) = Some (AStr target)
  /\ node_attr "target" (renderSpan i t) = Some (AStr "_blank")
  /\ forall spans, nth_error spans i = Some t ->
       exists frags, renderRichText (Some spans) = Some frags
                     /\ nth_error frags i =
                          Some (link_fragment i target (span_style (annotations t))
                                  (code_fragment i (content (text t)))).
Proof.
  intros Hc Hh Ht.
  assert (E : renderSpan i t =
              link_fragment i target (span_style (annotations t))
                (code_fragment i (content (text t)))).
  { rewrite renderSpan_cases. simpl. now rewrite Hh, Ht, Hc. }
  split; [exact E |]. split; [now rewrite E |]. split; [now rewrite E |].
  intros spans Hn. exists (mapi renderSpan spans). split; [reflexivity |].
  rewrite <- E. unfold mapi. now apply (mapi_from_nth renderSpan spans 0 i).
Qed.

(** A bold span of inline code with a link, after a plain span. *)
Lemma code_and_link_combine_witness :
  renderRichText (Some [plain "run "; bold_code_link]) =
    Some [ styled_fragment 0 (span_style no_annotations) "run ";
           link_fragment 1 "https://example.org/" (span_style (annotations bold_code_link))
             (code_fragment 1 "npm i") ].
Proof.
  destruct (@code_and_link_combine 1 bold_code_link "https://example.org/"
              eq_refl eq_refl eq_refl) as (E & _ & _ & _).
  unfold renderRichText, mapi. simpl mapi_from. rewrite E. reflexivity.
Defined.

(** *** C10 as stated fails: an underlined, struck-through span of inline
    code without a link is rendered with no text decoration at all. *)
Lemma code_span_drops_underline :
  applies_decoration (renderSpan 0 struck_underlined_code) "underline" = false
  /\ renderSpan 0 struck_underlined_code = code_fragment 0 "x".
Proof. split; reflexivity. Qed.

Lemma node_styles_renderSpan (i : nat) (t : RichText) :
  node_styles (renderSpan i t) =
  (if truthy_opt (href t) then [span_style (annotations t)] else [])
  ++ (if code (annotations t) then [] else [span_style (annotations t)]).
Proof.
  rewrite renderSpan_cases. unfold truthy_opt.
  destruct (href t) as [h |]; [destruct (truthy h) |];
    destruct (code (annotations t)); reflexivity.
Qed.

(** *** C10, amended.  For every span with both the underline and the
    strikethrough annotation set, the text decoration of the style the
    formatter builds is underline; every styled element of the span's fragment
    carries that style, so none is struck through; and the fragment does carry
    it unless the span has the code annotation and no hyperlink, in which case
    the fragment is the bare monospace fragment, with no style.  For any span,
    a struck-through element appears only when underline is unset and
    strikethrough is set: the two decorations never combine. *)
Theorem underline_wins_over_strikethrough (i : nat) (t : RichText) :
  underline (annotations t) = true ->
  strikethrough (annotations t) = true ->
  style_get "textDecoration" (span_style (annotations t)) = Some "underline"
  /\ applies_decoration (renderSpan i t) "line-through" = false
  /\ (code (annotations t) = false \/ truthy_opt (href t) = true ->
      applies_decoration (renderSpan i t) "underline" = true)
  /\ (code (annotations t) = true -> truthy_opt (href t) = false ->
      renderSpan i t = code_fragment i (content (text t)))
  /\ (forall j u, applies_decoration (renderSpan j u) "line-through" = true ->
        underline (annotations u) = false /\ strikethrough (annotations u) = true).
Proof.
  intros Hu Hs.
  assert (Hgen : forall j u, applies_decoration (renderSpan j u) "line-through" = true ->
            underline (annotations u) = false /\ strikethrough (annotations u) = true).
  { intros j u. unfold applies_decoration. rewrite node_styles_renderSpan.
    unfold span_style.
    destruct (truthy_opt (href u)), (code (annotations u)),
      (underline (annotations u)), (strikethrough (annotations u));
      simpl; intros H; try discriminate H; auto. }
  split; [unfold span_style; simpl; now rewrite Hu |].
  split.
  { destruct (applies_decoration (renderSpan i t) "line-through") eqn:E; [| reflexivity].
    apply Hgen in E. destruct E as [E _]. congruence. }
  split.
  { intros H. unfold applies_decoration. rewrite node_styles_renderSpan.
    unfold span_style. rewrite Hu.
    destruct H as [H | H]; rewrite H;
      [destruct (truthy_opt (href t)) | destruct (code (annotations t))]; reflexivity. }
  split; [| exact Hgen].
  intros Hc Hl. rewrite renderSpan_cases. simpl. rewrite Hc.
  unfold truthy_opt in Hl. destruct (href t) as [h |]; [now rewrite Hl | reflexivity].
Qed.

(** An underlined, struck-through span of ordinary text is underlined and
    not struck through. *)
Lemma underline_wins_over_strikethrough_witness :
  applies_decoration (renderSpan 0 struck_underlined) "underline" = true
  /\ applies_decoration (renderSpan 0 struck_underlined) "line-through" = false.
Proof.
  destruct (@underline_wins_over_strikethrough 0 struck_underlined eq_refl eq_refl)
    as (_ & Hno & Hyes & _).
  split; [apply Hyes; left; reflexivity | exact Hno].
Defined.

(** ** The block renderer *)

Lemma opt_is_true (o : option string) (s : string) : opt_is o s = true <-> o = Some s.
Proof.
  destruct o as [x |]; simpl; [| split; discriminate].
  rewrite String.eqb_eq. split; [now intros -> | now intros [= ->]].
Qed.

Lemma opt_is_false (o : option string) (s : string) : opt_is o s = false <-> o <> Some s.
Proof.
  rewrite <- opt_is_true. destruct (opt_is o s); split; intros H; congruence.
Qed.

Lemma NotionBlockRenderer_code (block_id : string) (d : Data.t)
    (nested : option (list NotionBlock)) :
  NotionBlockRenderer (mkBlock block_id "code" (Some d) nested) =
  if opt_is (Data.language d) "mermaid"
  then code <- plain_text_of (Data.rich_text d) ;; Returns (NMermaid code)
  else code <- plain_text_of (Data.rich_text d) ;;
       Returns (source_code_block (Data.language d) code).
Proof. reflexivity. Qed.

Lemma source_code_block_labeled (language : option string) (code : string) :
  labeled_monospace_block language code (source_code_block language code).
Proof.
  unfold labeled_monospace_block, source_code_block.
  do 5 eexists. split; [reflexivity |]. split; [now destruct language |].
  split; reflexivity.
Qed.

(** *** C4.  A code block whose language tag is [mermaid] is never rendered
    as a labeled source-code block, whatever its text: whenever it renders,
    the result is a diagram instance and nothing else, and the plain text of
    its spans is concatenated and handed to the diagram component.  With any
    other language tag the block is rendered as a labeled monospace block:
    one element holding a label that shows the tag and a monospace [pre]
    whose [code] element shows the concatenated plain text, with no diagram
    instance in it. *)
Theorem code_block_diagram_or_listing :
  (forall block_id d nested,
     Data.language d = Some "mermaid" ->
     (forall label source,
        NotionBlockRenderer (mkBlock block_id "code" (Some d) nested)
        <> Returns (source_code_block label source))
     /\ forall n,
          NotionBlockRenderer (mkBlock block_id "code" (Some d) nested) = Returns n ->
          (exists chart, n = NMermaid chart)
          /\ node_text n = ""
          /\ forall tag code, ~ labeled_monospace_block tag code n)
  /\ (forall block_id d nested spans,
        Data.rich_text d = Some spans ->
        Data.language d = Some "mermaid" ->
        NotionBlockRenderer (mkBlock block_id "code" (Some d) nested)
        = Returns (NMermaid (join "" (map plain_text spans)))
        /\ forall lib w k,
             display lib w (NMermaid (join "" (map plain_text spans))) k
             = (Mermaid_mounted lib (dark w) (random w k) (join "" (map plain_text spans)), S k))
  /\ (forall block_id d nested spans,
        Data.rich_text d = Some spans ->
        Data.language d <> Some "mermaid" ->
        NotionBlockRenderer (mkBlock block_id "code" (Some d) nested)
        = Returns (source_code_block (Data.language d) (join "" (map plain_text spans)))
        /\ exists n,
             NotionBlockRenderer (mkBlock block_id "code" (Some d) nested) = Returns n
             /\ labeled_monospace_block (Data.language d) (join "" (map plain_text spans)) n
             /\ node_text n
                = (match Data.language d with Some tag => tag | None => "" end
                   ++ join "" (map plain_text spans))%string
             /\ node_diagrams n = []).
Proof.
  split; [| split].
  - intros block_id d nested Hl. rewrite NotionBlockRenderer_code.
    apply opt_is_true in Hl. rewrite Hl. split.
    + intros label source.
      destruct (plain_text_of (Data.rich_text d)); simpl; discriminate.
    + intros n Hn.
      destruct (plain_text_of (Data.rich_text d)) as [chart | e]; simpl in Hn;
        [| discriminate].
      injection Hn as <-. split; [now exists chart |]. split; [reflexivity |].
      intros tag code (ra & la & label & pa & pc & Hshape & _). discriminate.
  - intros block_id d nested spans Hrt Hl. split; [| reflexivity].
    rewrite NotionBlockRenderer_code.
    apply opt_is_true in Hl. now rewrite Hl, Hrt.
  - intros block_id d nested spans Hrt Hl. rewrite NotionBlockRenderer_code.
    apply opt_is_false in Hl. rewrite Hl, Hrt. split; [reflexivity |].
    eexists. split; [reflexivity |]. split; [apply source_code_block_labeled |].
    unfold source_code_block.
    destruct (Data.language d) as [tag |]; split; reflexivity.
Qed.

(** The sample diagram block and the sample listing. *)
Lemma code_block_diagram_or_listing_witness :
  NotionBlockRenderer diagram_block = Returns (NMermaid "graph TD; A-->")
  /\ exists n,
       NotionBlockRenderer listing_block = Returns n
       /\ labeled_monospace_block (Some "typescript") "let x = 1;" n
       /\ node_text n = "typescriptlet x = 1;"
       /\ node_diagrams n = [].
Proof.
  destruct code_block_diagram_or_listing as (_ & Hd & Hs). split.
  - exact (proj1 (Hd "d1" (code_payload "mermaid" [plain "graph TD; "; plain "A-->"]) None
                    [plain "graph TD; "; plain "A-->"] eq_refl eq_refl)).
  - refine (proj2 (Hs "c1" (code_payload "typescript" [plain "let x = 1;"]) None
                     [plain "let x = 1;"] eq_refl _)).
    discriminate.
Defined.

(** ** The diagram component *)

Lemma mapS_app {A B : Type} (f : A -> nat -> B * nat) (l1 l2 : list A) (k : nat) :
  mapS f (l1 ++ l2) k =
  (fst (mapS f l1 k) ++ fst (mapS f l2 (snd (mapS f l1 k))),
   snd (mapS f l2 (snd (mapS f l1 k)))).
Proof.
  revert k. induction l1 as [| a l1 IH]; intros k; simpl.
  - now destruct (mapS f l2 k).
  - destruct (f a k) as [b k1]. rewrite IH.
    destruct (mapS f l1 k1) as [r1 k2]. simpl.
    now destruct (mapS f l2 k2).
Qed.

Lemma renderChart_failure (lib : MermaidLib) (dark : bool) (rnd chart : string) :
  throws (compile lib dark rnd chart) = true ->
  renderChart lib dark rnd chart Mermaid_initial
  = {| error := Some "Diagram preview unavailable"; innerHTML := "" |}.
Proof.
  unfold renderChart. simpl. destruct (compile lib dark rnd chart); [discriminate | reflexivity].
Qed.

(** *** C5 as stated fails: the notice reads "Diagram preview unavailable",
    with a capital letter. *)
Lemma diagram_notice_is_capitalised :
  Mermaid_mounted rejecting_mermaid false "k3x9q0z1a" "graph TD; A-->"
  <> diagram_notice "diagram preview unavailable"
  /\ node_text (Mermaid_mounted rejecting_mermaid false "k3x9q0z1a" "graph TD; A-->")
     <> "diagram preview unavailable".
Proof. split; vm_compute; discriminate. Qed.

(** *** C5, amended.  When the diagram compiler fails on the description of
    a diagram block, the failure is caught inside the component: the block's
    slot shows the inline notice with the text "Diagram preview unavailable"
    and nothing else; rendering the page does not throw because of it, and the
    blocks before and after the diagram are rendered and shown exactly as they
    are without it. *)
Theorem failed_diagram_shows_notice (lib : MermaidLib) (w : Browser) (chart : string) :
  (forall rnd, throws (compile lib (dark w) rnd chart) = true) ->
  (forall rnd, Mermaid_mounted lib (dark w) rnd chart
               = diagram_notice "Diagram preview unavailable")
  /\ (forall rnd, node_text (Mermaid_mounted lib (dark w) rnd chart)
                  = "Diagram preview unavailable")
  /\ forall block_id d nested spans before after p q,
       Data.rich_text d = Some spans ->
       Data.language d = Some "mermaid" ->
       join "" (map plain_text spans) = chart ->
       render_blocks before = Returns p ->
       render_blocks after = Returns q ->
       render_blocks (before ++ mkBlock block_id "code" (Some d) nested :: after)
       = Returns (p ++ NKeyed block_id (NMermaid chart) :: q)
       /\ forall k,
            let shown_before := display_all lib w p k in
            let shown_after := display_all lib w q (S (snd shown_before)) in
            display_all lib w (p ++ NKeyed block_id (NMermaid chart) :: q) k
            = (fst shown_before
                 ++ NKeyed block_id (diagram_notice "Diagram preview unavailable")
                 :: fst shown_after,
               snd shown_after).
Proof.
  intros Hfail.
  assert (Hnotice : forall rnd, Mermaid_mounted lib (dark w) rnd chart
                                = diagram_notice "Diagram preview unavailable").
  { intros rnd. unfold Mermaid_mounted. now rewrite renderChart_failure. }
  split; [exact Hnotice |]. split; [intros rnd; now rewrite Hnotice |].
  intros block_id d nested spans before after p q Hrt Hlang Hchart Hp Hq. split.
  - unfold render_blocks in *. rewrite mapM_app, Hp, mapM_cons, Hq. cbv beta.
    rewrite NotionBlockRenderer_code. apply opt_is_true in Hlang.
    rewrite Hlang, Hrt. simpl. now rewrite Hchart.
  - intros k. unfold display_all. simpl. rewrite mapS_app. simpl.
    rewrite Hnotice.
    destruct (mapS (display lib w) p k) as [p' k1]. simpl.
    now destruct (mapS (display lib w) q (S k1)).
Qed.

(** A page with a paragraph, a diagram the compiler rejects and another
    paragraph shows the two paragraphs around the notice. *)
Lemma failed_diagram_shows_notice_witness :
  (forall rnd,
     throws (compile rejecting_mermaid (dark light_browser) rnd "graph TD; A-->") = true)
  /\ (forall rnd,
        Mermaid_mounted rejecting_mermaid (dark light_browser) rnd "graph TD; A-->"
        = diagram_notice "Diagram preview unavailable")
  /\ (r <- render_blocks diagram_page ;;
      Returns (map node_text (fst (display_all rejecting_mermaid light_browser r 0))))
     = Returns ["before"; "Diagram preview unavailable"; "after"].
Proof.
  assert (Hfail : forall rnd,
            throws (compile rejecting_mermaid (dark light_browser) rnd "graph TD; A-->") = true)
    by (intros rnd; reflexivity).
  split; [exact Hfail |]. split.
  - exact (proj1 (@failed_diagram_shows_notice rejecting_mermaid light_browser
                    "graph TD; A-->" Hfail)).
  - reflexivity.
Defined.

(** ** The navigator *)

(** Keeping some blocks of a list with distinct identifiers keeps the
    identifiers distinct. *)
Lemma kept_ids_distinct (keep : NotionBlock -> bool) (visited : list NotionBlock) :
  NoDup (map id visited) -> NoDup (map id (filter keep visited)).
Proof.
  induction visited as [| b rest IH]; simpl; intros Hd; [constructor |].
  inversion Hd as [| ? ? Hfresh Hrest]; subst.
  destruct (keep b); simpl; auto.
  constructor; auto. intros Hin. apply Hfresh.
  apply in_map_iff in Hin. destruct Hin as (b' & Hb' & Hin).
  apply filter_In in Hin. apply in_map_iff. exists b'. tauto.
Qed.

(** The anchors of the extracted headings are distinct when the block
    identifiers of the tree are. *)
Lemma headings_ids_distinct (tree : list NotionBlock) (hs : list Heading.t) :
  NoDup (map id (preorder_all tree)) ->
  headings tree = Returns hs ->
  NoDup (map Heading.id hs).
Proof.
  intros Hnd H. apply headings_Returns in H. subst hs.
  unfold titled_heading_entries. rewrite map_map. simpl.
  now apply kept_ids_distinct.
Qed.

Lemma at_most_one_match (a : string) (hs : list Heading.t) :
  NoDup (map Heading.id hs) ->
  List.length (filter (fun h => String.eqb a (Heading.id h)) hs) <= 1.
Proof.
  induction hs as [| h hs IH]; simpl; intros H; [lia |].
  inversion H as [| ? ? Hnot Hrest]; subst.
  destruct (String.eqb a (Heading.id h)) eqn:E; [| auto].
  apply String.eqb_eq in E. subst a. simpl.
  assert (Hnone : filter (fun h' => String.eqb (Heading.id h) (Heading.id h')) hs = []).
  { destruct (filter (fun h' => String.eqb (Heading.id h) (Heading.id h')) hs)
      as [| x xs] eqn:F; [reflexivity |].
    assert (Hx : In x (x :: xs)) by (left; reflexivity).
    rewrite <- F in Hx. apply filter_In in Hx. destruct Hx as [Hin Hx].
    apply String.eqb_eq in Hx. exfalso. apply Hnot. rewrite Hx. now apply in_map. }
  rewrite Hnone. simpl. lia.
Qed.

Lemma observer_callback_active (entries : list IntersectionObserverEntry) (st : ViewState) :
  activeSection (observer_callback entries st) = activeSection st
  \/ In (activeSection (observer_callback entries st))
        (map target_id (filter isIntersecting entries)).
Proof.
  unfold observer_callback. revert st.
  induction entries as [| e es IH]; intros st; simpl; [now left |].
  destruct (isIntersecting e) eqn:E; simpl.
  - destruct (IH (setActiveSection (target_id e) st)) as [H | H].
    + right. left. now rewrite H.
    + right. now right.
  - apply IH.
Qed.

Lemma nav_step_active (ev : NavEvent) (st : ViewState) :
  activeSection (nav_step ev st) = activeSection st
  \/ In (activeSection (nav_step ev st)) (named_by ev).
Proof.
  destruct ev as [entries | doc heading_id]; simpl.
  - apply observer_callback_active.
  - unfold scrollToHeading. destruct (getElementById doc heading_id); simpl; auto.
Qed.

Lemma nav_reachable_run (evs : list NavEvent) :
  forall st0 st, nav_reachable st0 st ->
                 nav_reachable st0 (fold_left (fun acc ev => nav_step ev acc) evs st).
Proof.
  induction evs as [| ev evs IH]; intros st0 st H; simpl; [exact H |].
  apply IH. now apply nav_next.
Qed.

(** *** C6.  In every state the navigator reaches, at most one heading of
    the table of contents is active: the state holds one anchor identifier,
    two entries that are active have that same anchor, and with the distinct
    block identifiers of a tree at most one extracted heading matches it.
    Every transition (an observer callback, a click) leaves the active
    identifier as it was or replaces it by one identifier the event names, so
    the bound holds again after it. *)
Theorem at_most_one_active_heading (st0 st : ViewState) (tree : list NotionBlock)
    (hs : list Heading.t) :
  nav_reachable st0 st ->
  NoDup (map id (preorder_all tree)) ->
  headings tree = Returns hs ->
  List.length (filter (is_active st) hs) <= 1
  /\ (forall h1 h2, is_active st h1 = true -> is_active st h2 = true ->
                    Heading.id h1 = Heading.id h2)
  /\ (forall ev,
        (activeSection (nav_step ev st) = activeSection st
         \/ In (activeSection (nav_step ev st)) (named_by ev))
        /\ List.length (filter (is_active (nav_step ev st)) hs) <= 1).
Proof.
  intros _ Hnd Hhs. pose proof (headings_ids_distinct tree Hnd Hhs) as Hids.
  split; [now apply at_most_one_match |]. split.
  - unfold is_active. intros h1 h2 H1 H2.
    apply String.eqb_eq in H1, H2. congruence.
  - intros ev. split; [apply nav_step_active | now apply at_most_one_match].
Qed.

(** After the sample navigation on the nested sample page the active anchor
    is [h2], and one entry at most is active. *)
Lemma at_most_one_active_heading_witness :
  let st := fold_left (fun acc ev => nav_step ev acc) sample_navigation initial_view in
  activeSection st = "h2"
  /\ List.length (filter (is_active st)
                    [ Heading.mk "h1" "Intro" (Num 1); Heading.mk "h3" "Deep" (Num 3);
                      Heading.mk "h4" "Inner" (Num 2); Heading.mk "h2" "Details" (Num 2) ]) <= 1.
Proof.
  assert (Hreach : nav_reachable initial_view
                     (fold_left (fun acc ev => nav_step ev acc) sample_navigation initial_view)).
  { apply nav_reachable_run, nav_start. }
  assert (Hnd : NoDup (map id (preorder_all nested_page))).
  { simpl. repeat (constructor; [simpl; intuition discriminate |]). constructor. }
  split; [reflexivity |].
  exact (proj1 (@at_most_one_active_heading initial_view _ nested_page _ Hreach Hnd eq_refl)).
Defined.

(** ** The content client *)

(** *** C8.  The block-tree fetch never raises: with a missing or
    placeholder key, on a response that is not OK, and when the network or
    the parse of the body throws, it returns the empty list.  The same holds
    of the page-metadata fetch as the specification describes it, with the
    absent page as its default. *)
Theorem client_fetches_never_raise :
  (forall env fetch blockId,
     throws (getPageBlocks env fetch blockId) = false
     /\ (key_unusable (VITE_NOTION_API_KEY env) = true ->
         getPageBlocks env fetch blockId = Returns [])
     /\ (forall response, fetch (blocks_request env blockId) = Returns response ->
                          ok response = false ->
                          getPageBlocks env fetch blockId = Returns [])
     /\ (throws (fetch (blocks_request env blockId)) = true ->
         getPageBlocks env fetch blockId = Returns [])
     /\ (forall response, fetch (blocks_request env blockId) = Returns response ->
                          throws (json response) = true ->
                          getPageBlocks env fetch blockId = Returns []))
  /\ (forall env path fetch pageId,
        throws (getPageDetails env path fetch pageId) = false
        /\ (key_unusable (VITE_NOTION_API_KEY env) = true ->
            getPageDetails env path fetch pageId = Returns None)
        /\ (forall response, fetch (details_request env path pageId) = Returns response ->
                             ok response = false ->
                             getPageDetails env path fetch pageId = Returns None)
        /\ (throws (fetch (details_request env path pageId)) = true ->
            getPageDetails env path fetch pageId = Returns None)
        /\ (forall response, fetch (details_request env path pageId) = Returns response ->
                             throws (json response) = true ->
                             getPageDetails env path fetch pageId = Returns None)).
Proof.
  split.
  - intros env fetch blockId. unfold getPageBlocks.
    change {| req_url := ("/api/notion/blocks/" ++ blockId ++ "/children?page_size=100")%string;
              req_method := "GET";
              req_headers := auth_headers (VITE_NOTION_API_KEY env) |}
      with (blocks_request env blockId).
    destruct (key_unusable (VITE_NOTION_API_KEY env)); [repeat split; reflexivity |].
    destruct (fetch (blocks_request env blockId)) as [response | e]; simpl.
    + destruct (ok response) eqn:Hok; simpl.
      * destruct (json response) as [[body |] | e] eqn:Hj; simpl;
          (split; [reflexivity |]); (split; [discriminate |]);
          (split; [intros r [= <-]; congruence |]); (split; [discriminate |]);
          intros r [= <-]; rewrite Hj; simpl; try discriminate; reflexivity.
      * repeat split; reflexivity.
    + repeat split; reflexivity.
  - intros env path fetch pageId. unfold getPageDetails.
    change {| req_url := path pageId; req_method := "GET";
              req_headers := auth_headers (VITE_NOTION_API_KEY env) |}
      with (details_request env path pageId).
    destruct (key_unusable (VITE_NOTION_API_KEY env)); [repeat split; reflexivity |].
    destruct (fetch (details_request env path pageId)) as [response | e]; simpl.
    + destruct (ok response) eqn:Hok; simpl.
      * destruct (json response) as [data | e] eqn:Hj; simpl;
          (split; [reflexivity |]); (split; [discriminate |]);
          (split; [intros r [= <-]; congruence |]); (split; [discriminate |]);
          intros r [= <-]; rewrite Hj; simpl; try discriminate; reflexivity.
      * repeat split; reflexivity.
    + repeat split; reflexivity.
Qed.

(** The four failure modes of the block-tree fetch, one sample each. *)
Lemma client_fetches_never_raise_witness :
  getPageBlocks placeholder_env network_down "page-1" = Returns []
  /\ getPageBlocks keyed_env forbidden "page-1" = Returns []
  /\ getPageBlocks keyed_env network_down "page-1" = Returns []
  /\ getPageBlocks keyed_env garbled "page-1" = Returns [].
Proof.
  destruct (proj1 client_fetches_never_raise placeholder_env network_down "page-1")
    as (_ & Hkey & _).
  destruct (proj1 client_fetches_never_raise keyed_env forbidden "page-1")
    as (_ & _ & Hok & _).
  destruct (proj1 client_fetches_never_raise keyed_env network_down "page-1")
    as (_ & _ & _ & Hnet & _).
  destruct (proj1 client_fetches_never_raise keyed_env garbled "page-1")
    as (_ & _ & _ & _ & Hparse).
  split; [apply Hkey; reflexivity |].
  split; [apply (Hok _ eq_refl); reflexivity |].
  split; [apply Hnet; reflexivity |].
  apply (Hparse _ eq_refl); reflexivity.
Defined.

(** ** The page orchestrator *)

Lemma nth_error_replace_nth {A : Type} (l : list A) :
  forall k x, k < List.length l -> nth_error (replace_nth k x l) k = Some x.
Proof.
  induction l as [| a l IH]; intros k x H; simpl in *; [lia |].
  destruct k as [| k]; simpl; [reflexivity | apply IH; lia].
Qed.

Lemma nth_error_last {A : Type} (l : list A) (x : A) :
  nth_error (l ++ [x]) (List.length l) = Some x.
Proof.
  induction l as [| a l IH]; simpl; [reflexivity | exact IH].
Qed.

(** A settled request of a run that is still waiting for the other one
    changes nothing the page shows. *)
Lemma step_first_settle (o : Orchestrator) (k : nat) (l : Load)
    (b : list NotionBlock) (d : option Page.t) :
  nth_error (loads o) k = Some l ->
  blocksData l = Pending -> detailsData l = Pending -> resumed l = false ->
  let ob := step (BlocksSettle k (Returns b)) o in
  let od := step (DetailsSettle k (Returns d)) o in
  view ob = view o /\ frames ob = frames o
  /\ nth_error (loads ob) k
     = Some {| load_id := load_id l; blocksData := Settled (Returns b);
               detailsData := Pending; resumed := false |}
  /\ view od = view o /\ frames od = frames o
  /\ nth_error (loads od) k
     = Some {| load_id := load_id l; blocksData := Pending;
               detailsData := Settled (Returns d); resumed := false |}.
Proof.
  intros Hk Hb Hd Hr.
  assert (Hlt : k < List.length (loads o)) by (apply nth_error_Some; congruence).
  assert (Hob : step (BlocksSettle k (Returns b)) o
                = {| view := view o;
                     loads := replace_nth k
                                {| load_id := load_id l; blocksData := Settled (Returns b);
                                   detailsData := Pending; resumed := false |} (loads o);
                     frames := frames o |}).
  { simpl. rewrite Hk, Hb. unfold deliver. simpl. rewrite Hr, Hd. reflexivity. }
  assert (Hod : step (DetailsSettle k (Returns d)) o
                = {| view := view o;
                     loads := replace_nth k
                                {| load_id := load_id l; blocksData := Pending;
                                   detailsData := Settled (Returns d); resumed := false |}
                                (loads o);
                     frames := frames o |}).
  { simpl. rewrite Hk, Hd. unfold deliver. simpl. rewrite Hr, Hb. reflexivity. }
  cbv zeta. rewrite Hob, Hod. simpl.
  repeat split; now apply nth_error_replace_nth.
Qed.

(** The second request to settle resumes the run. *)
Lemma step_second_settle (o : Orchestrator) (k : nat) (l : Load)
    (b : list NotionBlock) (d : option Page.t) :
  nth_error (loads o) k = Some l -> resumed l = false ->
  (blocksData l = Settled (Returns b) -> detailsData l = Pending ->
   view (step (DetailsSettle k (Returns d)) o)
   = setLoading false (setPageDetails d (setBlocks b (view o)))
   /\ frames (step (DetailsSettle k (Returns d)) o)
      = frames o ++ after_await (Returns (b, d)) (view o))
  /\ (blocksData l = Pending -> detailsData l = Settled (Returns d) ->
      view (step (BlocksSettle k (Returns b)) o)
      = setLoading false (setPageDetails d (setBlocks b (view o)))
      /\ frames (step (BlocksSettle k (Returns b)) o)
         = frames o ++ after_await (Returns (b, d)) (view o)).
Proof.
  intros Hk Hr. split; intros Hb Hd; simpl; rewrite Hk; [rewrite Hd | rewrite Hb];
    unfold deliver; simpl; rewrite Hr; [rewrite Hb | rewrite Hd]; simpl; split; reflexivity.
Qed.

(** One run on its own, its two settles following its start at once: the
    orchestrator sets the loading flag and issues both requests before waiting
    for either.  A request that settles while the other is pending changes
    neither the state nor what is shown; when the second one settles, in
    either order, the block tree and the page metadata are stored and only
    then is the loading flag cleared, and every state passed through before
    that last one still has the flag set.  While the flag is set the content
    area is the placeholder skeleton, whatever the stored blocks are. *)
Theorem loadPageData_joins_before_showing (o : Orchestrator) (article_id : string)
    (b : list NotionBlock) (d : option Page.t) :
  let k := List.length (loads o) in
  let o1 := step (ChangeId article_id) o in
  let s1 := setBlocks b (view o1) in
  let s2 := setPageDetails d s1 in
  let loaded :=
    {| blocks := b; pageDetails := d; loading := false;
       activeSection := activeSection (view o) |} in
  (loading (view o1) = true
   /\ blocks (view o1) = blocks (view o)
   /\ pageDetails (view o1) = pageDetails (view o)
   /\ nth_error (loads o1) k
      = Some {| load_id := article_id; blocksData := Pending;
                detailsData := Pending; resumed := false |})
  /\ (view (step (BlocksSettle k (Returns b)) o1) = view o1
      /\ frames (step (BlocksSettle k (Returns b)) o1) = frames o1
      /\ view (run [BlocksSettle k (Returns b); DetailsSettle k (Returns d)] o1) = loaded
      /\ frames (run [BlocksSettle k (Returns b); DetailsSettle k (Returns d)] o1)
         = frames o ++ loadPageData (Returns (b, d)) (view o))
  /\ (view (step (DetailsSettle k (Returns d)) o1) = view o1
      /\ frames (step (DetailsSettle k (Returns d)) o1) = frames o1
      /\ view (run [DetailsSettle k (Returns d); BlocksSettle k (Returns b)] o1) = loaded
      /\ frames (run [DetailsSettle k (Returns d); BlocksSettle k (Returns b)] o1)
         = frames o ++ loadPageData (Returns (b, d)) (view o))
  /\ (loadPageData (Returns (b, d)) (view o) = [view o1; s1; s2; loaded]
      /\ loading (view o1) = true /\ loading s1 = true /\ loading s2 = true
      /\ loading loaded = false)
  /\ (forall width st, loading st = true ->
        content_body width st = Returns (content_wrapper (skeleton width))).
Proof.
  intros k o1 s1 s2 loaded.
  assert (Hk : nth_error (loads o1) k
               = Some {| load_id := article_id; blocksData := Pending;
                         detailsData := Pending; resumed := false |})
    by (subst o1 k; simpl; apply nth_error_last).
  destruct (step_first_settle o1 k b d Hk eq_refl eq_refl eq_refl)
    as (Hbv & Hbf & Hbl & Hdv & Hdf & Hdl).
  split; [repeat split; exact Hk |].
  split; [| split; [| split]].
  - destruct (step_second_settle (step (BlocksSettle k (Returns b)) o1) k b d Hbl eq_refl)
      as [Hjoin _].
    destruct (Hjoin eq_refl eq_refl) as [Hv Hf].
    repeat split; try assumption.
    + unfold run. cbn [fold_left]. rewrite Hv, Hbv. reflexivity.
    + unfold run. cbn [fold_left]. rewrite Hf, Hbf, Hbv.
      subst o1. simpl. now rewrite <- app_assoc.
  - destruct (step_second_settle (step (DetailsSettle k (Returns d)) o1) k b d Hdl eq_refl)
      as [_ Hjoin].
    destruct (Hjoin eq_refl eq_refl) as [Hv Hf].
    repeat split; try assumption.
    + unfold run. cbn [fold_left]. rewrite Hv, Hdv. reflexivity.
    + unfold run. cbn [fold_left]. rewrite Hf, Hdf, Hdv.
      subst o1. simpl. now rewrite <- app_assoc.
  - repeat split.
  - intros width st Hl. unfold content_body. now rewrite Hl.
Qed.

(** ** Further properties of the renderer and the navigator *)

(** A block of an unrecognised kind, or without its payload, renders to
    nothing and never throws. *)
Lemma unrecognised_block_renders_nothing :
  (forall block_id kind nested,
     NotionBlockRenderer (mkBlock block_id kind None nested) = Returns NNull)
  /\ NotionBlockRenderer (mkBlock "b" "table_of_contents" (Some (payload [])) None)
     = Returns NNull.
Proof. split; reflexivity. Qed.

(** An image whose media reference resolves to no URL renders to nothing. *)
Lemma image_without_url_renders_nothing (block_id : string) (d : Data.t)
    (nested : option (list NotionBlock)) :
  getMediaUrl (Some d) = Returns "" ->
  NotionBlockRenderer (mkBlock block_id "image" (Some d) nested) = Returns NNull.
Proof.
  intros H. change (NotionBlockRenderer (mkBlock block_id "image" (Some d) nested))
    with (imageUrl <- getMediaUrl (Some d) ;;
          if negb (truthy imageUrl) then Returns NNull
          else Returns (image_figure imageUrl d)).
  now rewrite H.
Qed.

(** Once the notice is shown the container is gone, so a later change of the
    description is not compiled: the notice stays. *)
Lemma renderChart_after_failure (lib : MermaidLib) (dark : bool) (rnd chart : string)
    (html : string) :
  renderChart lib dark rnd chart
    {| error := Some "Diagram preview unavailable"; innerHTML := html |}
  = {| error := Some "Diagram preview unavailable"; innerHTML := html |}.
Proof. reflexivity. Qed.

(** *** X24.  When the compiler returns a non-empty picture, the mounted
    diagram shows that picture inside its container and no notice. *)
Lemma renderChart_success (lib : MermaidLib) (dark : bool) (rnd chart svg : string) :
  compile lib dark rnd chart = Returns svg ->
  truthy svg = true ->
  Mermaid_mounted lib dark rnd chart
  = NElem "div" [("ref", ARef); className Mermaid_container_className] [NRawHtml svg].
Proof.
  intros H Hs. unfold Mermaid_mounted, renderChart. simpl. rewrite H.
  unfold Mermaid. simpl. now rewrite Hs.
Qed.

(** The scenario of the specification: two headings around a paragraph, and
    a click on the second entry. *)
Lemma scenario_intro_details :
  headings [ text_block "h1" "heading_1" [plain "Intro"] None;
             text_block "p" "paragraph" [plain "hello"] None;
             text_block "h2" "heading_2" [plain "Details"] None ]
  = Returns [Heading.mk "h1" "Intro" (Num 1); Heading.mk "h2" "Details" (Num 2)]
  /\ scrollToHeading sample_document "h2" initial_view
     = (setActiveSection "h2" initial_view, Some 820%Z)
  /\ is_active (fst (scrollToHeading sample_document "h2" initial_view))
       (Heading.mk "h2" "Details" (Num 2)) = true
  /\ is_active (fst (scrollToHeading sample_document "h2" initial_view))
       (Heading.mk "h1" "Intro" (Num 1)) = false.
Proof. repeat split. Qed.

Lemma observer_callback_idle (entries : list IntersectionObserverEntry) :
  forallb (fun e => negb (isIntersecting e)) entries = true ->
  forall st, observer_callback entries st = st.
Proof.
  unfold observer_callback.
  induction entries as [| e es IH]; simpl; intros Hall st; [reflexivity |].
  apply andb_true_iff in Hall. destruct Hall as [He Hes].
  destruct (isIntersecting e); [discriminate |]. now apply IH.
Qed.

(** *** X23.  Of the entries one observer callback reports, the last one
    that intersects becomes the active section, whatever came before it. *)
Lemma observer_callback_last (before after : list IntersectionObserverEntry)
    (anchor : string) (st : ViewState) :
  forallb (fun e => negb (isIntersecting e)) after = true ->
  activeSection
    (observer_callback (before ++ {| isIntersecting := true; target_id := anchor |} :: after) st)
  = anchor.
Proof.
  intros Hafter. unfold observer_callback. rewrite fold_left_app. simpl.
  fold (observer_callback before st).
  fold (observer_callback after (setActiveSection anchor (observer_callback before st))).
  now rewrite observer_callback_idle.
Qed.

(** When a request rejects, the run resumes at once: nothing is stored and
    the loading flag is cleared. *)
Lemma rejected_request_clears_loading (o : Orchestrator) (article_id e : string) :
  let k := List.length (loads o) in
  let o1 := step (ChangeId article_id) o in
  view (step (BlocksSettle k (Throws e)) o1) = setLoading false (view o)
  /\ view (step (DetailsSettle k (Throws e)) o1) = setLoading false (view o).
Proof.
  intros k o1.
  assert (Hk : nth_error (loads o1) k
               = Some {| load_id := article_id; blocksData := Pending;
                         detailsData := Pending; resumed := false |})
    by (subst o1 k; simpl; apply nth_error_last).
  split; simpl; fold k; fold o1; simpl in Hk; rewrite Hk; reflexivity.
Qed.

(** ** The simpler variant *)

(** In the simpler variant the code annotation suppresses the hyperlink. *)
Lemma legacy_code_suppresses_link :
  Legacy.renderSpan 1 bold_code_link
  = NElem "code"
      [("key", AIdx 1); className "bg-black/5 dark:bg-white/10 px-1.5 py-0.5 rounded text-sm font-mono"]
      [NText "npm i"].
Proof. reflexivity. Qed.

(** The simpler variant lists top-level headings only, and lists a heading
    without text. *)
Lemma legacy_headings_top_level_only :
  Legacy.headings nested_page
  = Returns [Heading.mk "h1" "Intro" (Num 1); Heading.mk "h2" "Details" (Num 2)]
  /\ Legacy.headings untitled_page
     = Returns [Heading.mk "h1" "Intro" (Num 1); Heading.mk "h2" "" (Num 2)].
Proof. split; reflexivity. Qed.

(** The simpler variant words its notice differently. *)
Lemma legacy_notice_text :
  Mermaid (Legacy.renderChart rejecting_mermaid false "k3x9q0z1a" "graph TD; A-->" Mermaid_initial)
  = diagram_notice "Failed to render diagram".
Proof. reflexivity. Qed.

(* ===================================================================== *)
(** * Further properties                                                  *)
(* ===================================================================== *)
Lemma renderSpan_no_anchor (i : nat) (t : RichText) : node_anchors (renderSpan i t) = [].
Proof.
  rewrite renderSpan_cases.
  destruct (href t) as [h |]; [destruct (truthy h) |];
    destruct (code (annotations t)); reflexivity.
Qed.

Lemma rich_text_no_anchor (o : option (list RichText)) :
  node_anchors (child_of (renderRichText o)) = [].
Proof.
  destruct o as [spans |]; [| reflexivity]. simpl. unfold mapi. generalize 0.
  induction spans as [| t spans IH]; intros i; simpl; [reflexivity |].
  now rewrite renderSpan_no_anchor, IH.
Qed.

Lemma anchors_of_children (cs : list NotionBlock) :
  flat_map anchors_of cs
  = map id (filter (fun x => kind_in (type x) anchor_kinds) (flat_map rendered_blocks cs)).
Proof.
  induction cs as [| c cs IH]; simpl; [reflexivity |].
  now rewrite filter_app, map_app, IH.
Qed.

Lemma wrapped_children_anchors (wrap : NotionBlock -> Node -> Node) (cs : list NotionBlock) :
  (forall c n, node_anchors (wrap c n) = node_anchors n) ->
  Forall (fun c => forall n, NotionBlockRenderer c = Returns n -> node_anchors n = anchors_of c) cs ->
  forall ns,
    mapM (fun c => n <- NotionBlockRenderer c ;; Returns (wrap c n)) cs = Returns ns ->
    flat_map node_anchors ns = flat_map anchors_of cs.
Proof.
  intros Hwrap. induction 1 as [| c cs Hc _ IH]; intros ns H; simpl in H.
  - injection H as <-. reflexivity.
  - destruct (NotionBlockRenderer c) as [n | e] eqn:En; simpl in H; [| discriminate].
    destruct (mapM _ cs) as [rest | e] eqn:Er; simpl in H; [| discriminate].
    injection H as <-. simpl. rewrite Hwrap, (Hc n eq_refl), (IH rest eq_refl). reflexivity.
Qed.

Ltac kind_case k s :=
  let E := fresh "E" in
  destruct (String.eqb k s) eqn:E;
  [apply String.eqb_eq in E; subst k |].


Ltac split_kinds k H :=
  repeat match type of H with
         | context [String.eqb k ?s] => kind_case k s
         end.

Ltac open_result H :=
  cbn in H;
  unfold to_do_row, image_figure, media_link, callout_box, source_code_block in H;
  repeat match type of H with
         | context [bind ?m _] =>
             let E := fresh "Em" in destruct m eqn:E; cbn in H; try discriminate H
         | context [if ?c then _ else _] =>
             let E := fresh "Ec" in destruct c eqn:E; cbn in H; try discriminate H
         end;
  try (injection H as <-).

Lemma unknown_kind_no_anchor (i k : string) (d : Data.t) (ch : option (list NotionBlock)) :
  kind_in k anchor_kinds = false ->
  kind_in k nesting_kinds = false ->
  anchors_of (mkBlock i k (Some d) ch) = [].
Proof.
  intros Ha Hn. unfold anchors_of. cbn -[kind_in]. rewrite Hn. cbn -[kind_in]. now rewrite Ha.
Qed.


Ltac hide_rich :=
  repeat match goal with
         | |- context [child_of (renderRichText ?o)] =>
             let X := fresh "rich" in
             let HX := fresh "Hrich" in
             pose proof (rich_text_no_anchor o) as HX;
             set (X := child_of (renderRichText o)) in *; clearbody X
         end.

Ltac use_no_anchor :=
  repeat match goal with
         | HX : node_anchors _ = [] |- _ => rewrite HX; clear HX
         end.

Ltac unknown_kind k :=
  symmetry; apply unknown_kind_no_anchor; cbn;
  repeat match goal with
         | E : String.eqb k _ = false |- _ => rewrite E; clear E
         end;
  reflexivity.

Ltac leaf_anchor d :=
  hide_rich;
  try destruct (Data.caption d) as [[| ? ?] |];
  try destruct (Data.language d);
  cbn; use_no_anchor; reflexivity.


Lemma children_anchors (wrap : NotionBlock -> Node -> Node) (F : list Node -> Node)
    (cs : list NotionBlock) (a : Node) :
  (forall c n, node_anchors (wrap c n) = node_anchors n) ->
  (forall ns, node_anchors (F ns) = flat_map node_anchors ns) ->
  Forall anchors_known cs ->
  (ns <- mapM (fun c => n <- NotionBlockRenderer c ;; Returns (wrap c n)) cs ;;
   Returns (F ns)) = Returns a ->
  node_anchors a = flat_map anchors_of cs.
Proof.
  intros Hwrap HF Hcs H.
  destruct (mapM _ cs) as [ns | e] eqn:E; simpl in H; [| discriminate].
  injection H as <-. rewrite HF.
  now apply (wrapped_children_anchors wrap Hwrap Hcs).
Qed.

Lemma nested_anchors (cs : list NotionBlock) (a : Node) :
  Forall anchors_known cs ->
  match cs with
  | [] => Returns NNull
  | _ :: _ =>
      ns <- mapM (fun child => n <- NotionBlockRenderer child ;;
                               Returns (NKeyed (id child) n)) cs ;;
      Returns (NElem "div" [className "nested-blocks space-y-2 mt-4"] [NFrag ns])
  end = Returns a ->
  node_anchors a = flat_map anchors_of cs.
Proof.
  intros Hcs H. destruct cs as [| c cs]; [injection H as <-; reflexivity |].
  apply (children_anchors (fun c n => NKeyed (id c) n)
           (fun ns => NElem "div" [className "nested-blocks space-y-2 mt-4"] [NFrag ns])
           (cs := c :: cs)); auto.
  intros ns. cbn. now rewrite !app_nil_r.
Qed.

Lemma column_anchors (cs : list NotionBlock) (a : Node) :
  Forall anchors_known cs ->
  (ns <- mapM (fun child => n <- NotionBlockRenderer child ;;
                            Returns (NKeyed (id child) n)) cs ;;
   Returns (NFrag ns)) = Returns a ->
  node_anchors a = flat_map anchors_of cs.
Proof.
  intros Hcs H.
  apply (children_anchors (fun c n => NKeyed (id c) n) (fun ns => NFrag ns) (cs := cs)); auto.
Qed.

Lemma column_list_anchors (cs : list NotionBlock) (a : Node) :
  Forall anchors_known cs ->
  (ns <- mapM (fun col => n <- NotionBlockRenderer col ;;
                          Returns (NElem "div" [("key", AStr (id col)); className "flex-1 min-w-0"] [n]))
              cs ;;
   Returns (NFrag ns)) = Returns a ->
  node_anchors a = flat_map anchors_of cs.
Proof.
  intros Hcs H.
  apply (children_anchors
           (fun col n => NElem "div" [("key", AStr (id col)); className "flex-1 min-w-0"] [n])
           (fun ns => NFrag ns) (cs := cs)); auto.
  intros c n. cbn. now rewrite app_nil_r.
Qed.

Lemma anchors_of_nesting (i k : string) (d : Data.t) (cs : list NotionBlock) :
  kind_in k nesting_kinds = true ->
  kind_in k anchor_kinds = false ->
  anchors_of (mkBlock i k (Some d) (Some cs)) = flat_map anchors_of cs.
Proof.
  intros Hn Ha. rewrite anchors_of_children. unfold anchors_of. cbn -[kind_in].
  rewrite Hn. cbn -[kind_in]. now rewrite Ha.
Qed.

Ltac nesting_anchor IH :=
  rewrite anchors_of_nesting by reflexivity;
  match goal with
  | Em : _ = Returns ?a |- _ =>
      first [ apply (@nested_anchors _ _ IH) in Em
            | apply (@column_anchors _ _ IH) in Em
            | apply (@column_list_anchors _ _ IH) in Em ];
      hide_rich; cbn; use_no_anchor; rewrite ?Em, ?app_nil_r; reflexivity
  end.

Lemma NotionBlockRenderer_anchors (b : NotionBlock) : anchors_known b.
Proof.
  induction b as [i k d | i k d cs IH] using NotionBlock_tree_ind; intros n H.
  - destruct d as [d |]; [| injection H as <-; reflexivity].
    cbn in H. split_kinds k H.
    all: open_result H.
    all: first [leaf_anchor d | unknown_kind k].
  - destruct d as [d |]; [| injection H as <-; reflexivity].
    cbn in H. split_kinds k H.
    all: open_result H.
    all: first [nesting_anchor IH | leaf_anchor d | unknown_kind k].
Qed.

Ltac split_kinds_goal k :=
  repeat match goal with
         | |- context [String.eqb k ?s] => kind_case k s
         end.

Ltac kinds_false k :=
  repeat match goal with
         | E : String.eqb k _ = false |- _ => rewrite E; clear E
         end.

Ltac not_in_kinds H :=
  cbn in H; repeat (apply orb_false_iff in H; let E := fresh "E" in destruct H as [E H]).

(** *** X1.  A block without a payload under its kind, and a block whose kind
    is none of the nineteen kinds the renderer has a case for, renders to
    nothing, whatever its identifier and its children. *)
Theorem unlisted_kind_renders_nothing :
  (forall i k nested, NotionBlockRenderer (mkBlock i k None nested) = Returns NNull)
  /\ (forall i k d nested,
        kind_in k (nesting_kinds ++ flat_kinds) = false ->
        NotionBlockRenderer (mkBlock i k (Some d) nested) = Returns NNull).
Proof.
  split; [reflexivity |]. intros i k d nested H. not_in_kinds H.
  cbn. kinds_false k. reflexivity.
Qed.

(** *** X2.  Only the nine nesting kinds (paragraph, list items, toggle,
    column list, column, quote, callout, synced block) render their
    children: a block of any other kind renders the same with and without
    them, so what is nested under a heading is not displayed. *)
Theorem only_nesting_kinds_render_children (i k : string) (d : option Data.t)
    (nested : option (list NotionBlock)) :
  kind_in k nesting_kinds = false ->
  NotionBlockRenderer (mkBlock i k d nested) = NotionBlockRenderer (mkBlock i k d None).
Proof.
  intros H. destruct d as [d |]; [| reflexivity]. not_in_kinds H.
  cbn. kinds_false k. reflexivity.
Qed.

Lemma throws_bind_total {A B : Type} (m : JsResult A) (k : A -> JsResult B) :
  (forall a, throws (k a) = false) -> throws (bind m k) = throws m.
Proof. intros H. destruct m; simpl; auto. Qed.

Lemma throws_mapM {A B : Type} (f : A -> JsResult B) (l : list A) :
  throws (mapM f l) = existsb (fun a => throws (f a)) l.
Proof.
  induction l as [| a l IH]; simpl; [reflexivity |].
  destruct (f a); simpl; [| reflexivity].
  rewrite <- IH. now destruct (mapM f l).
Qed.


Lemma children_throw (wrap : NotionBlock -> Node -> Node) (cs : list NotionBlock) :
  Forall throws_known cs ->
  throws (mapM (fun c => n <- NotionBlockRenderer c ;; Returns (wrap c n)) cs)
  = negb (forallb well_shaped (flat_map rendered_blocks cs)).
Proof.
  intros Hcs. rewrite throws_mapM.
  induction Hcs as [| c cs Hc _ IH]; simpl; [reflexivity |].
  rewrite throws_bind_total by reflexivity.
  rewrite forallb_app, negb_andb, IH. f_equal. exact Hc.
Qed.

Lemma nested_throw (cs : list NotionBlock) :
  Forall throws_known cs ->
  throws match cs with
         | [] => Returns NNull
         | _ :: _ =>
             ns <- mapM (fun child => n <- NotionBlockRenderer child ;;
                                      Returns (NKeyed (id child) n)) cs ;;
             Returns (NElem "div" [className "nested-blocks space-y-2 mt-4"] [NFrag ns])
         end
  = negb (forallb well_shaped (flat_map rendered_blocks cs)).
Proof.
  intros Hcs. destruct cs as [| c cs]; [reflexivity |].
  rewrite throws_bind_total by reflexivity.
  apply (children_throw (fun c n => NKeyed (id c) n) Hcs).
Qed.

Lemma media_resolvable_throws (d : Data.t) :
  media_resolvable d = negb (throws (getMediaUrl (Some d))).
Proof.
  unfold media_resolvable, getMediaUrl.
  destruct (opt_is (Data.type d) "external"); [now destruct (Data.external d) |].
  destruct (opt_is (Data.type d) "file"); [now destruct (Data.file d) | reflexivity].
Qed.

Lemma NotionBlockRenderer_throws (b : NotionBlock) : throws_known b.
Proof.
  unfold throws_known, all_well_shaped.
  induction b as [i k d | i k d cs IH] using NotionBlock_tree_ind.
  - destruct d as [d |]; [| reflexivity].
    cbn -[getMediaUrl media_resolvable]. split_kinds_goal k.
    all: cbn -[getMediaUrl media_resolvable]; kinds_false k;
      cbn -[getMediaUrl media_resolvable]; rewrite ?media_resolvable_throws.
    all: try reflexivity.
    all: try (destruct (Data.rich_text d); destruct (opt_is (Data.language d) "mermaid"); reflexivity).
    all: try (destruct (getMediaUrl (Some d)) as [u | e]; cbn; [destruct (truthy u) |]; reflexivity).
  - destruct d as [d |]; [| reflexivity].
    cbn -[getMediaUrl media_resolvable]. split_kinds_goal k.
    all: cbn -[getMediaUrl media_resolvable]; kinds_false k;
      cbn -[getMediaUrl media_resolvable]; rewrite ?media_resolvable_throws.
    all: try reflexivity.
    all: try (destruct (Data.rich_text d); destruct (opt_is (Data.language d) "mermaid"); reflexivity).
    all: try (destruct (getMediaUrl (Some d)) as [u | e]; cbn; [destruct (truthy u) |]; reflexivity).
    all: rewrite !throws_bind_total by reflexivity.
    all: first [ apply (nested_throw IH)
               | apply (children_throw (fun c n => NKeyed (id c) n) IH)
               | apply (children_throw
                          (fun col n => NElem "div" [("key", AStr (id col)); className "flex-1 min-w-0"] [n])
                          IH) ].
Qed.

Lemma render_blocks_anchors (blocks : list NotionBlock) (page : list Node) :
  render_blocks blocks = Returns page ->
  flat_map node_anchors page = flat_map anchors_of blocks.
Proof.
  intros H. apply (wrapped_children_anchors (fun c n => NKeyed (id c) n)) with (cs := blocks).
  - reflexivity.
  - apply Forall_forall. intros c _. apply NotionBlockRenderer_anchors.
  - exact H.
Qed.

Lemma renderSpan_links_safe (i : nat) (t : RichText) : links_safe (renderSpan i t) = true.
Proof.
  rewrite renderSpan_cases.
  destruct (href t) as [h |]; [destruct (truthy h) |];
    destruct (code (annotations t)); reflexivity.
Qed.

Lemma rich_text_links_safe (o : option (list RichText)) :
  links_safe (child_of (renderRichText o)) = true.
Proof.
  destruct o as [spans |]; [| reflexivity]. simpl. unfold mapi. generalize 0.
  induction spans as [| t spans IH]; intros i; simpl; [reflexivity |].
  now rewrite renderSpan_links_safe, IH.
Qed.


Lemma children_links (wrap : NotionBlock -> Node -> Node) (cs : list NotionBlock) :
  (forall c n, links_safe (wrap c n) = links_safe n) ->
  Forall links_known cs ->
  forall ns,
    mapM (fun c => n <- NotionBlockRenderer c ;; Returns (wrap c n)) cs = Returns ns ->
    forallb links_safe ns = true.
Proof.
  intros Hwrap. induction 1 as [| c cs Hc _ IH]; intros ns H; simpl in H.
  - injection H as <-. reflexivity.
  - destruct (NotionBlockRenderer c) as [n | e] eqn:En; simpl in H; [| discriminate].
    destruct (mapM _ cs) as [rest | e] eqn:Er; simpl in H; [| discriminate].
    injection H as <-. simpl. now rewrite Hwrap, (Hc n En), (IH rest eq_refl).
Qed.

Lemma nested_links (cs : list NotionBlock) (a : Node) :
  Forall links_known cs ->
  match cs with
  | [] => Returns NNull
  | _ :: _ =>
      ns <- mapM (fun child => n <- NotionBlockRenderer child ;;
                               Returns (NKeyed (id child) n)) cs ;;
      Returns (NElem "div" [className "nested-blocks space-y-2 mt-4"] [NFrag ns])
  end = Returns a ->
  links_safe a = true.
Proof.
  intros Hcs H. destruct cs as [| c cs]; [injection H as <-; reflexivity |].
  destruct (mapM _ (c :: cs)) as [ns | e] eqn:E; simpl in H; [| discriminate].
  injection H as <-. cbn.
  rewrite (@children_links (fun c n => NKeyed (id c) n) _ (fun _ _ => eq_refl) Hcs _ E).
  reflexivity.
Qed.

Lemma column_links (cs : list NotionBlock) (a : Node) :
  Forall links_known cs ->
  (ns <- mapM (fun child => n <- NotionBlockRenderer child ;;
                            Returns (NKeyed (id child) n)) cs ;;
   Returns (NFrag ns)) = Returns a ->
  links_safe a = true.
Proof.
  intros Hcs H. destruct (mapM _ cs) as [ns | e] eqn:E; simpl in H; [| discriminate].
  injection H as <-.
  exact (@children_links (fun c n => NKeyed (id c) n) _ (fun _ _ => eq_refl) Hcs _ E).
Qed.

Lemma column_list_links (cs : list NotionBlock) (a : Node) :
  Forall links_known cs ->
  (ns <- mapM (fun col => n <- NotionBlockRenderer col ;;
                          Returns (NElem "div" [("key", AStr (id col)); className "flex-1 min-w-0"] [n]))
              cs ;;
   Returns (NFrag ns)) = Returns a ->
  links_safe a = true.
Proof.
  intros Hcs H. destruct (mapM _ cs) as [ns | e] eqn:E; simpl in H; [| discriminate].
  injection H as <-.
  refine (@children_links
            (fun col n => NElem "div" [("key", AStr (id col)); className "flex-1 min-w-0"] [n])
            _ _ Hcs _ E).
  intros c n. cbn. now rewrite andb_true_r.
Qed.

Ltac hide_rich_links :=
  repeat match goal with
         | |- context [child_of (renderRichText ?o)] =>
             let X := fresh "rich" in
             let HX := fresh "Hrich" in
             pose proof (rich_text_links_safe o) as HX;
             set (X := child_of (renderRichText o)) in *; clearbody X
         end.

Ltac use_links_safe :=
  repeat match goal with
         | HX : links_safe _ = true |- _ => rewrite HX; clear HX
         end.

Ltac leaf_links d :=
  hide_rich_links;
  try destruct (Data.caption d) as [[| ? ?] |];
  try destruct (Data.language d);
  cbn; use_links_safe; reflexivity.

Ltac nesting_links IH :=
  match goal with
  | Em : _ = Returns ?a |- _ =>
      first [ apply (@nested_links _ _ IH) in Em
            | apply (@column_links _ _ IH) in Em
            | apply (@column_list_links _ _ IH) in Em ];
      hide_rich_links; cbn; use_links_safe; reflexivity
  end.

Lemma NotionBlockRenderer_links (b : NotionBlock) : links_known b.
Proof.
  induction b as [i k d | i k d cs IH] using NotionBlock_tree_ind; intros n H.
  - destruct d as [d |]; [| injection H as <-; reflexivity].
    cbn in H. split_kinds k H.
    all: open_result H.
    all: leaf_links d.
  - destruct d as [d |]; [| injection H as <-; reflexivity].
    cbn in H. split_kinds k H.
    all: open_result H.
    all: first [nesting_links IH | leaf_links d].
Qed.

Lemma rendered_blocks_cases (i k : string) (d : option Data.t)
    (nested : option (list NotionBlock)) :
  rendered_blocks (mkBlock i k d nested)
  = match d with
    | None => []
    | Some _ =>
        mkBlock i k d nested
        :: match nested with
           | Some cs => if kind_in k nesting_kinds then flat_map rendered_blocks cs else []
           | None => []
           end
    end.
Proof.
  destruct d; [| reflexivity]. cbn -[kind_in].
  destruct nested; destruct (kind_in k nesting_kinds); reflexivity.
Qed.

Lemma rendered_in_preorder (b : NotionBlock) : incl (rendered_blocks b) (preorder b).
Proof.
  induction b as [i k d | i k d cs IH] using NotionBlock_tree_ind;
    rewrite rendered_blocks_cases; destruct d; intros x Hx; try contradiction.
  - exact Hx.
  - destruct Hx as [<- | Hx]; [now left |]. right.
    destruct (kind_in k nesting_kinds); [| contradiction].
    apply in_flat_map in Hx. destruct Hx as (c & Hc & Hx).
    apply in_flat_map. exists c. split; [exact Hc |].
    rewrite Forall_forall in IH. now apply (IH c Hc).
Qed.

Lemma rendered_blocks_have_payload (b : NotionBlock) :
  forall x, In x (rendered_blocks b) -> data x <> None.
Proof.
  induction b as [i k d | i k d cs IH] using NotionBlock_tree_ind;
    rewrite rendered_blocks_cases; destruct d; intros x Hx; try contradiction.
  - destruct Hx as [<- | []]. discriminate.
  - destruct Hx as [<- | Hx]; [discriminate |].
    destruct (kind_in k nesting_kinds); [| contradiction].
    apply in_flat_map in Hx. destruct Hx as (c & Hc & Hx).
    rewrite Forall_forall in IH. now apply (IH c Hc).
Qed.

(** *** X3.  The anchors of a rendered page, in document order, are the
    identifiers of the blocks of kind heading_1, heading_2 or heading_3 that
    the renderer reaches, in rendering order: each anchor belongs to a heading
    block of the tree that carries its payload. *)
Theorem anchors_are_the_reached_headings (blocks : list NotionBlock) (page : list Node) :
  render_blocks blocks = Returns page ->
  flat_map node_anchors page = flat_map anchors_of blocks
  /\ forall a, In a (flat_map node_anchors page) ->
       exists b, In b (preorder_all blocks) /\ id b = a
                 /\ kind_in (type b) anchor_kinds = true /\ data b <> None.
Proof.
  intros H. pose proof (render_blocks_anchors blocks H) as E. split; [exact E |].
  intros a Ha. rewrite E in Ha. apply in_flat_map in Ha. destruct Ha as (c & Hc & Ha).
  unfold anchors_of in Ha. apply in_map_iff in Ha. destruct Ha as (b & <- & Hb).
  apply filter_In in Hb. destruct Hb as [Hb Hk]. exists b. repeat split; auto.
  - apply in_flat_map. exists c. split; [exact Hc |]. now apply rendered_in_preorder.
  - now apply (rendered_blocks_have_payload c).
Qed.

Lemma anchors_are_the_reached_headings_witness :
  exists page, render_blocks nested_page = Returns page
               /\ flat_map node_anchors page = ["h1"; "h3"; "h0"; "h2"].
Proof.
  eexists. split; [reflexivity |].
  exact (proj1 (@anchors_are_the_reached_headings nested_page _ eq_refl)).
Defined.

(** *** X4.  In the document whose content area holds the rendered page, a
    click on an outline entry scrolls (to 120 pixels above the element) and
    marks the entry active exactly when its identifier is not empty and
    identifies an element: the anchor of a heading the renderer reached, or
    an element elsewhere in the document.  For the empty identifier and for
    every other identifier it does nothing. *)
Theorem click_finds_rendered_anchors_only (others : list string) (blocks : list NotionBlock)
    (page : list Node) (top : string -> Z) (scrolled : Z) (i : string) (st : ViewState) :
  render_blocks blocks = Returns page ->
  scrollToHeading (document_of others page top scrolled) i st
  = if truthy i
       && (existsb (String.eqb i) others
           || existsb (String.eqb i) (flat_map anchors_of blocks))
    then (setActiveSection i st, Some (top i + scrolled - 120)%Z)
    else (st, None).
Proof.
  intros H. unfold scrollToHeading, document_of. simpl.
  rewrite (render_blocks_anchors blocks H).
  now destruct (truthy i && (existsb (String.eqb i) others
                             || existsb (String.eqb i) (flat_map anchors_of blocks))).
Qed.

Lemma click_finds_rendered_anchors_only_witness :
  (exists page,
     render_blocks nested_page = Returns page
     /\ headings nested_page
        = Returns [ Heading.mk "h1" "Intro" (Num 1); Heading.mk "h3" "Deep" (Num 3);
                    Heading.mk "h4" "Inner" (Num 2); Heading.mk "h2" "Details" (Num 2) ]
     /\ scrollToHeading (document_of ["root"] page (fun _ => 500%Z) 0%Z) "h4" initial_view
        = (initial_view, None)
     /\ scrollToHeading (document_of ["root"] page (fun _ => 500%Z) 0%Z) "h3" initial_view
        = (setActiveSection "h3" initial_view, Some 380%Z))
  /\ (exists page,
        render_blocks unnamed_heading_page = Returns page
        /\ flat_map node_anchors page = [""]
        /\ scrollToHeading (document_of ["root"] page (fun _ => 500%Z) 0%Z) "" initial_view
           = (initial_view, None)).
Proof.
  split.
  - eexists. split; [reflexivity |]. split; [reflexivity |]. split.
    + exact (@click_finds_rendered_anchors_only ["root"] nested_page _ (fun _ => 500%Z) 0%Z
               "h4" initial_view eq_refl).
    + exact (@click_finds_rendered_anchors_only ["root"] nested_page _ (fun _ => 500%Z) 0%Z
               "h3" initial_view eq_refl).
  - eexists. split; [reflexivity |]. split; [reflexivity |].
    exact (@click_finds_rendered_anchors_only ["root"] unnamed_heading_page _
             (fun _ => 500%Z) 0%Z "" initial_view eq_refl).
Defined.

(** *** X5.  One ill-shaped block is enough to make the rendering throw: when
    a block the renderer reaches is a code block without rich text, or a media
    block whose payload names a source kind ([external] or [file]) it does not
    carry, rendering that tree throws, so does rendering a list that holds it,
    and so does the content area once loading is over.  While loading, the
    content area is the skeleton and does not throw. *)
Theorem ill_shaped_block_breaks_the_render :
  (forall b, all_well_shaped b = false -> throws (NotionBlockRenderer b) = true)
  /\ (forall blocks,
        forallb all_well_shaped blocks = false -> throws (render_blocks blocks) = true)
  /\ (forall width st,
        loading st = false -> forallb all_well_shaped (blocks st) = false ->
        throws (content_body width st) = true)
  /\ (forall width st, loading st = true -> throws (content_body width st) = false).
Proof.
  assert (Hpage : forall blocks,
            throws (render_blocks blocks) = negb (forallb all_well_shaped blocks)).
  { intros blocks. unfold render_blocks. rewrite throws_mapM.
    induction blocks as [| b blocks IH]; simpl; [reflexivity |].
    rewrite throws_bind_total by reflexivity.
    now rewrite negb_andb, IH, NotionBlockRenderer_throws. }
  split; [intros b H; now rewrite NotionBlockRenderer_throws, H |].
  split; [intros blocks H; now rewrite Hpage, H |].
  split.
  - intros width st Hl H. unfold content_body. rewrite Hl. simpl.
    destruct (blocks st) as [| b rest] eqn:Eb; [discriminate |].
    cbn [List.length Nat.ltb Nat.leb].
    assert (Ht : throws (render_blocks (b :: rest)) = true) by now rewrite Hpage, H.
    now destruct (render_blocks (b :: rest)).
  - intros width st Hl. unfold content_body. now rewrite Hl.
Qed.

Lemma ill_shaped_block_breaks_the_render_witness :
  throws (render_blocks
            [ text_block "h1" "heading_1" [plain "Intro"] None;
              text_block "t1" "toggle" [plain "more"] (Some [broken_image]) ])
  = true.
Proof.
  exact (proj1 (proj2 ill_shaped_block_breaks_the_render)
           [ text_block "h1" "heading_1" [plain "Intro"] None;
             text_block "t1" "toggle" [plain "more"] (Some [broken_image]) ]
           eq_refl).
Defined.

(** *** X6.  A media block (image, file, video, pdf) whose payload is
    neither [external] nor [file] resolves to the empty address and renders
    to nothing. *)
Theorem media_block_without_source_renders_nothing (i k : string) (d : Data.t)
    (nested : option (list NotionBlock)) :
  kind_in k media_kinds = true ->
  opt_is (Data.type d) "external" = false ->
  opt_is (Data.type d) "file" = false ->
  getMediaUrl (Some d) = Returns ""
  /\ NotionBlockRenderer (mkBlock i k (Some d) nested) = Returns NNull.
Proof.
  intros Hk He Hf.
  assert (Hu : getMediaUrl (Some d) = Returns "") by (unfold getMediaUrl; now rewrite He, Hf).
  split; [exact Hu |].
  cbn in Hk. repeat (apply orb_true_iff in Hk; destruct Hk as [Hk | Hk]); try discriminate;
    apply String.eqb_eq in Hk; subst k; cbn -[getMediaUrl]; now rewrite Hu.
Qed.

Lemma media_block_without_source_renders_nothing_witness :
  NotionBlockRenderer (mkBlock "v1" "video" (Some (payload [])) None) = Returns NNull.
Proof.
  exact (proj2 (@media_block_without_source_renders_nothing "v1" "video" (payload []) None
                  eq_refl eq_refl eq_refl)).
Defined.

(** *** X7.  Every link element of a rendered page, those of the rich text
    and those of the file and pdf cards, at any depth, has target [_blank]
    and rel [noopener noreferrer]. *)
Theorem every_rendered_link_is_safe (blocks : list NotionBlock) (page : list Node) :
  render_blocks blocks = Returns page -> forallb links_safe page = true.
Proof.
  intros H.
  refine (@children_links (fun c n => NKeyed (id c) n) blocks (fun _ _ => eq_refl) _ page H).
  apply Forall_forall. intros c _. apply NotionBlockRenderer_links.
Qed.

Lemma every_rendered_link_is_safe_witness :
  exists page, render_blocks linked_page = Returns page
               /\ forallb links_safe page = true.
Proof.
  eexists. split; [reflexivity |].
  exact (@every_rendered_link_is_safe linked_page _ eq_refl).
Defined.

(** ** The diagram component over its lifetime *)

Lemma renderChart_keeps_notice (lib : MermaidLib) (dark : bool) (rnd chart : string)
    (st : MermaidState) :
  truthy_opt (error st) = true -> renderChart lib dark rnd chart st = st.
Proof. intros H. unfold renderChart, ref_current. now rewrite H. Qed.

Lemma Mermaid_runs_keep_notice (runs : list EffectRun) (st : MermaidState) :
  truthy_opt (error st) = true ->
  fold_left (fun st r => renderChart (run_lib r) (run_dark r) (run_rnd r) (run_chart r) st)
            runs st = st.
Proof.
  intros H. induction runs as [| r runs IH]; simpl; [reflexivity |].
  now rewrite renderChart_keeps_notice.
Qed.

Lemma renderChart_from_container (r : EffectRun) (html : string) :
  renderChart (run_lib r) (run_dark r) (run_rnd r) (run_chart r)
    {| error := None; innerHTML := html |}
  = match run_outcome r with
    | Returns svg => {| error := None; innerHTML := svg |}
    | Throws _ => {| error := Some "Diagram preview unavailable"; innerHTML := html |}
    end.
Proof. reflexivity. Qed.

Lemma last_cons_default {A : Type} (l : list A) :
  forall a d, last (a :: l) d = last l a.
Proof.
  induction l as [| x l IH]; intros a d; [reflexivity |].
  change (last (a :: x :: l) d) with (last (x :: l) d).
  now rewrite (IH x d), (IH x a).
Qed.

Lemma Mermaid_runs_from (runs : list EffectRun) (html : string) :
  let final := fold_left
                 (fun st r => renderChart (run_lib r) (run_dark r) (run_rnd r) (run_chart r) st)
                 runs {| error := None; innerHTML := html |} in
  if existsb (fun r => throws (run_outcome r)) runs
  then error final = Some "Diagram preview unavailable"
  else final = {| error := None; innerHTML := last (map svg_of runs) html |}.
Proof.
  revert html. induction runs as [| r runs IH]; intros html; [reflexivity |].
  cbn [fold_left existsb map]. rewrite renderChart_from_container. unfold svg_of at 1.
  destruct (run_outcome r) as [svg | e]; cbn [throws orb].
  - specialize (IH svg). cbv zeta in IH.
    destruct (existsb (fun r0 => throws (run_outcome r0)) runs); [exact IH |].
    rewrite IH. f_equal. symmetry. apply last_cons_default.
  - now rewrite Mermaid_runs_keep_notice.
Qed.

(** When no run of the effect starts before the one before it has settled:
    once a run fails the instance shows the notice, whatever is compiled
    later; if no run fails, it shows the picture of the last run and no
    notice. *)
Lemma Mermaid_lifetime_outcome (runs : list EffectRun) :
  (existsb (fun r => throws (run_outcome r)) runs = true ->
   Mermaid (Mermaid_lifetime runs) = diagram_notice "Diagram preview unavailable")
  /\ (existsb (fun r => throws (run_outcome r)) runs = false ->
      Mermaid_lifetime runs = {| error := None; innerHTML := last (map svg_of runs) "" |}).
Proof.
  pose proof (Mermaid_runs_from runs "") as H. cbv zeta in H.
  fold Mermaid_initial in H. fold (Mermaid_lifetime runs) in H.
  split; intros E; rewrite E in H; [| exact H].
  unfold Mermaid. now rewrite H.
Qed.

Lemma Mermaid_lifetime_samples :
  Mermaid (Mermaid_lifetime drawn_rejected_redrawn)
  = diagram_notice "Diagram preview unavailable"
  /\ Mermaid_lifetime drawn_twice
     = {| error := None; innerHTML := "<svg id=mermaid-c/>" |}.
Proof.
  split.
  - exact (proj1 (Mermaid_lifetime_outcome drawn_rejected_redrawn) eq_refl).
  - exact (proj2 (Mermaid_lifetime_outcome drawn_twice) eq_refl).
Qed.

(** *** Runs of the effect that overlap *)

Lemma resume_nth_rejecting (runs : list EffectRun) :
  forall k, forallb (fun r => throws (awaited r)) runs = true ->
            forallb (fun r => throws (awaited r)) (resume_nth k runs) = true.
Proof.
  induction runs as [| r runs IH]; intros k H; [reflexivity |].
  simpl in H. apply andb_true_iff in H. destruct H as [Hr Hrs].
  destruct k as [| k]; simpl; [exact Hrs |]. now rewrite Hr, IH.
Qed.

Lemma nth_rejecting (runs : list EffectRun) :
  forall k r, forallb (fun r => throws (awaited r)) runs = true ->
              nth_error runs k = Some r -> throws (awaited r) = true.
Proof.
  induction runs as [| a runs IH]; intros k r H Hk; [now destruct k |].
  simpl in H. apply andb_true_iff in H. destruct H as [Ha Hrs].
  destruct k as [| k]; simpl in Hk; [now injection Hk as <- | exact (IH k r Hrs Hk)].
Qed.

(** While the notice is shown and every suspended run is going to reject, an
    event keeps both. *)
Lemma effect_step_keeps_notice (ev : EffectEvent) (s : Instance) :
  notice s = Some "Diagram preview unavailable" ->
  forallb (fun r => throws (awaited r)) (waiting s) = true ->
  notice (effect_step ev s) = Some "Diagram preview unavailable"
  /\ forallb (fun r => throws (awaited r)) (waiting (effect_step ev s)) = true
  /\ List.length (waiting (effect_step ev s)) <= List.length (waiting s).
Proof.
  intros Hn Hw. destruct ev as [r | k]; simpl.
  - rewrite Hn. simpl. auto.
  - destruct (nth_error (waiting s) k) as [r |] eqn:Hk; [| auto].
    simpl. pose proof (nth_rejecting _ _ Hw Hk) as Hr.
    destruct (awaited r); [discriminate |].
    split; [reflexivity |]. split; [now apply resume_nth_rejecting |].
    clear - s. generalize k. induction (waiting s) as [| a l IH]; intros [| j]; simpl; auto.
    specialize (IH j). lia.
Qed.

(** One run at a time is the run of [renderChart] as far as the notice
    goes. *)
Lemma one_at_a_time_step (r : EffectRun) (st : MermaidState) :
  effect_run [Starts r; Settles 0] {| notice := error st; waiting := [] |}
  = {| notice := error (renderChart (run_lib r) (run_dark r) (run_rnd r) (run_chart r) st);
       waiting := [] |}.
Proof.
  unfold effect_run, renderChart, ref_current, compile, awaited. simpl.
  destruct (truthy_opt (error st)); simpl; [reflexivity |].
  destruct (initialize (run_lib r) _); simpl; [| reflexivity].
  unfold awaited. now destruct (render (run_lib r) _ (run_chart r)).
Qed.

Lemma one_at_a_time_lifetime (runs : list EffectRun) :
  effect_run (one_at_a_time runs) Instance_initial
  = {| notice := error (Mermaid_lifetime runs); waiting := [] |}.
Proof.
  unfold Mermaid_lifetime, Instance_initial.
  change None with (error Mermaid_initial) at 1.
  generalize Mermaid_initial as st.
  induction runs as [| r runs IH]; intros st; [reflexivity |].
  unfold one_at_a_time, effect_run in *. simpl flat_map.
  change (Starts r :: Settles 0 :: flat_map (fun r0 => [Starts r0; Settles 0]) runs)
    with ([Starts r; Settles 0] ++ flat_map (fun r0 => [Starts r0; Settles 0]) runs).
  rewrite fold_left_app.
  change (fold_left (fun acc ev => effect_step ev acc) [Starts r; Settles 0]
            {| notice := error st; waiting := [] |})
    with (effect_run [Starts r; Settles 0] {| notice := error st; waiting := [] |}).
  rewrite one_at_a_time_step. apply IH.
Qed.

(** A run that was suspended when the notice came up and fulfils later
    clears the notice. *)
Lemma late_fulfilment_clears_the_notice :
  notice (effect_run overtaken_run Instance_initial) = Some "Diagram preview unavailable"
  /\ List.length (waiting (effect_run overtaken_run Instance_initial)) = 1
  /\ notice (effect_run (overtaken_run ++ [Settles 0]) Instance_initial) = None.
Proof. repeat split. Qed.

(** *** X8.  Runs of the effect of one diagram instance may overlap.  Once the
    notice is shown it stays, whatever descriptions follow and in whatever
    order renders settle, provided no run that was suspended at that time
    fulfils: a run that starts while the notice is shown finds no container
    and does nothing, so no new run is ever suspended.  In particular, with
    no run suspended the instance never changes again. *)
Theorem notice_stays_unless_a_waiting_run_fulfils (s : Instance) (evs : list EffectEvent) :
  notice s = Some "Diagram preview unavailable" ->
  forallb (fun r => throws (awaited r)) (waiting s) = true ->
  notice (effect_run evs s) = Some "Diagram preview unavailable"
  /\ (forall html,
        Mermaid {| error := notice (effect_run evs s); innerHTML := html |}
        = diagram_notice "Diagram preview unavailable")
  /\ List.length (waiting (effect_run evs s)) <= List.length (waiting s)
  /\ (waiting s = [] -> effect_run evs s = s).
Proof.
  intros Hn Hw.
  assert (H : notice (effect_run evs s) = Some "Diagram preview unavailable"
              /\ forallb (fun r => throws (awaited r)) (waiting (effect_run evs s)) = true
              /\ List.length (waiting (effect_run evs s)) <= List.length (waiting s)).
  { revert s Hn Hw. unfold effect_run.
    induction evs as [| ev evs IH]; intros s Hn Hw; simpl; [auto |].
    destruct (effect_step_keeps_notice ev s Hn Hw) as (Hn1 & Hw1 & Hl1).
    destruct (IH _ Hn1 Hw1) as (Hn2 & Hw2 & Hl2). repeat split; auto. lia. }
  destruct H as (Hn' & Hw' & Hl').
  split; [exact Hn' |]. split; [| split; [exact Hl' |]].
  - intros html. unfold Mermaid. simpl. now rewrite Hn'.
  - intros He. rewrite He in Hl'. simpl in Hl'.
    destruct (effect_run evs s) as [n w] eqn:E. simpl in *.
    destruct s as [n0 w0]. simpl in *. subst.
    destruct w; [reflexivity | simpl in Hl'; lia].
Qed.

Lemma notice_stays_unless_a_waiting_run_fulfils_witness :
  notice (effect_run
            [ Starts {| run_lib := drawing_mermaid; run_dark := true; run_rnd := "c";
                        run_chart := "graph LR" |};
              Settles 0; Settles 0 ]
            {| notice := Some "Diagram preview unavailable";
               waiting := [ {| run_lib := rejecting_mermaid; run_dark := false;
                               run_rnd := "b"; run_chart := "graph" |} ] |})
  = Some "Diagram preview unavailable".
Proof.
  exact (proj1 (@notice_stays_unless_a_waiting_run_fulfils
                  {| notice := Some "Diagram preview unavailable";
                     waiting := [ {| run_lib := rejecting_mermaid; run_dark := false;
                                     run_rnd := "b"; run_chart := "graph" |} ] |}
                  [ Starts {| run_lib := drawing_mermaid; run_dark := true; run_rnd := "c";
                              run_chart := "graph LR" |};
                    Settles 0; Settles 0 ]
                  eq_refl eq_refl)).
Defined.

(** ** More on the heading extractor *)


Lemma own_heading_Returns (b : NotionBlock) (e r : list Heading.t) :
  own_heading b e = Returns r -> has_text b.
Proof.
  destruct b as [i t d ch]. unfold own_heading, has_text, is_heading, spans_of; simpl.
  intros H Hh. rewrite Hh in H.
  destruct d as [d |]; [| discriminate].
  destruct (Data.rich_text d); [discriminate | discriminate H].
Qed.

Lemma scan_Returns_children (cs : list NotionBlock) :
  Forall (fun c => forall e r, scan_item c e = Returns r -> Forall has_text (preorder c)) cs ->
  forall e r, scan cs e = Returns r -> Forall has_text (flat_map preorder cs).
Proof.
  induction 1 as [| c cs Hc _ IH]; intros e r H; [constructor |].
  rewrite scan_cons in H.
  destruct (scan_item c e) as [e1 | err] eqn:E; simpl in H; [| discriminate].
  simpl. apply Forall_app. split; [exact (Hc e e1 E) | exact (IH e1 r H)].
Qed.

Lemma scan_item_Returns (b : NotionBlock) :
  forall e r, scan_item b e = Returns r -> Forall has_text (preorder b).
Proof.
  induction b as [i t d | i t d cs IH] using NotionBlock_tree_ind; intros e r H;
    rewrite scan_item_unfold in H;
    destruct (own_heading _ e) as [e1 | err] eqn:E; simpl in H; try discriminate;
    apply own_heading_Returns in E.
  - constructor; [exact E | constructor].
  - constructor; [exact E |]. exact (scan_Returns_children IH e1 H).
Qed.

Lemma headings_have_textb_spec (blocks : list NotionBlock) :
  headings_have_textb blocks = true <-> headings_have_text blocks.
Proof.
  unfold headings_have_textb, headings_have_text. rewrite forallb_forall, Forall_forall.
  split; intros H b Hb; specialize (H b Hb).
  - intros Hh. rewrite Hh in H. simpl in H. now destruct (spans_of b).
  - destruct (is_heading b); [| reflexivity]. simpl.
    destruct (spans_of b); [reflexivity |]. now contradiction H.
Qed.

Lemma headings_throw (blocks : list NotionBlock) :
  throws (headings blocks) = negb (headings_have_textb blocks).
Proof.
  pose proof (headings_agree blocks) as Ha.
  destruct (headings blocks) as [r | err] eqn:E; simpl in *.
  - assert (Hwf : headings_have_text blocks).
    { unfold headings, headings_have_text, preorder_all in *.
      apply (scan_Returns_children (cs := blocks)) with (e := []) (r := r); [| exact E].
      apply Forall_forall. intros c _. apply scan_item_Returns. }
    apply headings_have_textb_spec in Hwf. now rewrite Hwf.
  - destruct (headings_have_textb blocks) eqn:Hb; [| reflexivity].
    apply headings_have_textb_spec in Hb. contradiction.
Qed.

(** *** X9.  The heading extractor throws exactly when some heading block of
    the tree, at any depth, carries no rich text; otherwise it returns the
    titled heading entries in pre-order. *)
Theorem headings_throw_exactly_without_rich_text (blocks : list NotionBlock) :
  throws (headings blocks) = negb (headings_have_textb blocks)
  /\ (headings_have_textb blocks = true ->
      headings blocks = Returns (titled_heading_entries blocks)).
Proof.
  split; [apply headings_throw |]. intros H.
  pose proof (headings_throw blocks) as Ht. rewrite H in Ht.
  pose proof (headings_agree blocks) as Ha.
  destruct (headings blocks); [simpl in Ha; now subst | discriminate].
Qed.

Lemma headings_throw_exactly_without_rich_text_witness :
  throws (headings [mkBlock "h" "heading_1" None None]) = true
  /\ headings nested_page = Returns (titled_heading_entries nested_page).
Proof.
  split.
  - exact (proj1 (headings_throw_exactly_without_rich_text [mkBlock "h" "heading_1" None None])).
  - exact (proj2 (headings_throw_exactly_without_rich_text nested_page) eq_refl).
Defined.

(** *** X10.  The outline of two block lists put end to end is the outline
    of the first followed by the outline of the second, and extracting it
    throws exactly when it throws for one of the two. *)
Theorem headings_of_concatenated_pages (first second : list NotionBlock) :
  throws (headings (first ++ second)) = throws (headings first) || throws (headings second)
  /\ forall hs1 hs2,
       headings first = Returns hs1 -> headings second = Returns hs2 ->
       headings (first ++ second) = Returns (hs1 ++ hs2).
Proof.
  assert (Ht : throws (headings (first ++ second))
               = throws (headings first) || throws (headings second)).
  { rewrite !headings_throw. unfold headings_have_textb, preorder_all.
    now rewrite flat_map_app, forallb_app, negb_andb. }
  split; [exact Ht |]. intros hs1 hs2 H1 H2.
  rewrite H1, H2 in Ht. simpl in Ht.
  pose proof (headings_agree (first ++ second)) as Ha.
  pose proof (headings_agree first) as Ha1. pose proof (headings_agree second) as Ha2.
  rewrite H1 in Ha1. rewrite H2 in Ha2. simpl in Ha1, Ha2.
  destruct (headings (first ++ second)) as [r | err]; [| discriminate].
  simpl in Ha. subst. unfold preorder_all.
  now rewrite flat_map_app, filter_app, map_app.
Qed.

Lemma headings_of_concatenated_pages_witness :
  headings (untitled_page ++ nested_page)
  = Returns ([Heading.mk "h1" "Intro" (Num 1)]
             ++ [ Heading.mk "h1" "Intro" (Num 1); Heading.mk "h3" "Deep" (Num 3);
                  Heading.mk "h4" "Inner" (Num 2); Heading.mk "h2" "Details" (Num 2) ]).
Proof.
  exact (proj2 (headings_of_concatenated_pages untitled_page nested_page) _ _ eq_refl eq_refl).
Defined.

(** *** X11.  When the heading blocks of a tree are of the three kinds
    heading_1, heading_2 and heading_3, every extracted entry has level 1, 2
    or 3. *)
Theorem heading_levels_follow_kinds (blocks : list NotionBlock) (hs : list Heading.t) :
  headings blocks = Returns hs ->
  Forall (fun b => is_heading b = true -> kind_in (type b) anchor_kinds = true)
         (preorder_all blocks) ->
  Forall (fun h => Heading.level h = Num 1 \/ Heading.level h = Num 2
                   \/ Heading.level h = Num 3) hs.
Proof.
  intros H Hk. apply headings_Returns in H. subst hs.
  unfold titled_heading_entries. apply Forall_map, Forall_forall. intros b Hb.
  apply filter_In in Hb. destruct Hb as [Hin Ht].
  unfold titled_heading in Ht. apply andb_true_iff in Ht. destruct Ht as [Hh _].
  rewrite Forall_forall in Hk. specialize (Hk b Hin Hh).
  destruct b as [i k d ch]. cbn in Hk.
  repeat (apply orb_true_iff in Hk; destruct Hk as [Hk | Hk]); try discriminate;
    apply String.eqb_eq in Hk; subst k; cbn; auto.
Qed.

Lemma heading_levels_follow_kinds_witness :
  Forall (fun h => Heading.level h = Num 1 \/ Heading.level h = Num 2
                   \/ Heading.level h = Num 3)
         [ Heading.mk "h1" "Intro" (Num 1); Heading.mk "h3" "Deep" (Num 3);
           Heading.mk "h4" "Inner" (Num 2); Heading.mk "h2" "Details" (Num 2) ].
Proof.
  refine (@heading_levels_follow_kinds nested_page _ eq_refl _).
  apply Forall_forall. intros b Hb Hh. simpl in Hb.
  repeat (destruct Hb as [<- | Hb]; [first [reflexivity | discriminate Hh] |]).
  contradiction.
Defined.

(** *** X12.  On a page without nested blocks whose headings all have text,
    the simpler variant of the extractor and the recursive one return the
    same outline. *)
Theorem variants_agree_on_flat_titled_pages (blocks : list NotionBlock) :
  forallb childless blocks = true ->
  forallb (fun b => negb (is_heading b)
                    || match spans_of b with
                       | Some spans => truthy (join "" (map plain_text spans))
                       | None => false
                       end) blocks = true ->
  Legacy.headings blocks = headings blocks.
Proof.
  intros Hflat Htitled.
  assert (Hpre : preorder_all blocks = blocks).
  { clear Htitled. unfold preorder_all. induction blocks as [| b rest IH]; [reflexivity |].
    simpl in Hflat. apply andb_true_iff in Hflat. destruct Hflat as [Hb Hrest].
    simpl. rewrite (IH Hrest).
    destruct b as [i k d [[| c cs] |]]; try discriminate; reflexivity. }
  assert (Hb : headings_have_textb blocks = true).
  { unfold headings_have_textb. rewrite Hpre. rewrite forallb_forall in *.
    intros b Hin. specialize (Htitled b Hin).
    destruct (is_heading b); [| reflexivity]. simpl in *. now destruct (spans_of b). }
  pose proof (headings_throw blocks) as Ht. rewrite Hb in Ht.
  pose proof (headings_agree blocks) as Ha.
  destruct (headings blocks) as [r | err]; [simpl in Ha; subst r | discriminate].
  unfold titled_heading_entries. rewrite Hpre. clear Hpre Hb Ht Hflat.
  unfold Legacy.headings.
  induction blocks as [| b rest IH]; [reflexivity |].
  simpl in Htitled. apply andb_true_iff in Htitled. destruct Htitled as [Hb Hrest].
  specialize (IH Hrest). destruct b as [i k d ch].
  unfold is_heading, spans_of in Hb. simpl in Hb.
  cbn [filter map]. unfold titled_heading at 1, is_heading, heading_text, spans_of.
  simpl.
  destruct (startsWith k "heading_") eqn:Hh; simpl in Hb; simpl; [| exact IH].
  destruct d as [d |]; [| discriminate].
  destruct d as [rt ? ? ? ? ? ? ? ?]. simpl in Hb.
  destruct rt as [spans |]; [| discriminate].
  simpl. rewrite Hb. simpl.
  unfold Legacy.headings in IH. rewrite IH. reflexivity.
Qed.

Lemma variants_agree_on_flat_titled_pages_witness :
  Legacy.headings flat_page
  = Returns [Heading.mk "h1" "Intro" (Num 1); Heading.mk "h2" "Details" (Num 2)]
  /\ headings flat_page
     = Returns [Heading.mk "h1" "Intro" (Num 1); Heading.mk "h2" "Details" (Num 2)].
Proof.
  pose proof (@variants_agree_on_flat_titled_pages flat_page eq_refl eq_refl) as H.
  split; [rewrite H |]; reflexivity.
Defined.

(** ** More on the navigator *)

Lemma observer_callback_keeps_data (entries : list IntersectionObserverEntry) :
  forall st, blocks (observer_callback entries st) = blocks st
             /\ pageDetails (observer_callback entries st) = pageDetails st
             /\ loading (observer_callback entries st) = loading st.
Proof.
  unfold observer_callback.
  induction entries as [| e es IH]; intros st; simpl; [tauto |].
  destruct (isIntersecting e); [| apply IH].
  destruct (IH (setActiveSection (target_id e) st)) as (? & ? & ?). tauto.
Qed.

Lemma nav_step_keeps_data (ev : NavEvent) (st : ViewState) :
  blocks (nav_step ev st) = blocks st
  /\ pageDetails (nav_step ev st) = pageDetails st
  /\ loading (nav_step ev st) = loading st.
Proof.
  destruct ev as [entries | doc i]; simpl.
  - apply observer_callback_keeps_data.
  - unfold scrollToHeading. destruct (getElementById doc i); simpl; tauto.
Qed.

(** *** X13.  After any sequence of observer callbacks and outline clicks
    the active section is the one before the sequence or an identifier one of
    the events named, and the blocks, the page details and the loading flag
    are untouched. *)
Theorem navigation_names_the_active_section (evs : list NavEvent) (st : ViewState) :
  let final := fold_left (fun acc ev => nav_step ev acc) evs st in
  (activeSection final = activeSection st
   \/ In (activeSection final) (flat_map named_by evs))
  /\ blocks final = blocks st
  /\ pageDetails final = pageDetails st
  /\ loading final = loading st.
Proof.
  revert st. induction evs as [| ev evs IH]; intros st; simpl; [tauto |].
  destruct (IH (nav_step ev st)) as (Ha & Hb & Hd & Hl).
  destruct (nav_step_keeps_data ev st) as (Hb' & Hd' & Hl').
  repeat split; try congruence.
  destruct Ha as [Ha | Ha].
  - rewrite Ha. destruct (nav_step_active ev st) as [H | H]; [now left |].
    right. apply in_or_app. now left.
  - right. apply in_or_app. now right.
Qed.

(** ** More on the orchestrator *)

Lemma nth_error_middle {A : Type} (before : list A) (x : A) (after : list A) :
  nth_error (before ++ x :: after) (List.length before) = Some x.
Proof. induction before as [| a before IH]; simpl; [reflexivity | exact IH]. Qed.

Lemma replace_nth_middle {A : Type} (before : list A) (x y : A) (after : list A) :
  replace_nth (List.length before) y (before ++ x :: after) = before ++ y :: after.
Proof. induction before as [| a before IH]; simpl; [reflexivity | now rewrite IH]. Qed.

(** What a settling request of the run in the middle of the list does. *)
Lemma step_blocks_settle (v : ViewState) (before after : list Load) (fr : list ViewState)
    (l : Load) (r : JsResult (list NotionBlock)) :
  blocksData l = Pending ->
  let l' := {| load_id := load_id l; blocksData := Settled r;
               detailsData := detailsData l; resumed := resumed l |} in
  step (BlocksSettle (List.length before) r)
       {| view := v; loads := before ++ l :: after; frames := fr |}
  = if resumed l then {| view := v; loads := before ++ l' :: after; frames := fr |}
    else match Promise_all (Settled r) (detailsData l) with
         | Pending => {| view := v; loads := before ++ l' :: after; frames := fr |}
         | Settled outcome =>
             {| view := last (after_await outcome v) v;
                loads := before ++ {| load_id := load_id l; blocksData := Settled r;
                                      detailsData := detailsData l; resumed := true |} :: after;
                frames := fr ++ after_await outcome v |}
         end.
Proof.
  intros Hb. cbv zeta. simpl. rewrite nth_error_middle, Hb. unfold deliver. simpl.
  rewrite !replace_nth_middle.
  destruct (resumed l); [reflexivity |].
  now destruct (Promise_all (Settled r) (detailsData l)).
Qed.

Lemma step_details_settle (v : ViewState) (before after : list Load) (fr : list ViewState)
    (l : Load) (r : JsResult (option Page.t)) :
  detailsData l = Pending ->
  let l' := {| load_id := load_id l; blocksData := blocksData l;
               detailsData := Settled r; resumed := resumed l |} in
  step (DetailsSettle (List.length before) r)
       {| view := v; loads := before ++ l :: after; frames := fr |}
  = if resumed l then {| view := v; loads := before ++ l' :: after; frames := fr |}
    else match Promise_all (blocksData l) (Settled r) with
         | Pending => {| view := v; loads := before ++ l' :: after; frames := fr |}
         | Settled outcome =>
             {| view := last (after_await outcome v) v;
                loads := before ++ {| load_id := load_id l; blocksData := blocksData l;
                                      detailsData := Settled r; resumed := true |} :: after;
                frames := fr ++ after_await outcome v |}
         end.
Proof.
  intros Hd. cbv zeta. simpl. rewrite nth_error_middle, Hd. unfold deliver. simpl.
  rewrite !replace_nth_middle.
  destruct (resumed l); [reflexivity |].
  now destruct (Promise_all (blocksData l) (Settled r)).
Qed.


Lemma two_changes (o : Orchestrator) (first second : string) :
  run [ChangeId first; ChangeId second] o
  = {| view := setLoading true (view o);
       loads := loads o ++ [fresh_load first; fresh_load second];
       frames := frames o ++ [setLoading true (view o); setLoading true (view o)] |}.
Proof.
  unfold run. simpl. now rewrite <- !app_assoc.
Qed.

(** *** X14.  Two loads started one after the other are not told apart when
    they settle: if the answers of the older one arrive after those of the
    newer one, the view ends up showing the blocks and details of the older
    page, although the newer identifier was the last one asked for. *)
Theorem stale_response_overwrites_newer_page (o : Orchestrator) (older newer : string)
    (b_old b_new : list NotionBlock) (d_old d_new : option Page.t) :
  let k := List.length (loads o) in
  let started := run [ChangeId older; ChangeId newer] o in
  let newer_shown :=
    run [BlocksSettle (S k) (Returns b_new); DetailsSettle (S k) (Returns d_new)] started in
  let final :=
    run [BlocksSettle k (Returns b_old); DetailsSettle k (Returns d_old)] newer_shown in
  (blocks (view newer_shown) = b_new /\ pageDetails (view newer_shown) = d_new
   /\ loading (view newer_shown) = false)
  /\ (blocks (view final) = b_old /\ pageDetails (view final) = d_old
      /\ loading (view final) = false)
  /\ option_map load_id (nth_error (loads final) (S k)) = Some newer
  /\ List.length (loads final) = S (S k).
Proof.
  destruct o as [v L F]. cbv zeta. rewrite two_changes. cbn [view loads frames].
  set (fr := F ++ [setLoading true v; setLoading true v]).
  assert (Hk : S (List.length L) = List.length (L ++ [fresh_load older]))
    by (rewrite length_app; simpl; lia).
  assert (Hnew :
    run [BlocksSettle (S (List.length L)) (Returns b_new);
         DetailsSettle (S (List.length L)) (Returns d_new)]
        {| view := setLoading true v;
           loads := L ++ [fresh_load older; fresh_load newer]; frames := fr |}
    = {| view := setLoading false (setPageDetails d_new (setBlocks b_new (setLoading true v)));
         loads := L ++ [ fresh_load older;
                         {| load_id := newer; blocksData := Settled (Returns b_new);
                            detailsData := Settled (Returns d_new); resumed := true |} ];
         frames := fr ++ after_await (Returns (b_new, d_new)) (setLoading true v) |}).
  { unfold run. cbn [fold_left]. rewrite Hk.
    change (L ++ [fresh_load older; fresh_load newer])
      with (L ++ [fresh_load older] ++ [fresh_load newer]).
    rewrite app_assoc.
    rewrite (step_blocks_settle _ (L ++ [fresh_load older]) [] fr (fresh_load newer)
               (Returns b_new) eq_refl).
    cbn [fresh_load resumed detailsData Promise_all load_id].
    rewrite (step_details_settle _ (L ++ [fresh_load older]) [] fr
               {| load_id := newer; blocksData := Settled (Returns b_new);
                  detailsData := Pending; resumed := false |} (Returns d_new) eq_refl).
    cbn [resumed blocksData Promise_all load_id last after_await detailsData].
    now rewrite <- app_assoc. }
  rewrite Hnew. cbn [view].
  split; [repeat split |].
  unfold run. cbn [fold_left].
  match goal with
  | |- context [{| view := ?w; loads := L ++ [fresh_load older; ?done]; frames := ?f |}] =>
      set (lb := done); set (vw := w); set (ff := f)
  end.
  change (L ++ [fresh_load older; lb]) with (L ++ fresh_load older :: [lb]).
  rewrite (step_blocks_settle vw L [lb] ff (fresh_load older) (Returns b_old) eq_refl).
  cbn [fresh_load resumed detailsData Promise_all load_id].
  rewrite (step_details_settle vw L [lb] ff
             {| load_id := older; blocksData := Settled (Returns b_old);
                detailsData := Pending; resumed := false |} (Returns d_old) eq_refl).
  cbn [resumed blocksData Promise_all load_id last after_await detailsData view loads].
  split; [repeat split |]. split.
  - rewrite Hk. change (L ++ ?x :: [lb]) with (L ++ [x] ++ [lb]). rewrite app_assoc.
    replace (List.length (L ++ [fresh_load older]))
      with (List.length (L ++ [{| load_id := older; blocksData := Settled (Returns b_old);
                                  detailsData := Settled (Returns d_old); resumed := true |}]))
      by (rewrite !length_app; reflexivity).
    now rewrite nth_error_middle.
  - rewrite length_app. simpl. lia.
Qed.

Lemma one_change (o : Orchestrator) (article_id : string) :
  step (ChangeId article_id) o
  = {| view := setLoading true (view o);
       loads := loads o ++ fresh_load article_id :: [];
       frames := frames o ++ [setLoading true (view o)] |}.
Proof. reflexivity. Qed.

(** *** X15.  When one of the two requests of a load rejects, the run resumes
    at once, stores nothing and clears the loading flag; the answer of the
    other request, earlier or later, is never shown. *)
Theorem rejection_resumes_at_once_and_drops_the_rest (o : Orchestrator)
    (article_id e : string) (b : list NotionBlock) (d : option Page.t) :
  let k := List.length (loads o) in
  let o1 := step (ChangeId article_id) o in
  view (step (BlocksSettle k (Throws e)) o1) = setLoading false (view o)
  /\ view (step (DetailsSettle k (Throws e)) o1) = setLoading false (view o)
  /\ view (run [BlocksSettle k (Throws e); DetailsSettle k (Returns d)] o1)
     = setLoading false (view o)
  /\ view (run [DetailsSettle k (Throws e); BlocksSettle k (Returns b)] o1)
     = setLoading false (view o)
  /\ view (run [BlocksSettle k (Returns b); DetailsSettle k (Throws e)] o1)
     = setLoading false (view o)
  /\ view (run [DetailsSettle k (Returns d); BlocksSettle k (Throws e)] o1)
     = setLoading false (view o).
Proof.
  cbv zeta. rewrite one_change. unfold run. cbn [fold_left].
  repeat split;
    repeat (first [ rewrite step_blocks_settle by reflexivity
                  | rewrite step_details_settle by reflexivity ];
            cbn [fresh_load resumed detailsData blocksData Promise_all load_id
                 after_await last]);
    reflexivity.
Qed.

Lemma getPageBlocks_failure (env : Env) (fetch : Request -> JsResult (Response BlocksBody))
    (blockId : string) :
  blocks_fetch_fails env fetch blockId = true ->
  getPageBlocks env fetch blockId = Returns [].
Proof.
  unfold blocks_fetch_fails, getPageBlocks.
  change {| req_url := ("/api/notion/blocks/" ++ blockId ++ "/children?page_size=100")%string;
            req_method := "GET";
            req_headers := auth_headers (VITE_NOTION_API_KEY env) |}
    with (blocks_request env blockId).
  destruct (key_unusable (VITE_NOTION_API_KEY env)); [reflexivity |]. simpl.
  destruct (fetch (blocks_request env blockId)) as [response | err]; [| reflexivity]. simpl.
  destruct (ok response); [| reflexivity]. simpl.
  destruct (json response) as [[body |] | err]; simpl; [discriminate | reflexivity | reflexivity].
Qed.

(** ** Loads that do not overlap *)

(** *** C7, the claim as stated fails.  When the identifier changes twice in
    a row and the first load is answered first, the loading flag is cleared
    and the content of the first page is presented while both requests of the
    second load are still pending; when they are answered, the component
    passes through a state that shows the new blocks with the old details. *)
Lemma overlapping_load_clears_flag_early :
  flag_waits_for_every_load (run overlapped_loads Orchestrator_initial) = false
  /\ nth_error (loads (run overlapped_loads Orchestrator_initial)) 1 = Some (fresh_load "new")
  /\ loading (view (run overlapped_loads Orchestrator_initial)) = false
  /\ content_body (fun _ => "50%") (view (run overlapped_loads Orchestrator_initial))
     <> Returns (content_wrapper (skeleton (fun _ => "50%")))
  /\ In {| blocks := untitled_page; pageDetails := old_details; loading := false;
           activeSection := "" |}
        (frames (run (overlapped_loads
                        ++ [BlocksSettle 1 (Returns untitled_page);
                            DetailsSettle 1 (Returns None)])
                     Orchestrator_initial)).
Proof.
  split; [reflexivity |]. split; [reflexivity |]. split; [reflexivity |].
  split; [vm_compute; discriminate |].
  vm_compute. tauto.
Qed.

Lemma forallb_resumed_middle (e1 e2 : list Load) (x x' : Load) :
  forallb resumed (e1 ++ x :: e2) = true -> resumed x' = true ->
  forallb resumed (e1 ++ x' :: e2) = true.
Proof.
  rewrite !forallb_app. simpl. intros H Hx. rewrite Hx.
  apply andb_true_iff in H. destruct H as [H1 H2].
  apply andb_true_iff in H2. destruct H2 as [_ H2]. now rewrite H1, H2.
Qed.

(** A request of an earlier run that settles changes neither the view nor
    the frames, and the run started last stays last. *)
Lemma settle_of_earlier_run (v : ViewState) (earlier : list Load) (l : Load)
    (fr : list ViewState) (j : nat) (ev : Event) :
  forallb resumed earlier = true -> j < List.length earlier ->
  (exists r, ev = BlocksSettle j r) \/ (exists r, ev = DetailsSettle j r) ->
  exists earlier',
    step ev {| view := v; loads := earlier ++ [l]; frames := fr |}
    = {| view := v; loads := earlier' ++ [l]; frames := fr |}
    /\ List.length earlier' = List.length earlier
    /\ forallb resumed earlier' = true.
Proof.
  intros He Hj Hev.
  destruct (nth_error earlier j) as [x |] eqn:Hx;
    [| apply nth_error_None in Hx; lia].
  destruct (nth_error_split earlier j Hx) as (e1 & e2 & -> & Hlen). subst j.
  assert (Hrx : resumed x = true).
  { rewrite forallb_app in He. apply andb_true_iff in He. destruct He as [_ He].
    simpl in He. now apply andb_true_iff in He. }
  rewrite <- app_assoc. cbn [app].
  destruct Hev as [[r ->] | [r ->]].
  - destruct (blocksData x) eqn:Hb.
    + rewrite (@step_blocks_settle v e1 (e2 ++ [l]) fr x r Hb). rewrite Hrx.
      eexists (e1 ++ _ :: e2). rewrite <- app_assoc. cbn [app].
      split; [reflexivity |]. split; [now rewrite !length_app |].
      now apply (@forallb_resumed_middle e1 e2 x).
    + exists (e1 ++ x :: e2). rewrite <- app_assoc. cbn [app].
      split; [| split; [reflexivity | exact He]].
      simpl. now rewrite nth_error_middle, Hb.
  - destruct (detailsData x) eqn:Hd.
    + rewrite (@step_details_settle v e1 (e2 ++ [l]) fr x r Hd). rewrite Hrx.
      eexists (e1 ++ _ :: e2). rewrite <- app_assoc. cbn [app].
      split; [reflexivity |]. split; [now rewrite !length_app |].
      now apply (@forallb_resumed_middle e1 e2 x).
    + exists (e1 ++ x :: e2). rewrite <- app_assoc. cbn [app].
      split; [| split; [reflexivity | exact He]].
      simpl. now rewrite nth_error_middle, Hd.
Qed.

Lemma settle_past_the_last_run (o' : Orchestrator) (j : nat) (ev : Event) :
  List.length (loads o') <= j ->
  (exists r, ev = BlocksSettle j r) \/ (exists r, ev = DetailsSettle j r) ->
  step ev o' = o'.
Proof.
  intros Hj Hev. apply nth_error_None in Hj.
  destruct Hev as [[r ->] | [r ->]]; simpl; now rewrite Hj.
Qed.

(** A quiet event keeps the run started last alone. *)
Lemma lone_load_step (o : Orchestrator) (article_id : string) (ev : Event)
    (o' : Orchestrator) :
  quiet ev = true -> lone_load o article_id o' -> lone_load o article_id (step ev o').
Proof.
  intros Hq (earlier & l & Hloads & Hlen & He & Hid & Hrej & Hphase).
  destruct o' as [v ls fr]. simpl in Hloads, Hphase. subst ls.
  assert (Hcases : exists j, ((exists r, ev = BlocksSettle j r)
                              \/ (exists r, ev = DetailsSettle j r))).
  { destruct ev as [a | j r | j r]; [discriminate | |]; exists j; eauto. }
  destruct Hcases as [j Hev].
  destruct (Nat.lt_trichotomy j (List.length earlier)) as [Hj | [Hj | Hj]].
  - destruct (@settle_of_earlier_run v earlier l fr j ev He Hj Hev)
      as (earlier' & -> & Hlen' & He').
    exists earlier', l. simpl. repeat split; try assumption. congruence.
  - subst j. destruct Hev as [[r ->] | [r ->]]; destruct r as [x | e]; try discriminate.
    + destruct (blocksData l) as [| rb] eqn:Hb.
      * rewrite (@step_blocks_settle v earlier [] fr l (Returns x) Hb).
        unfold both_fulfilled in Hphase. rewrite Hb in Hphase.
        destruct Hphase as (Hr & -> & ->). rewrite Hr.
        unfold rejected in Hrej. rewrite Hb in Hrej.
        destruct (detailsData l) as [| [d | e]] eqn:Hd; simpl; [| | discriminate].
        -- eexists earlier, _. simpl. split; [reflexivity |].
           unfold rejected, both_fulfilled. simpl. try rewrite Hd. repeat split; try assumption; reflexivity.
        -- eexists earlier, _. simpl. split; [reflexivity |].
           unfold rejected, both_fulfilled. simpl. try rewrite Hd.
           repeat split; try assumption; try reflexivity. now rewrite <- app_assoc.
      * replace (step (BlocksSettle (List.length earlier) (Returns x))
                   {| view := v; loads := earlier ++ [l]; frames := fr |})
          with {| view := v; loads := earlier ++ [l]; frames := fr |}
          by (simpl; now rewrite nth_error_middle, Hb).
        exists earlier, l. repeat split; assumption.
    + destruct (detailsData l) as [| rd] eqn:Hd.
      * rewrite (@step_details_settle v earlier [] fr l (Returns x) Hd).
        unfold both_fulfilled in Hphase. unfold rejected in Hrej.
        destruct (blocksData l) as [| [b | e]] eqn:Hb;
          try rewrite Hd in Hphase; try rewrite Hd in Hrej;
          [| | discriminate]; destruct Hphase as (Hr & -> & ->); rewrite Hr; simpl.
        -- eexists earlier, _. simpl. split; [reflexivity |].
           unfold rejected, both_fulfilled. simpl. try rewrite Hb. repeat split; try assumption; reflexivity.
        -- eexists earlier, _. simpl. split; [reflexivity |].
           unfold rejected, both_fulfilled. simpl. try rewrite Hb.
           repeat split; try assumption; try reflexivity. now rewrite <- app_assoc.
      * replace (step (DetailsSettle (List.length earlier) (Returns x))
                   {| view := v; loads := earlier ++ [l]; frames := fr |})
          with {| view := v; loads := earlier ++ [l]; frames := fr |}
          by (simpl; now rewrite nth_error_middle, Hd).
        exists earlier, l. repeat split; assumption.
  - rewrite (@settle_past_the_last_run
               {| view := v; loads := earlier ++ [l]; frames := fr |} j ev);
      [| simpl; rewrite length_app; simpl; lia | exact Hev].
    exists earlier, l. simpl. repeat split; assumption.
Qed.

Lemma lone_load_run (o : Orchestrator) (article_id : string) (evs : list Event) :
  forallb quiet evs = true ->
  forall o', lone_load o article_id o' -> lone_load o article_id (run evs o').
Proof.
  unfold run. induction evs as [| ev evs IH]; intros Hq o' H; [exact H |].
  simpl in Hq. apply andb_true_iff in Hq. destruct Hq as [Hev Hevs].
  simpl. apply (IH Hevs). now apply lone_load_step.
Qed.

(** *** C7, amended.  For every change of the content identifier made while
    no earlier load is waiting, and followed by no further change and no
    rejected request: the orchestrator sets the loading flag and issues both
    requests; whatever else settles, and in whatever order, the state and
    the frames are those of the start as long as one of the two requests is
    pending, so the content area is the placeholder skeleton; once both are
    fulfilled the block tree and the page metadata are stored and only then
    is the loading flag cleared, every state passed through before that one
    still having the flag set. *)
Theorem lone_load_joins_before_showing (o : Orchestrator) (article_id : string)
    (evs : list Event) :
  forallb resumed (loads o) = true ->
  forallb quiet evs = true ->
  let k := List.length (loads o) in
  let o1 := step (ChangeId article_id) o in
  let final := run evs o1 in
  (loading (view o1) = true
   /\ blocks (view o1) = blocks (view o)
   /\ pageDetails (view o1) = pageDetails (view o)
   /\ nth_error (loads o1) k = Some (fresh_load article_id))
  /\ (exists l,
        nth_error (loads final) k = Some l /\ load_id l = article_id
        /\ match both_fulfilled l with
           | Some (b, d) =>
               view final = {| blocks := b; pageDetails := d; loading := false;
                               activeSection := activeSection (view o) |}
               /\ frames final = frames o ++ loadPageData (Returns (b, d)) (view o)
           | None =>
               view final = view o1 /\ frames final = frames o1
               /\ forall width,
                    content_body width (view final)
                    = Returns (content_wrapper (skeleton width))
           end)
  /\ (forall b d,
        exists s1 s2 loaded,
          loadPageData (Returns (b, d)) (view o) = [view o1; s1; s2; loaded]
          /\ loading s1 = true /\ loading s2 = true
          /\ loaded = {| blocks := b; pageDetails := d; loading := false;
                         activeSection := activeSection (view o) |})
  /\ (forall width st, loading st = true ->
        content_body width st = Returns (content_wrapper (skeleton width))).
Proof.
  intros Hidle Hq k o1 final.
  assert (Hskel : forall width st, loading st = true ->
            content_body width st = Returns (content_wrapper (skeleton width)))
    by (intros width st Hl; unfold content_body; now rewrite Hl).
  split; [repeat split; subst o1 k; simpl; apply nth_error_last |].
  split; [| split; [| exact Hskel]].
  - assert (Hstart : lone_load o article_id o1).
    { exists (loads o), (fresh_load article_id). subst o1. simpl.
      repeat split; auto. }
    destruct (@lone_load_run o article_id evs Hq o1 Hstart)
      as (earlier & l & Hloads & Hlen & _ & Hid & _ & Hphase).
    fold final in Hloads, Hphase.
    exists l. split; [subst k; rewrite Hloads, <- Hlen; apply nth_error_last |].
    split; [exact Hid |].
    destruct (both_fulfilled l) as [[b d] |].
    + destruct Hphase as (_ & Hv & Hf). now split.
    + destruct Hphase as (_ & Hv & Hf). split; [exact Hv |]. split; [exact Hf |].
      intros width. apply Hskel. now rewrite Hv.
  - intros b d. do 3 eexists. split; [reflexivity |]. repeat split.
Qed.

Lemma lone_load_joins_before_showing_witness :
  view (run [ BlocksSettle 0 (Returns untitled_page);
              BlocksSettle 1 (Returns untitled_page) ]
            (step (ChangeId "new") old_page_shown))
  = setLoading true (view old_page_shown)
  /\ view (run [ BlocksSettle 0 (Returns untitled_page);
                 BlocksSettle 1 (Returns untitled_page);
                 DetailsSettle 1 (Returns None) ]
               (step (ChangeId "new") old_page_shown))
     = {| blocks := untitled_page; pageDetails := None; loading := false;
          activeSection := "" |}.
Proof.
  split.
  - destruct (@lone_load_joins_before_showing old_page_shown "new"
                [ BlocksSettle 0 (Returns untitled_page);
                  BlocksSettle 1 (Returns untitled_page) ] eq_refl eq_refl)
      as (_ & (l & Hl & _ & Hm) & _).
    vm_compute in Hl. injection Hl as <-. exact (proj1 Hm).
  - destruct (@lone_load_joins_before_showing old_page_shown "new"
                [ BlocksSettle 0 (Returns untitled_page);
                  BlocksSettle 1 (Returns untitled_page);
                  DetailsSettle 1 (Returns None) ] eq_refl eq_refl)
      as (_ & (l & Hl & _ & Hm) & _).
    vm_compute in Hl. injection Hl as <-. exact (proj1 Hm).
Defined.

(** *** X16.  When the block fetch of a load fails in any of its modes
    (unusable key, rejected request, answer that is not OK, unreadable body),
    the load still completes: no block is stored, loading ends, and the
    content area shows the placeholder for unavailable entry data. *)
Theorem failed_block_fetch_shows_placeholder (o : Orchestrator) (env : Env)
    (fetch : Request -> JsResult (Response BlocksBody)) (article_id : string)
    (d : option Page.t) (width : nat -> string) :
  blocks_fetch_fails env fetch article_id = true ->
  let k := List.length (loads o) in
  let loaded := run [ ChangeId article_id;
                      BlocksSettle k (getPageBlocks env fetch article_id);
                      DetailsSettle k (Returns d) ] o in
  blocks (view loaded) = []
  /\ loading (view loaded) = false
  /\ content_body width (view loaded)
     = Returns (content_wrapper (NElem "div" [className "content-root"] [entry_unavailable])).
Proof.
  intros Hfail. cbv zeta. rewrite (getPageBlocks_failure env fetch article_id Hfail).
  unfold run. cbn [fold_left]. rewrite one_change.
  rewrite step_blocks_settle by reflexivity.
  cbn [fresh_load resumed detailsData Promise_all load_id].
  rewrite (step_details_settle _ (loads o) [] _
             {| load_id := article_id; blocksData := Settled (Returns []);
                detailsData := Pending; resumed := false |} (Returns d) eq_refl).
  repeat split.
Qed.

Lemma failed_block_fetch_shows_placeholder_witness :
  node_text
    match content_body (fun _ => "50%")
            (view (run [ ChangeId "page-1";
                         BlocksSettle 0 (getPageBlocks keyed_env forbidden "page-1");
                         DetailsSettle 0 (Returns None) ] Orchestrator_initial)) with
    | Returns n => n
    | Throws _ => NNull
    end = "Entry Data Unavailable".
Proof.
  destruct (@failed_block_fetch_shows_placeholder Orchestrator_initial keyed_env forbidden
              "page-1" None (fun _ => "50%") eq_refl) as (_ & _ & H).
  cbv zeta in H. simpl List.length in H. rewrite H. reflexivity.
Defined.


(** ** The rest of the content client *)

Lemma search_outcome (env : Env) (dbId : option string)
    (fetch : PostRequest -> JsResult QueryResponse) (query : string) :
  searchNotionDatabase env dbId fetch query
  = Returns match query_body env (search_request env dbId query) fetch with
            | Some body => q_results body
            | None => Some []
            end.
Proof.
  unfold searchNotionDatabase, query_body.
  destruct (key_unusable (VITE_NOTION_API_KEY env)); [reflexivity |].
  destruct (fetch (search_request env dbId query)) as [response | err]; [| reflexivity].
  simpl. destruct (q_ok response); simpl.
  - now destruct (q_json response) as [[body |] | err].
  - now destruct (q_text response).
Qed.

Lemma stats_outcome (env : Env) (dbId : option string)
    (fetch : PostRequest -> JsResult QueryResponse) :
  getDatabaseStats env dbId fetch
  = Returns match query_body env (stats_request env dbId) fetch with
            | Some body => match q_results body with
                           | Some results => List.length results
                           | None => 0
                           end
            | None => 0
            end.
Proof.
  unfold getDatabaseStats, query_body.
  destruct (key_unusable (VITE_NOTION_API_KEY env)); [reflexivity |].
  destruct (fetch (stats_request env dbId)) as [response | err]; [| reflexivity].
  simpl. destruct (q_ok response); simpl; [| reflexivity].
  destruct (q_json response) as [[body |] | err]; simpl; try reflexivity.
  now destruct (q_results body).
Qed.

Lemma query_body_same_answer (env : Env) (r1 r2 : PostRequest)
    (fetch : PostRequest -> JsResult QueryResponse) :
  fetch r1 = fetch r2 -> query_body env r1 fetch = query_body env r2 fetch.
Proof. intros H. unfold query_body. now rewrite H. Qed.

(** *** X17.  The database search never raises.  Without a usable key, when
    the request is rejected, when the answer is not OK (also when reading its
    text fails) and when the body does not parse or is [null], it returns the
    empty list; otherwise it returns the [results] of the body, which is
    [undefined] when the body has none. *)
Theorem search_never_raises (env : Env) (dbId : option string)
    (fetch : PostRequest -> JsResult QueryResponse) (query : string) :
  throws (searchNotionDatabase env dbId fetch query) = false
  /\ (query_body env (search_request env dbId query) fetch = None ->
      searchNotionDatabase env dbId fetch query = Returns (Some []))
  /\ (forall body,
        query_body env (search_request env dbId query) fetch = Some body ->
        searchNotionDatabase env dbId fetch query = Returns (q_results body)).
Proof.
  rewrite search_outcome. split; [reflexivity |].
  split; [intros -> | intros body ->]; reflexivity.
Qed.

Lemma search_never_raises_witness :
  searchNotionDatabase keyed_env None
    (fun _ => Returns {| q_ok := false; q_text := Throws "stream error"; q_json := Returns None |})
    "rocq"
  = Returns (Some [])
  /\ searchNotionDatabase keyed_env None
       (fun _ => Returns {| q_ok := true; q_text := Returns "{}";
                            q_json := Returns (Some {| q_results := None |}) |})
       "rocq"
     = Returns None.
Proof.
  split.
  - exact (proj1 (proj2 (@search_never_raises keyed_env None
                           (fun _ => Returns {| q_ok := false; q_text := Throws "stream error";
                                                q_json := Returns None |}) "rocq")) eq_refl).
  - exact (proj2 (proj2 (@search_never_raises keyed_env None
                           (fun _ => Returns {| q_ok := true; q_text := Returns "{}";
                                                q_json := Returns (Some {| q_results := None |}) |})
                           "rocq")) {| q_results := None |} eq_refl).
Defined.

(** *** X18.  The database statistics never raise, and when the statistics
    query gets the answer the search gets, the count is the number of pages
    the search returns, 0 when the search returns [undefined]. *)
Theorem stats_count_the_search_results (env : Env) (dbId : option string)
    (fetch : PostRequest -> JsResult QueryResponse) (query : string) :
  throws (getDatabaseStats env dbId fetch) = false
  /\ (fetch (stats_request env dbId) = fetch (search_request env dbId query) ->
      getDatabaseStats env dbId fetch
      = Returns match searchNotionDatabase env dbId fetch query with
                | Returns (Some pages) => List.length pages
                | Returns None | Throws _ => 0
                end).
Proof.
  rewrite stats_outcome, search_outcome. split; [reflexivity |].
  intros H. rewrite (query_body_same_answer env _ _ fetch H).
  destruct (query_body env (search_request env dbId query) fetch) as [body |]; [| reflexivity].
  now destruct (q_results body).
Qed.

Lemma stats_count_the_search_results_witness :
  getDatabaseStats keyed_env (Some "db1")
    (fun _ => Returns {| q_ok := true; q_text := Returns "";
                         q_json := Returns (Some {| q_results :=
                                                      Some [Page.mk "a" "u" None None;
                                                            Page.mk "b" "v" None None] |}) |})
  = Returns 2.
Proof.
  exact (proj2 (@stats_count_the_search_results keyed_env (Some "db1")
                  (fun _ => Returns {| q_ok := true; q_text := Returns "";
                                       q_json := Returns (Some {| q_results :=
                                                                    Some [Page.mk "a" "u" None None;
                                                                          Page.mk "b" "v" None None] |}) |})
                  "a") eq_refl).
Defined.

Lemma Untyped_getPageBlocks_outcome (env : Env)
    (fetch : Request -> JsResult (Response Untyped.BlocksBody)) (blockId : string) :
  Untyped.getPageBlocks env fetch blockId
  = Returns match Untyped.fetched_body env fetch blockId with
            | Some body => Untyped.results body
            | None => Some []
            end.
Proof.
  unfold Untyped.getPageBlocks, Untyped.fetched_body.
  change {| req_url := ("/api/notion/blocks/" ++ blockId ++ "/children?page_size=100")%string;
            req_method := "GET";
            req_headers := auth_headers (VITE_NOTION_API_KEY env) |}
    with (blocks_request env blockId).
  destruct (key_unusable (VITE_NOTION_API_KEY env)); [reflexivity |].
  destruct (fetch (blocks_request env blockId)) as [response | err]; [| reflexivity].
  simpl. destruct (ok response); simpl; [| reflexivity].
  now destruct (json response) as [[body |] | err].
Qed.

(** On bodies of the declared type the block fetch as it runs is the typed
    one. *)
Lemma Untyped_getPageBlocks_declared (env : Env)
    (fetch : Request -> JsResult (Response BlocksBody)) (blockId : string) :
  Untyped.getPageBlocks env (fun q => r <- fetch q ;; Returns (as_it_arrives r)) blockId
  = (fetched <- getPageBlocks env fetch blockId ;; Returns (Some fetched)).
Proof.
  unfold Untyped.getPageBlocks, getPageBlocks.
  destruct (key_unusable (VITE_NOTION_API_KEY env)); [reflexivity |].
  match goal with |- context [fetch ?q] => destruct (fetch q) as [response | err] end;
    [| reflexivity].
  simpl. destruct (ok response); simpl; [| reflexivity].
  now destruct (json response) as [[body |] | err].
Qed.

(** *** X19.  The text export of a page raises exactly when the block fetch
    gets an OK answer whose body parses to an object without [results]: the
    fetch then returns [undefined] and the export calls [map] on it outside
    any [try].  When the fetch fails (unusable key, rejected request, answer
    that is not OK, body that does not parse or is [null]) the export is the
    empty string, and otherwise it is the texts of the fetched top-level
    blocks (empty for a block without rich text) joined by blank lines. *)
Theorem page_content_raises_without_results (env : Env)
    (fetch : Request -> JsResult (Response Untyped.BlocksBody)) (pageId : string) :
  throws (Untyped.getPageContent env fetch pageId)
  = match Untyped.fetched_body env fetch pageId with
    | Some body => match Untyped.results body with Some _ => false | None => true end
    | None => false
    end
  /\ (Untyped.fetched_body env fetch pageId = None ->
      Untyped.getPageContent env fetch pageId = Returns "")
  /\ (forall body fetched,
        Untyped.fetched_body env fetch pageId = Some body ->
        Untyped.results body = Some fetched ->
        Untyped.getPageContent env fetch pageId
        = Returns (join blank_line (map heading_text fetched))).
Proof.
  unfold Untyped.getPageContent. rewrite Untyped_getPageBlocks_outcome.
  split; [| split].
  - destruct (Untyped.fetched_body env fetch pageId) as [body |]; [| reflexivity].
    now destruct (Untyped.results body).
  - now intros ->.
  - intros body fetched -> Hr. rewrite Hr. simpl. do 2 f_equal. apply map_ext. intros b.
    unfold heading_text, spans_of. now destruct (data b).
Qed.

Lemma page_content_raises_without_results_witness :
  Untyped.getPageContent keyed_env garbled "page-1" = Returns ""
  /\ throws (Untyped.getPageContent keyed_env without_results "page-1") = true
  /\ Untyped.getPageContent keyed_env
       (fun _ => Returns {| ok := true;
                            json := Returns (Some {| Untyped.results :=
                                                       Some (untitled_page
                                                             ++ [mkBlock "x" "divider" None None]) |}) |})
       "page-1"
     = Returns (join blank_line ["Intro"; ""; ""]).
Proof.
  split; [| split].
  - exact (proj1 (proj2 (page_content_raises_without_results keyed_env garbled "page-1"))
             eq_refl).
  - exact (proj1 (page_content_raises_without_results keyed_env without_results "page-1")).
  - exact (proj2 (proj2 (page_content_raises_without_results keyed_env
             (fun _ => Returns {| ok := true;
                                  json := Returns (Some {| Untyped.results :=
                                                             Some (untitled_page
                                                                   ++ [mkBlock "x" "divider" None None]) |}) |})
             "page-1"))
             {| Untyped.results := Some (untitled_page ++ [mkBlock "x" "divider" None None]) |}
             (untitled_page ++ [mkBlock "x" "divider" None None]) eq_refl eq_refl).
Defined.

(** ** The development proxy and the relay endpoint *)

Lemma prefix_of_append (p rest : string) : String.prefix p (p ++ rest)%string = true.
Proof.
  induction p as [| c p IH]; simpl; [now destruct rest |].
  destruct (ascii_dec c c) as [_ | n]; [exact IH | now elim n].
Qed.

Lemma substring_whole (s : string) : String.substring 0 (String.length s) s = s.
Proof. induction s as [| c s IH]; simpl; [reflexivity | now rewrite IH]. Qed.

Lemma substring_past_prefix (p rest : string) :
  String.substring (String.length p) (String.length rest) (p ++ rest)%string = rest.
Proof. induction p as [| c p IH]; simpl; [apply substring_whole | exact IH]. Qed.

Lemma length_of_append (p rest : string) :
  String.length (p ++ rest)%string = String.length p + String.length rest.
Proof. induction p as [| c p IH]; simpl; [reflexivity | now rewrite IH]. Qed.

Lemma drop_prefix_of_append (p rest : string) :
  drop_prefix p (p ++ rest)%string = Some rest.
Proof.
  unfold drop_prefix. rewrite prefix_of_append, length_of_append.
  replace (String.length p + String.length rest - String.length p)
    with (String.length rest) by lia.
  now rewrite substring_past_prefix.
Qed.

Lemma proxy_rewrite_strips (rest : string) :
  proxy_rewrite ("/api/notion" ++ rest)%string = rest.
Proof. unfold proxy_rewrite. now rewrite drop_prefix_of_append. Qed.

(** *** X20.  The development proxy sends the requests of the client to the
    addresses of the upstream service (the children of a block, the query of
    the database, the same address for search and statistics), and for a
    path below [/api/notion/] it reaches the address the relay endpoint
    builds from the rest of that path. *)
Theorem proxy_and_relay_reach_the_same_address (env : Env) (dbId : option string)
    (query pageId key : string) (req : VercelRequest) :
  (proxy_target ++ proxy_rewrite (req_url (blocks_request env pageId)))%string
  = ("https://api.notion.com/v1/blocks/" ++ pageId ++ "/children?page_size=100")%string
  /\ (proxy_target ++ proxy_rewrite (post_url (search_request env dbId query)))%string
     = ("https://api.notion.com/v1/databases/" ++ template_of dbId ++ "/query")%string
  /\ post_url (stats_request env dbId) = post_url (search_request env dbId query)
  /\ (proxy_target ++ proxy_rewrite ("/api/notion/" ++ query_path req))%string
     = up_url (upstream_request key req).
Proof.
  split; [| split; [| split]].
  - change (req_url (blocks_request env pageId))
      with ("/api/notion" ++ ("/blocks/" ++ pageId ++ "/children?page_size=100"))%string.
    now rewrite proxy_rewrite_strips.
  - change (post_url (search_request env dbId query))
      with ("/api/notion" ++ ("/databases/" ++ template_of dbId ++ "/query"))%string.
    now rewrite proxy_rewrite_strips.
  - reflexivity.
  - change ("/api/notion/" ++ query_path req)%string
      with ("/api/notion" ++ ("/" ++ query_path req))%string.
    now rewrite proxy_rewrite_strips.
Qed.

(** *** X21.  The rewrite of the development proxy removes one leading
    [/api/notion] and nothing else: a later occurrence stays, and a path
    that does not start with it is unchanged. *)
Theorem proxy_rewrite_strips_one_leading_prefix (path : string) :
  (forall rest, path = ("/api/notion" ++ rest)%string -> proxy_rewrite path = rest)
  /\ (startsWith path "/api/notion" = false -> proxy_rewrite path = path).
Proof.
  split.
  - intros rest ->. apply proxy_rewrite_strips.
  - unfold startsWith, proxy_rewrite, drop_prefix. now intros ->.
Qed.

Lemma proxy_rewrite_strips_one_leading_prefix_witness :
  proxy_rewrite "/api/notion/api/notion/pages" = "/api/notion/pages"
  /\ proxy_rewrite "/v1/api/notion" = "/v1/api/notion".
Proof.
  split.
  - exact (proj1 (proxy_rewrite_strips_one_leading_prefix "/api/notion/api/notion/pages")
             "/api/notion/pages" eq_refl).
  - exact (proj2 (proxy_rewrite_strips_one_leading_prefix "/v1/api/notion") eq_refl).
Defined.

(** *** X22.  The relay endpoint answers 500 with the missing-key message,
    without calling upstream, when the key is absent or empty; it passes on
    the status and the body of the upstream answer as they are; it answers
    500 with the error message when the request or the reading of the body
    throws; so an answer other than 500 is always an upstream answer. *)
Theorem relay_passes_the_upstream_answer (apiKey : option string)
    (fetch : UpstreamRequest -> JsResult UpstreamResponse) (req : VercelRequest) :
  (truthy_opt apiKey = false ->
   forall other,
     handler apiKey other req
     = {| status_code := 500;
          json_body := JObject [("error", JString "Missing Notion API Key in environment")] |})
  /\ (forall key response answer,
        apiKey = Some key -> truthy key = true ->
        fetch (upstream_request key req) = Returns response ->
        up_json response = Returns answer ->
        handler apiKey fetch req
        = {| status_code := up_status response; json_body := answer |})
  /\ (forall key message,
        apiKey = Some key -> truthy key = true ->
        (response <- fetch (upstream_request key req) ;; up_json response) = Throws message ->
        handler apiKey fetch req
        = {| status_code := 500; json_body := JObject [("error", JString message)] |})
  /\ (status_code (handler apiKey fetch req) <> 500 ->
      exists key response answer,
        apiKey = Some key
        /\ fetch (upstream_request key req) = Returns response
        /\ up_json response = Returns answer
        /\ handler apiKey fetch req
           = {| status_code := up_status response; json_body := answer |}).
Proof.
  split; [| split; [| split]].
  - intros Hk other. destruct apiKey as [key |]; [| reflexivity].
    simpl in Hk. unfold handler. now rewrite Hk.
  - intros key response answer -> Hk Hf Hj. unfold handler. rewrite Hk, Hf. simpl.
    now rewrite Hj.
  - intros key message -> Hk. unfold handler. rewrite Hk.
    destruct (fetch (upstream_request key req)) as [response | err]; simpl.
    + destruct (up_json response) as [answer | err]; simpl; [discriminate |].
      now intros [= ->].
    + now intros [= ->].
  - unfold handler. destruct apiKey as [key |]; [| now intros H; elim H].
    destruct (truthy key); [| now intros H; elim H].
    destruct (fetch (upstream_request key req)) as [response | err] eqn:Hf; simpl;
      [| now intros H; elim H].
    destruct (up_json response) as [answer | err] eqn:Hj; simpl; [| now intros H; elim H].
    intros _. now exists key, response, answer.
Qed.

(** The relay forwards the method as it is, and the body unless the method
    is [GET]. *)
Theorem relay_forwards_body_unless_get (key : string) (req : VercelRequest) :
  up_method (upstream_request key req) = http_method req
  /\ (http_method req = Some "GET" -> up_body (upstream_request key req) = None)
  /\ (http_method req <> Some "GET" -> up_body (upstream_request key req) = http_body req).
Proof.
  split; [reflexivity |]. unfold upstream_request. simpl. split.
  - now intros ->.
  - intros H. destruct (http_method req) as [m |]; simpl; [| reflexivity].
    destruct (String.eqb m "GET") eqn:E; [| reflexivity].
    apply String.eqb_eq in E. now subst m.
Qed.

Lemma relay_passes_the_upstream_answer_witness :
  handler (Some "secret_abc")
    (fun _ => Returns {| up_status := 404;
                         up_json := Returns (JObject [("object", JString "error")]) |})
    {| query_path := "blocks/b1/children"; http_method := Some "GET"; http_body := None |}
  = {| status_code := 404; json_body := JObject [("object", JString "error")] |}
  /\ handler (Some "")
       (fun _ => Returns {| up_status := 200; up_json := Returns JNull |})
       {| query_path := "blocks/b1/children"; http_method := Some "GET"; http_body := None |}
     = {| status_code := 500;
          json_body := JObject [("error", JString "Missing Notion API Key in environment")] |}.
Proof.
  split.
  - exact (proj1 (proj2 (relay_passes_the_upstream_answer (Some "secret_abc")
             (fun _ => Returns {| up_status := 404;
                                  up_json := Returns (JObject [("object", JString "error")]) |})
             {| query_path := "blocks/b1/children"; http_method := Some "GET";
                http_body := None |}))
             "secret_abc" _ _ eq_refl eq_refl eq_refl eq_refl).
  - exact (proj1 (relay_passes_the_upstream_answer (Some "")
             (fun _ => Returns {| up_status := 200; up_json := Returns JNull |})
             {| query_path := "blocks/b1/children"; http_method := Some "GET";
                http_body := None |})
             eq_refl _).
Defined.

(** ** Instances of the earlier properties *)

Lemma only_nesting_kinds_render_children_witness :
  NotionBlockRenderer (text_block "h" "heading_2" [plain "Details"] (Some nested_page))
  = NotionBlockRenderer (text_block "h" "heading_2" [plain "Details"] None).
Proof.
  exact (@only_nesting_kinds_render_children "h" "heading_2" (Some (payload [plain "Details"]))
           (Some nested_page) eq_refl).
Defined.

Lemma observer_callback_last_witness :
  activeSection
    (observer_callback
       ([ {| isIntersecting := true; target_id := "h1" |} ]
          ++ {| isIntersecting := true; target_id := "h2" |}
          :: [ {| isIntersecting := false; target_id := "h3" |} ])
       initial_view)
  = "h2".
Proof.
  exact (@observer_callback_last [ {| isIntersecting := true; target_id := "h1" |} ]
           [ {| isIntersecting := false; target_id := "h3" |} ] "h2" initial_view eq_refl).
Defined.

Lemma renderChart_success_witness :
  Mermaid_mounted drawing_mermaid false "a" "graph TD"
  = NElem "div" [("ref", ARef); className Mermaid_container_className]
      [NRawHtml "<svg id=mermaid-a/>"].
Proof.
  exact (@renderChart_success drawing_mermaid false "a" "graph TD" "<svg id=mermaid-a/>"
           eq_refl eq_refl).
Defined.
